(** * mcp-server-npm-plus: the response-normalisation layer of [src/npm-api.ts]

    A shallow embedding of the functions exported by [npm-api.ts] and
    the properties of them that the specification states.

    Modelling conventions.
    - A JavaScript string is the list of its UTF-16 code units ([str]),
      so the list length is the [.length] of the source.  The patterns
      and separators of the program are ASCII.  A string is well formed
      when its surrogates come in pairs; [encodeURIComponent] throws a
      [URIError] on any other string.
    - A JavaScript number is a double.  A number that holds a count is
      given by its value, an integer of [Z]; a sum, a quotient or a
      product of the source is the exact result, taken in [Q], rounded
      to the nearest double with ties to even ([Double.round]).
      [Double.round] keeps 53 significant bits and puts no bound on the
      exponent: the numbers of the model neither overflow to [Infinity]
      (from 2^1024) nor lose bits near 0 (below 2^-1022).
    - An [async] function is a computation that appends the URLs it
      requests to a log and leaves a promise: fulfilled with a value,
      rejected with the message of a thrown [Error], or still pending.
      The host answers a request with such a promise of a response.
    - The body of a response is typed by the shape its caller casts it
      to ([fetchJson<T>]); fields the source guards with [??] or [?.]
      are optional.  An object used as a map ([dist-tags], [versions])
      is a [gmap]; a key it lacks reads as absent (the members that a
      parsed object inherits carry no [dependencies], so they read like
      an absent entry).  An object whose entries are listed in order
      ([dependencies]) is the list of its entries. *)

From Stdlib Require Import ZArith NArith QArith Qround Qpower Lqa List String Ascii.
From Stdlib Require Import Permutation Lia Sorted Qabs.
From stdpp Require Import base option list gmap.

Local Open Scope list_scope.
Local Open Scope Z_scope.

(** ** Double precision *)

Module Double.

(** 2^k, for [k] of either sign. *)
Definition pow2 (k : Z) : Q := (2 ^ k)%Q.

(** The exponent [e] of a number above 0: the one with
    [2^e <= q < 2^(e+1)]. *)
Definition exponent (q : Q) : Z :=
  if Qle_bool 1 q then Z.log2 (Qfloor q) else - Z.log2_up (Qceiling (/ q)).

(** The integer nearest to [x], the even one of two that are equally
    near. *)
Definition nearest_even (x : Q) : Z :=
  let f := Qfloor x in
  match (x - inject_Z f ?= 1 # 2)%Q with
  | Lt => f
  | Gt => f + 1
  | Eq => if Z.even f then f else f + 1
  end.

(** The significant bits of a double. *)
Definition precision : Z := 53.

(** A number above 0, rounded to [precision] significant bits. *)
Definition round_positive (q : Q) : Q :=
  let scale := precision - 1 - exponent q in
  (inject_Z (nearest_even (q * pow2 scale)) * pow2 (- scale))%Q.

(** The double nearest to [q], in lowest terms. *)
Definition round (q : Q) : Q :=
  Qred
    match (q ?= 0)%Q with
    | Eq => 0%Q
    | Gt => round_positive q
    | Lt => (- round_positive (- q))%Q
    end.

(** [a + b] on numbers that hold integers: the sum of two such doubles
    is integral, and so is the double nearest to it. *)
Definition add (a b : Z) : Z := Qfloor (round (inject_Z (a + b))).

End Double.

(** ** Strings, numbers and arrays of the host language *)

Module JS.

Abbreviation char := N (only parsing).
Abbreviation str := (list N) (only parsing).

(** The characters of an ASCII literal of the source. *)
Definition lit (s : string) : str :=
  List.map N_of_ascii (list_ascii_of_string s).

(** [strip_prefix p s] is what follows [p] in [s] when [s] begins with
    [p]: the match of a pattern [/^p/] for a literal [p]. *)
Fixpoint strip_prefix (p s : str) : option str :=
  match p, s with
  | [], _ => Some s
  | _ :: _, [] => None
  | c :: p', d :: s' => if N.eqb c d then strip_prefix p' s' else None
  end.

(** [strip_suffix p s] is what precedes [p] in [s] when [s] ends with
    [p]: the match of a pattern [/p$/] (no [m] flag, so [$] is the end of
    the input only). *)
Definition strip_suffix (p s : str) : option str :=
  match strip_prefix (rev p) (rev s) with
  | Some r => Some (rev r)
  | None => None
  end.

(** [s.replace(/^p/, "")] and [s.replace(/p$/, "")]. *)
Definition replace_start (p s : str) : str :=
  match strip_prefix p s with Some r => r | None => s end.

Definition replace_end (p s : str) : str :=
  match strip_suffix p s with Some r => r | None => s end.

Definition startsWith (p s : str) : bool :=
  match strip_prefix p s with Some _ => true | None => false end.

Definition endsWith (p s : str) : bool :=
  match strip_suffix p s with Some _ => true | None => false end.

(** [s.includes(c)] for a one-character needle. *)
Definition includes (c : char) (s : str) : bool :=
  existsb (N.eqb c) s.

(** [s.split(c)] for a one-character separator: never empty. *)
Fixpoint split (c : char) (s : str) : list str :=
  match s with
  | [] => [[]]
  | d :: s' =>
      if N.eqb c d then [] :: split c s'
      else match split c s' with
           | [] => [[d]]
           | w :: ws => (d :: w) :: ws
           end
  end.

(** [a.join(sep)]. *)
Fixpoint join (sep : str) (a : list str) : str :=
  match a with
  | [] => []
  | [x] => x
  | x :: xs => x ++ sep ++ join sep xs
  end.

(** [s[i]]: the one-character string at index [i], [undefined] outside
    the string. *)
Definition index (s : str) (i : Z) : option str :=
  if i <? 0 then None
  else match nth_error s (Z.to_nat i) with
       | Some c => Some [c]
       | None => None
       end.

(** [a.slice(-n)]: the last [n] elements. *)
Definition slice_last {A} (n : nat) (a : list A) : list A :=
  skipn (length a - n) a.

(** The decimal digits of a number, most significant first. *)
Fixpoint digits (d : Decimal.uint) : str :=
  match d with
  | Decimal.Nil => []
  | Decimal.D0 d => 48%N :: digits d
  | Decimal.D1 d => 49%N :: digits d
  | Decimal.D2 d => 50%N :: digits d
  | Decimal.D3 d => 51%N :: digits d
  | Decimal.D4 d => 52%N :: digits d
  | Decimal.D5 d => 53%N :: digits d
  | Decimal.D6 d => 54%N :: digits d
  | Decimal.D7 d => 55%N :: digits d
  | Decimal.D8 d => 56%N :: digits d
  | Decimal.D9 d => 57%N :: digits d
  end.

(** The decimal representation of an integer: every digit of it. *)
Definition decimal (n : Z) : str :=
  match n with
  | Z0 => [48%N]
  | Zpos p => digits (Pos.to_uint p)
  | Zneg p => 45%N :: digits (Pos.to_uint p)
  end.

(** The integer [v], read as a number, is the double [x]. *)
Definition reads_as (v x : Z) : bool :=
  Qeq_bool (Double.round (inject_Z v)) (inject_Z x).

(** The decimal of [k] significant digits that reads as the double
    [x], when there is one: of the two decimals of [k] digits next to
    [x], the nearer one, and of two equally near the one whose last
    digit is even. *)
Definition shortest_with (x k : Z) : option Z :=
  let unit := 10 ^ (Z.of_nat (length (decimal x)) - k) in
  let below := x / unit * unit in
  let above := below + unit in
  match reads_as below x, reads_as above x with
  | true, true =>
      if (x - below <? above - x) || ((x - below =? above - x) && Z.even (below / unit))
      then Some below else Some above
  | true, false => Some below
  | false, true => Some above
  | false, false => None
  end.

Fixpoint shortest_from (x k : Z) (more : nat) : Z :=
  match more with
  | O => x
  | S more' =>
      match shortest_with x k with
      | Some v => v
      | None => shortest_from x (k + 1) more'
      end
  end.

(** The decimal with the fewest significant digits that reads as the
    double [x], for an integral [x] above 0. *)
Definition shortest (x : Z) : Z := shortest_from x 1 (length (decimal x) - 1).

Fixpoint drop_zeros (reversed : str) : str :=
  match reversed with
  | 48%N :: rest => drop_zeros rest
  | _ => reversed
  end.

(** The form [d.ddde+n] of an integer above 0. *)
Definition exponential (v : Z) : str :=
  match rev (drop_zeros (rev (decimal v))) with
  | [] => []
  | d :: rest =>
      d :: (match rest with [] => [] | _ => lit "." ++ rest end)
        ++ lit "e+" ++ decimal (Z.of_nat (length (decimal v)) - 1)
  end.

(** [String(n)] and [`${n}`] for an integral number: every digit up to
    2^53; beyond, the shortest decimal that reads as the same double,
    written out in full up to 21 digits and in the form [d.ddde+n] from
    there on. *)
Definition toString (n : Z) : str :=
  if Z.abs n <=? 2 ^ 53 then decimal n
  else
    let v := shortest (Qfloor (Double.round (inject_Z (Z.abs n)))) in
    (if n <? 0 then lit "-" else [])
      ++ (if Z.of_nat (length (decimal v)) <=? 21 then decimal v else exponential v).

(** [Math.round]: the nearest integer, a tie going to the greater one. *)
Definition Math_round (q : Q) : Z := Qfloor (q + (1 # 2))%Q.

Definition Math_floor (q : Q) : Z := Qfloor q.

(** [Math.max(x, ...xs)] and [Math.min(x, ...xs)] of at least one number. *)
Definition Math_max (x : Z) (xs : list Z) : Z := fold_left Z.max xs x.
Definition Math_min (x : Z) (xs : list Z) : Z := fold_left Z.min xs x.

(** [x] occurs in [s] as a substring. *)
Definition contains (x s : str) : Prop :=
  exists pre post, s = pre ++ x ++ post.

(** The code units that stand for one half of a character outside the
    Basic Multilingual Plane. *)
Definition high_surrogate (c : char) : bool := ((55296 <=? c) && (c <=? 56319))%N.
Definition low_surrogate (c : char) : bool := ((56320 <=? c) && (c <=? 57343))%N.

(** A string is well formed when every high surrogate is followed by a
    low one and every low surrogate follows a high one. *)
Fixpoint well_formed (s : str) : bool :=
  match s with
  | [] => true
  | c :: s' =>
      if high_surrogate c
      then match s' with
           | d :: s'' => low_surrogate d && well_formed s''
           | [] => false
           end
      else negb (low_surrogate c) && well_formed s'
  end.

(** The message of the [URIError] of [encodeURIComponent]. *)
Definition URIError : str := lit "URI malformed".

End JS.

Import JS.

(** [o ?? d] *)
Notation "o ?? d" := (default d o) (at level 45, left associativity, only parsing).

(** ** Promises and asynchronous functions *)

Inductive Promise (A : Type) : Type :=
| Pending
| Fulfilled (value : A)
| Rejected (message : str).
Arguments Pending {A}.
Arguments Fulfilled {A} value.
Arguments Rejected {A} message.

(** The URLs requested so far, oldest first. *)
Abbreviation Log := (list (list N)) (only parsing).

Definition Async (A : Type) : Type := Log -> Promise A * Log.

Definition ret {A} (a : A) : Async A := fun log => (Fulfilled a, log).

Definition throw {A} (message : str) : Async A := fun log => (Rejected message, log).

Definition bind {A B} (m : Async A) (k : A -> Async B) : Async B :=
  fun log =>
    match m log with
    | (Fulfilled a, log') => k a log'
    | (Rejected e, log') => (Rejected e, log')
    | (Pending, log') => (Pending, log')
    end.

(** [try { m } catch (err) { h err.message }] *)
Definition try_catch {A} (m : Async A) (h : str -> Async A) : Async A :=
  fun log =>
    match m log with
    | (Rejected e, log') => h e log'
    | r => r
    end.

Notation "x <- m ;; k" := (bind m (fun x => k))
  (at level 100, m at next level, right associativity).

(** The promise an asynchronous function leaves, and the requests it
    made, from an empty log. *)
Definition run {A} (m : Async A) : Promise A := fst (m []).
Definition requests {A} (m : Async A) : Log := snd (m []).

(** *** [Promise.all]

    The promises passed in are given by the state each one settles in
    ([outcomes]); [schedule] lists, in the order of time, the index of
    the promise that settles next.  A fulfilment stores its value at
    the index of its promise and fulfils the joint promise when no
    hole is left; a rejection rejects the joint promise; a settled
    promise does not change any more. *)

Module PromiseAll.

Record state (A : Type) : Type := mk {
  values : list (option A);
  promise : Promise (list A);
}.
Arguments mk {A} values promise.
Arguments values {A} s.
Arguments promise {A} s.

(** The values, when every index holds one. *)
Fixpoint collect {A} (vs : list (option A)) : option (list A) :=
  match vs with
  | [] => Some []
  | None :: _ => None
  | Some v :: vs' =>
      match collect vs' with
      | Some l => Some (v :: l)
      | None => None
      end
  end.

Definition settle_promise {A} (p : Promise (list A)) (r : Promise (list A)) :=
  match p with
  | Pending => r
  | _ => p
  end.

Definition init {A} (outcomes : list (Promise A)) : state A :=
  mk (List.map (fun _ => None) outcomes)
     (match outcomes with [] => Fulfilled [] | _ => Pending end).

Definition step {A} (outcomes : list (Promise A)) (s : state A) (i : nat) : state A :=
  match outcomes !! i with
  | Some (Fulfilled v) =>
      match values s !! i with
      | Some None =>
          let vs := <[i := Some v]> (values s) in
          mk vs (match collect vs with
                 | Some l => settle_promise (promise s) (Fulfilled l)
                 | None => promise s
                 end)
      | _ => s
      end
  | Some (Rejected e) => mk (values s) (settle_promise (promise s) (Rejected e))
  | _ => s
  end.

Definition all {A} (outcomes : list (Promise A)) (schedule : list nat) : Promise (list A) :=
  promise (fold_left (step outcomes) schedule (init outcomes)).

(** What holds of the state of the joint promise at every time. *)
Record Inv {A} (outcomes : list (Promise A)) (s : state A) : Prop := {
  inv_length : length (values s) = length outcomes;
  inv_values : forall i v, values s !! i = Some (Some v) -> outcomes !! i = Some (Fulfilled v);
  inv_promise :
    match promise s with
    | Pending => collect (values s) = None
    | Fulfilled l => collect (values s) = Some l
    | Rejected e => exists i, outcomes !! i = Some (Rejected e)
    end;
}.

(** The index [j] holds its value. *)
Definition filled {A} (s : state A) (j : nat) : Prop :=
  exists v, values s !! j = Some (Some v).

End PromiseAll.

(** [await Promise.all(promises)] *)
Definition Promise_all {A} (promises : list (Promise A)) (schedule : list nat) : Async (list A) :=
  fun log => (PromiseAll.all promises schedule, log).

(** [a.map(f)] for an asynchronous [f]: the calls are made in the order
    of the array, each one as far as its promise. *)
Fixpoint map_async {A B} (f : A -> Async B) (a : list A) : Log -> list (Promise B) * Log :=
  fun log =>
    match a with
    | [] => ([], log)
    | x :: xs =>
        let '(p, log1) := f x log in
        let '(ps, log2) := map_async f xs log1 in
        (p :: ps, log2)
    end.

(** ** Records returned to the caller *)

Module SearchResult.
Record t : Type := mk {
  name : str;
  version : str;
  description : str;
  keywords : list str;
  downloads : Z;
}.
End SearchResult.

Module PackageInfo.
Record t : Type := mk {
  name : str;
  version : str;
  description : str;
  keywords : list str;
  license : str;
  homepage : str;
  repository : str;
  dependencies : list (str * str);
  devDependencies : list (str * str);
}.
End PackageInfo.

Module BundleSize.
Record t : Type := mk {
  name : str;
  version : str;
  size : Z;
  gzip : Z;
  dependencyCount : Z;
}.
End BundleSize.

Module DownloadStats.
Record t : Type := mk {
  package : str;
  downloads : Z;
  start : str;
  end_ : str;
}.
End DownloadStats.

(** ** Shapes of the upstream JSON, as the source annotates them *)

Module SearchBody.
Record package_t : Type := mk_package {
  name : str;
  version : str;
  description : option str;
  keywords : option (list str);
}.
Record object_t : Type := mk_object {
  package : package_t;
  searchScore : option Q;
}.
Record t : Type := mk {
  objects : list object_t;
}.
End SearchBody.

Module PackageDoc.
(** A value of [versions], seen as the source casts it. *)
Record version_t : Type := mk_version {
  dependencies : option (list (str * str));
  devDependencies : option (list (str * str));
}.
(** [{ url?: string } | string] *)
Inductive repository_t : Type :=
| RepoString (s : str)
| RepoObject (url : option str).
Record t : Type := mk {
  name : str;
  dist_tags : option (gmap str str);
  versions : option (gmap str version_t);
  description : option str;
  license : option str;
  homepage : option str;
  repository : option repository_t;
  keywords : option (list str);
}.
End PackageDoc.

Module PointBody.
Record t : Type := mk {
  package : option str;
  downloads : Z;
  start : str;
  end_ : str;
}.
End PointBody.

Module DailyPoint.
Record t : Type := mk {
  day : str;
  downloads : Z;
}.
End DailyPoint.

Module RangeBody.
Record t : Type := mk {
  downloads : option (list DailyPoint.t);
  start : str;
  end_ : str;
  package : option str;
}.
End RangeBody.

Module BundleBody.
Record t : Type := mk {
  name : option str;
  version : option str;
  size : option Z;
  gzip : option Z;
  dependencyCount : option Z;
}.
End BundleBody.

(** What [fetch] resolves to: [ok], [status], the body as [text()] gives
    it and as [json()] parses it. *)
Record Response (T : Type) : Type := mkResponse {
  ok : bool;
  status : Z;
  text : str;
  json : T;
}.
Arguments mkResponse {T} ok status text json.
Arguments ok {T} r.
Arguments status {T} r.
Arguments text {T} r.
Arguments json {T} r.

(** ** The module [npm-api] *)

Definition REGISTRY : str := lit "https://registry.npmjs.org".
Definition API : str := lit "https://api.npmjs.org".
Definition BUNDLEPHOBIA : str := lit "https://bundlephobia.com/api/size".

(** The derived figures of [getDownloadTrends]: its local constants
    [total], [avg], [max], [min] and [sparkline]. *)
Module Trend.
Record t : Type := mk {
  total : Z;
  avg : Z;
  max : Z;
  min : Z;
  sparkline : str;
}.
End Trend.

(** "▁▂▃▄▅▆▇█" *)
Definition blocks : str := [9601; 9602; 9603; 9604; 9605; 9606; 9607; 9608]%N.

(** The index into [blocks] of a day with [downloads] when the largest
    day has [max], lines 224 to 227: the quotient is rounded to a
    double, and so is its product with [blocks.length - 1]. *)
Definition level (downloads max : Z) : Z :=
  Z.min
    (Math_floor
       (Double.round
          (Double.round (inject_Z downloads / inject_Z max)
           * inject_Z (Z.of_nat (length blocks) - 1))%Q))
    (Z.of_nat (length blocks) - 1).

(** Lines 212 to 231.  The total is summed from the left, each sum
    rounded to a double; the average is [Math.round] of the double
    nearest to the quotient. *)
Definition trend (daily : list DailyPoint.t) : Trend.t :=
  let counts := List.map DailyPoint.downloads daily in
  let total := fold_left (fun sum d => Double.add sum (DailyPoint.downloads d)) daily 0 in
  let avg :=
    if (0 <? Z.of_nat (length daily))
    then Math_round (Double.round (inject_Z total / inject_Z (Z.of_nat (length daily)))%Q)
    else 0 in
  (* [daily.length > 0 ? Math.max(...counts) : 0], and the same for [min] *)
  let max := match counts with x :: xs => Math_max x xs | [] => 0 end in
  let min := match counts with x :: xs => Math_min x xs | [] => 0 end in
  let sparkline :=
    if (0 <? Z.of_nat (length daily)) && (0 <? max)
    then join []
           (List.map (fun d => index blocks (level (DailyPoint.downloads d) max) ?? [])
                     daily)
    else [] in
  Trend.mk total avg max min sparkline.

(** The repository string of [getPackageInfo], lines 103 to 105:
    [String(repoUrl).replace(/^git\+/, "").replace(/\.git$/, "")]. *)
Definition normalizeRepository (repoUrl : str) : str :=
  replace_end (lit ".git") (replace_start (lit "git+") repoUrl).

(** The package spec of [getBundleSize], line 142. *)
Definition pkgSpec (name : str) : str :=
  if includes 64%N name then name else name ++ lit "@latest".

Section Host.

(** What the module takes from the host.  [escaped s] is the text that
    [encodeURIComponent] returns for a well-formed [s], and
    [toLocaleString] depends on the locale of the host. *)
Variable escaped : str -> str.
Variable toLocaleString : Z -> str.

(** [encodeURIComponent(s)]: the escaped text, or a [URIError] for a
    string with a lone surrogate. *)
Definition encodeURIComponent (s : str) : Async str :=
  if well_formed s then ret (escaped s) else throw URIError.

(** [await fetch(url)]: the request is made, and the promise of the
    host for it awaited.  It is fulfilled with a response, rejected
    when the network fails, or pending for ever. *)
Definition request {T} (fetch : str -> Promise (Response T)) (url : str)
  : Async (Response T) :=
  fun log => (fetch url, log ++ [url]).

Definition fetchJson {T} (fetch : str -> Promise (Response T)) (url : str) : Async T :=
  response <- request fetch url ;;
  if negb (ok response)
  then throw (lit "API error (" ++ toString (status response) ++ lit "): "
                ++ text response)
  else ret (json response).

Section Search.

Variable fetch : str -> Promise (Response SearchBody.t).

Definition searchPackages (query : str) (size : Z) : Async (list SearchResult.t) :=
  encoded <- encodeURIComponent query ;;
  data <- fetchJson fetch
            (REGISTRY ++ lit "/-/v1/search?text=" ++ encoded
                      ++ lit "&size=" ++ toString size) ;;
  ret (List.map
         (fun obj =>
            SearchResult.mk
              (SearchBody.name (SearchBody.package obj))
              (SearchBody.version (SearchBody.package obj))
              (SearchBody.description (SearchBody.package obj) ?? [])
              (SearchBody.keywords (SearchBody.package obj) ?? [])
              0)
         (SearchBody.objects data)).

End Search.

Section Registry.

Variable fetch : str -> Promise (Response PackageDoc.t).

Definition getPackageInfo (name : str) : Async PackageInfo.t :=
  encoded <- encodeURIComponent name ;;
  data <- fetchJson fetch (REGISTRY ++ lit "/" ++ encoded) ;;
  let latestVersion : str :=
    (dt ← PackageDoc.dist_tags data; dt !! lit "latest") ?? [] in
  let latestData :=
    (vs ← PackageDoc.versions data; vs !! latestVersion)
      ?? PackageDoc.mk_version None None in
  let repoUrl : str :=
    match PackageDoc.repository data with
    | Some (PackageDoc.RepoString s) => s
    | Some (PackageDoc.RepoObject url) => url ?? []
    | None => []
    end in
  ret (PackageInfo.mk
         (PackageDoc.name data)
         latestVersion
         (PackageDoc.description data ?? [])
         (PackageDoc.keywords data ?? [])
         (PackageDoc.license data ?? lit "Unknown")
         (PackageDoc.homepage data ?? [])
         (normalizeRepository repoUrl)
         (PackageDoc.dependencies latestData ?? [])
         (PackageDoc.devDependencies latestData ?? [])).

(** Both the call to [getPackageInfo] and the call to
    [encodeURIComponent] stand in the [try] block. *)
Definition getVulnerabilities (name : str) : Async str :=
  try_catch
    (info <- getPackageInfo name ;;
     encoded <- encodeURIComponent (PackageInfo.name info) ;;
     let advisoryUrl := lit "https://github.com/advisories?query=" ++ encoded in
     ret (lit "Vulnerability data for " ++ [34%N] ++ name ++ [34%N]
            ++ lit " requires `npm audit` in a project that uses it."
            ++ [10; 10]%N
            ++ lit "Public APIs: Run `npm audit` in your project, or check advisories at:"
            ++ [10%N] ++ advisoryUrl ++ [10; 10]%N
            ++ lit "For automated scanning, consider Snyk or Dependabot."))
    (fun message =>
       throw (lit "Could not fetch package info for vulnerability check: " ++ message)).

(** "├── dep@version" *)
Definition branch (entry : str * str) : str :=
  [9500; 9472; 9472; 32]%N ++ fst entry ++ lit "@" ++ snd entry.

Definition getDependencyTree (name : str) : Async str :=
  info <- getPackageInfo name ;;
  let depEntries := PackageInfo.dependencies info in
  let devDepEntries := PackageInfo.devDependencies info in
  let lines0 := [PackageInfo.name info ++ lit "@" ++ PackageInfo.version info; []] in
  let lines1 :=
    if (0 <? Z.of_nat (length depEntries))
    then lines0 ++ [lit "dependencies:"] ++ List.map branch depEntries
    else lines0 in
  let lines2 :=
    if (0 <? Z.of_nat (length devDepEntries))
    then lines1 ++ [[]; lit "devDependencies:"] ++ List.map branch devDepEntries
    else lines1 in
  let lines3 :=
    if (Z.of_nat (length depEntries) =? 0) && (Z.of_nat (length devDepEntries) =? 0)
    then lines2 ++ [lit "(no dependencies)"]
    else lines2 in
  ret (join [10%N] lines3).

End Registry.

Section Downloads.

Variable fetch : str -> Promise (Response PointBody.t).

Definition getDownloads (name period : str) : Async DownloadStats.t :=
  encoded <- encodeURIComponent name ;;
  data <- fetchJson fetch
            (API ++ lit "/downloads/point/" ++ period ++ lit "/" ++ encoded) ;;
  ret (DownloadStats.mk
         (PointBody.package data ?? name)
         (PointBody.downloads data)
         (PointBody.start data)
         (PointBody.end_ data)).

(** [schedule] is the order in which the promises of the calls to
    [getDownloads] settle. *)
Definition compareDownloads (packages : list str) (period : str) (schedule : list nat)
  : Async (list DownloadStats.t) :=
  fun log =>
    let '(promises, log) :=
      map_async (fun pkg => getDownloads pkg period) packages log in
    (results <- Promise_all promises schedule ;;
     ret results) log.

End Downloads.

Section Bundle.

Variable fetch : str -> Promise (Response BundleBody.t).

Definition getBundleSize (name : str) : Async BundleSize.t :=
  let pkgSpec := pkgSpec name in
  encoded <- encodeURIComponent pkgSpec ;;
  data <- fetchJson fetch (BUNDLEPHOBIA ++ lit "?package=" ++ encoded) ;;
  ret (BundleSize.mk
         (BundleBody.name data ?? (head (split 64%N name) ?? name))
         (BundleBody.version data ?? lit "latest")
         (BundleBody.size data ?? 0)
         (BundleBody.gzip data ?? 0)
         (BundleBody.dependencyCount data ?? 0)).

End Bundle.

Section Trends.

Variable fetch : str -> Promise (Response RangeBody.t).

Definition getDownloadTrends (name period : str) : Async str :=
  encoded <- encodeURIComponent name ;;
  data <- fetchJson fetch
            (API ++ lit "/downloads/range/" ++ period ++ lit "/" ++ encoded) ;;
  let daily := RangeBody.downloads data ?? [] in
  let t := trend daily in
  let sparkline := Trend.sparkline t in
  let tableRows :=
    join [10%N]
      (List.map
         (fun d => lit "| " ++ DailyPoint.day d ++ lit " | "
                     ++ toLocaleString (DailyPoint.downloads d) ++ lit " |")
         (slice_last 14 daily)) in
  ret (join [10%N]
         (List.filter (fun line : str => negb (Nat.eqb (length line) 0))
            [ lit "## " ++ (RangeBody.package data ?? name) ++ [32; 8212; 32]%N
                ++ RangeBody.start data ++ lit " to " ++ RangeBody.end_ data;
              [];
              lit "Total: " ++ toLocaleString (Trend.total t)
                ++ lit " | Avg/day: " ++ toLocaleString (Trend.avg t)
                ++ lit " | Min: " ++ toLocaleString (Trend.min t)
                ++ lit " | Max: " ++ toLocaleString (Trend.max t);
              [];
              (if negb (Nat.eqb (length sparkline) 0)
               then lit "Trend: " ++ sparkline else []);
              [];
              lit "| Day | Downloads |";
              lit "|-----|-----------|";
              tableRows ])).

End Trends.

End Host.

(** ** Vocabulary of the specification *)

(** An error message carries the status and the body of a response. *)
Definition reports {T} (message : str) (r : Response T) : Prop :=
  contains (toString (status r)) message /\ contains (text r) message.

(** An operation fails with an error that carries the status and the
    body of a response. *)
Definition fails_reporting {A T} (m : Async A) (r : Response T) : Prop :=
  exists message, run m = Rejected message /\ reports message r.

(** Every one of [n] promises settles at some time of the schedule. *)
Definition complete (n : nat) (schedule : list nat) : Prop :=
  forall i, (i < n)%nat -> In i schedule.

(** The message of the first promise of the schedule to reject. *)
Fixpoint first_rejected {A} (outcomes : list (Promise A)) (schedule : list nat) : option str :=
  match schedule with
  | [] => None
  | i :: rest =>
      match outcomes !! i with
      | Some (Rejected e) => Some e
      | _ => first_rejected outcomes rest
      end
  end.

(** The sum of a series. *)
Definition sum (l : list Z) : Z := fold_right Z.add 0 l.

(** [a] is the real number [q] rounded to the nearest integer, a half
    going up. *)
Definition round_half_up (q : Q) (a : Z) : Prop :=
  (inject_Z a - (1 # 2) <= q)%Q /\ (q < inject_Z a + (1 # 2))%Q.

Definition clamp (lo hi x : Z) : Z := Z.max lo (Z.min hi x).

(** The version under which [getPackageInfo] looks the dependencies up:
    the dist-tag [latest], the empty string without it. *)
Definition latest_tag (doc : PackageDoc.t) : option str :=
  dt ← PackageDoc.dist_tags doc; dt !! lit "latest".

Definition version_entry (doc : PackageDoc.t) (version : str) : option PackageDoc.version_t :=
  vs ← PackageDoc.versions doc; vs !! version.

(** In the words of the specification: the input contains an [@]
    version separator.  The name of a package may begin with the [@]
    of its scope; an [@] after the first character separates the name
    from a version. *)
Definition spec_version_separator (name : str) : bool :=
  match name with
  | [] => false
  | _ :: rest => includes 64%N rest
  end.


(** ** Sample inputs *)

Module Sample.

(** The text that [encodeURIComponent] returns for a well-formed
    string: the unreserved characters stay, every other one becomes the
    escaped bytes of its UTF-8 form. *)
Definition unreserved (c : char) : bool :=
  ((65 <=? c) && (c <=? 90) || (97 <=? c) && (c <=? 122) || (48 <=? c) && (c <=? 57)
   || existsb (N.eqb c) (lit "-_.!~*'()"))%N.

Definition hex (n : N) : char :=
  (if n <? 10 then 48 + n else 55 + n)%N.

Definition escape (byte : N) : str :=
  [37%N; hex (byte / 16)%N; hex (byte mod 16)%N].

Definition utf8 (c : char) : list N :=
  (if c <? 128 then [c]
   else if c <? 2048 then [192 + c / 64; 128 + c mod 64]
   else if c <? 65536 then [224 + c / 4096; 128 + (c / 64) mod 64; 128 + c mod 64]
   else [240 + c / 262144; 128 + (c / 4096) mod 64; 128 + (c / 64) mod 64; 128 + c mod 64])%N.

(** The characters of a string: a surrogate pair is one character. *)
Fixpoint code_points (s : str) : list N :=
  match s with
  | [] => []
  | c :: s' =>
      if high_surrogate c
      then match s' with
           | d :: s'' =>
               if low_surrogate d
               then (65536 + (c - 55296) * 1024 + (d - 56320))%N :: code_points s''
               else c :: code_points s'
           | [] => [c]
           end
      else c :: code_points s'
  end.

Definition percent_encode (s : str) : str :=
  List.concat
    (List.map (fun c => if unreserved c then [c] else List.concat (List.map escape (utf8 c)))
              (code_points s)).

(** A string that is one high surrogate, without the low one. *)
Definition lone_surrogate : str := [55296%N].

(** A repository URL as the registry gives it. *)
Definition express_repo : str := lit "git+https://github.com/expressjs/express.git".

(** A URL that ends in [.git] twice. *)
Definition twice_git : str := lit "https://example.org/mirror.git.git".

Definition not_found {T} (body : T) : Response T :=
  mkResponse false 404 (lit "Not found") body.

Definition found {T} (body : T) : Response T :=
  mkResponse true 200 [] body.

(** A host that gives the same answer to every request. *)
Definition always {T} (r : Response T) (url : str) : Promise (Response T) :=
  Fulfilled r.

Definition lodash_search : SearchBody.t :=
  SearchBody.mk
    [ SearchBody.mk_object
        (SearchBody.mk_package (lit "lodash") (lit "4.17.21")
           (Some (lit "Lodash modular utilities"))
           (Some [lit "modules"; lit "stdlib"; lit "util"]))
        None;
      SearchBody.mk_object
        (SearchBody.mk_package (lit "lodash-es") (lit "4.17.21") None None)
        None ].

Definition lodash_results : list SearchResult.t :=
  [ SearchResult.mk (lit "lodash") (lit "4.17.21") (lit "Lodash modular utilities")
      [lit "modules"; lit "stdlib"; lit "util"] 0;
    SearchResult.mk (lit "lodash-es") (lit "4.17.21") [] [] 0 ].

(** A document without a dist-tag [latest] whose [versions] has an
    entry under the empty string. *)
Definition untagged_doc : PackageDoc.t :=
  PackageDoc.mk (lit "orphan")
    (Some (∅ : gmap str str))
    (Some ({[ [] := PackageDoc.mk_version (Some [(lit "left-pad", lit "1.0.0")]) None ]}
           : gmap str PackageDoc.version_t))
    None None None None None.

(** A document whose dist-tag [latest] names a version that [versions]
    does not have. *)
Definition dangling_doc : PackageDoc.t :=
  PackageDoc.mk (lit "dangling")
    (Some ({[ lit "latest" := lit "2.0.0" ]} : gmap str str))
    (Some ({[ lit "1.0.0" := PackageDoc.mk_version (Some [(lit "debug", lit "2.6.9")]) None ]}
           : gmap str PackageDoc.version_t))
    None None None None None.

Definition empty_bundle : BundleBody.t := BundleBody.mk None None None None None.

(** Three days of downloads. *)
Definition january : list DailyPoint.t :=
  [ DailyPoint.mk (lit "2025-01-01") 1000;
    DailyPoint.mk (lit "2025-01-02") 1500;
    DailyPoint.mk (lit "2025-01-03") 2000 ].

(** Two days whose mean lies halfway between two integers. *)
Definition halfway : list DailyPoint.t :=
  [ DailyPoint.mk (lit "2025-02-01") 1;
    DailyPoint.mk (lit "2025-02-02") 2 ].

(** A series with a count below 0, which no download count is. *)
Definition below_zero : list DailyPoint.t :=
  [ DailyPoint.mk (lit "2025-03-01") (-5);
    DailyPoint.mk (lit "2025-03-02") 10 ].

Definition zustand_stats : PointBody.t :=
  PointBody.mk (Some (lit "zustand")) 5000000 (lit "2025-01-01") (lit "2025-01-31").

Definition jotai_stats : PointBody.t :=
  PointBody.mk None 2000000 (lit "2025-01-01") (lit "2025-01-31").

(** The download counts API: it knows [zustand] and [jotai]. *)
Definition downloads_api (url : str) : Promise (Response PointBody.t) :=
  if endsWith (lit "/zustand") url then Fulfilled (found zustand_stats)
  else if endsWith (lit "/jotai") url then Fulfilled (found jotai_stats)
  else Fulfilled (not_found zustand_stats).

Definition zustand_result : DownloadStats.t :=
  DownloadStats.mk (lit "zustand") 5000000 (lit "2025-01-01") (lit "2025-01-31").

Definition jotai_result : DownloadStats.t :=
  DownloadStats.mk (lit "jotai") 2000000 (lit "2025-01-01") (lit "2025-01-31").

(** More names than the tool layer lets through. *)
Definition eleven_packages : list str := repeat (lit "zustand") 11.

(** [toLocaleString] in the locale [en-US], for a count of at most 2^53
    in magnitude: the digits in groups of three. *)
Fixpoint group3 (k : nat) (reversed : str) : str :=
  match reversed with
  | [] => []
  | c :: rest =>
      match k with
      | 3%nat => 44%N :: c :: group3 1 rest
      | _ => c :: group3 (S k) rest
      end
  end.

Definition en_US (n : Z) : str :=
  match n with
  | Zneg p => 45%N :: rev (group3 0 (rev (decimal (Zpos p))))
  | _ => rev (group3 0 (rev (decimal n)))
  end.

(** The documents of the tests of the repository. *)
Definition express_doc : PackageDoc.t :=
  PackageDoc.mk (lit "express")
    (Some ({[ lit "latest" := lit "4.18.0" ]} : gmap str str))
    (Some ({[ lit "4.18.0" :=
                PackageDoc.mk_version (Some [(lit "debug", lit "2.6.9")])
                                      (Some [(lit "eslint", lit "8.0.0")]) ]}
           : gmap str PackageDoc.version_t))
    (Some (lit "Fast web framework"))
    (Some (lit "MIT"))
    (Some (lit "https://expressjs.com"))
    (Some (PackageDoc.RepoObject (Some express_repo)))
    (Some [lit "web"; lit "framework"]).

Definition next_doc : PackageDoc.t :=
  PackageDoc.mk (lit "next")
    (Some ({[ lit "latest" := lit "14.0.0" ]} : gmap str str))
    (Some ({[ lit "14.0.0" :=
                PackageDoc.mk_version
                  (Some [(lit "react", lit "18.0.0"); (lit "react-dom", lit "18.0.0")])
                  (Some [(lit "typescript", lit "5.0.0")]) ]}
           : gmap str PackageDoc.version_t))
    None None None None None.

Definition typescript_range : RangeBody.t :=
  RangeBody.mk (Some january) (lit "2025-01-01") (lit "2025-01-14") (Some (lit "typescript")).

(** A network on which the request for [jotai] fails and every request
    but the one for [zustand] stays without an answer. *)
Definition flaky_api (url : str) : Promise (Response PointBody.t) :=
  if endsWith (lit "/zustand") url then Fulfilled (found zustand_stats)
  else if endsWith (lit "/jotai") url then Rejected (lit "fetch failed")
  else Pending.

(** A download counts API that fails for [alpha] and has never heard of
    [beta]. *)
Definition failing_api (url : str) : Promise (Response PointBody.t) :=
  if endsWith (lit "/alpha") url
  then Fulfilled (mkResponse false 500 (lit "Internal error") zustand_stats)
  else if endsWith (lit "/beta") url then Fulfilled (not_found zustand_stats)
  else Fulfilled (found zustand_stats).

(** Three days whose mean, 2^51 + 1/3, lies between two doubles that
    are 1/2 apart. *)
Definition rounded_mean : list DailyPoint.t :=
  [ DailyPoint.mk (lit "2025-04-01") (2 ^ 51);
    DailyPoint.mk (lit "2025-04-02") (2 ^ 51);
    DailyPoint.mk (lit "2025-04-03") (2 ^ 51 + 1) ].

(** Two days, the first with a little less than 4/7 of the second. *)
Definition rounded_level : list DailyPoint.t :=
  [ DailyPoint.mk (lit "2025-05-01") 2573485501354569;
    DailyPoint.mk (lit "2025-05-02") (2 ^ 52) ].

(** Six days of 2^52 + 2 downloads. *)
Definition rounded_total : list DailyPoint.t :=
  repeat (DailyPoint.mk (lit "2025-06-01") (2 ^ 52 + 2)) 6.

End Sample.

(** * The module [index]: the tools built on [npm-api]

    A tool handler receives arguments that the schema of the tool has
    validated, calls one function of [npm-api] and renders its result as
    text; whatever the function throws becomes a result flagged as an
    error. *)

(** ** More of the host language *)

(** [a || b] on strings: [b] when [a] is the empty string. *)
Definition or_else (a b : str) : str :=
  match a with
  | [] => b
  | _ => a
  end.

(** [a.sort(compare)]: the sort is stable, and puts [x] before [y] when
    [compare x y] is below 0. *)
Fixpoint sort_insert {A} (compare : A -> A -> Z) (x : A) (sorted : list A) : list A :=
  match sorted with
  | [] => [x]
  | y :: rest =>
      if compare x y <=? 0 then x :: sorted else y :: sort_insert compare x rest
  end.

Definition sort {A} (compare : A -> A -> Z) (a : list A) : list A :=
  fold_right (sort_insert compare) [] a.

Definition pad_zero (width : nat) (s : str) : str :=
  repeat 48%N (width - length s) ++ s.

(** [x.toFixed(f)] for a double [x]: below 10^21 in magnitude, the
    decimal with [f] digits after the point that is nearest to [x], the
    greater one in magnitude of two that are equally near, with every
    digit of it; from 10^21 on, where every double is integral, what
    [String(x)] gives. *)
Definition toFixed (x : Q) (f : nat) : str :=
  let sign : str := if Qle_bool 0 x then [] else lit "-" in
  if Qle_bool (inject_Z (10 ^ 21)) (Qabs x)
  then sign ++ toString (Qfloor (Qabs x))
  else
    let scale := 10 ^ Z.of_nat f in
    let n := Qfloor (Qabs x * inject_Z scale + (1 # 2))%Q in
    sign ++ decimal (n / scale)
         ++ (if Nat.eqb f 0 then [] else lit "." ++ pad_zero f (decimal (n mod scale))).

(** ** [index.ts] *)

(** The result of a tool: one content item of type text, and the flag
    [isError] when it is set. *)
Record ToolResult : Type := mkToolResult {
  result_text : str;
  isError : bool;
}.

(** [{ content: [{ type: "text", text }] }] *)
Definition text_result (text : str) : ToolResult := mkToolResult text false.

(** The [catch] branch of every handler. *)
Definition error_result (message : str) : ToolResult :=
  mkToolResult (lit "Error: " ++ message) true.

(** Lines 20 to 24 of [index.ts]; the quotients are doubles. *)
Definition formatSize (bytes : Z) : str :=
  if bytes <? 1024 then toString bytes ++ lit " B"
  else if bytes <? 1024 * 1024
       then toFixed (Double.round (inject_Z bytes / inject_Z 1024)%Q) 2 ++ lit " KB"
       else toFixed (Double.round (inject_Z bytes / inject_Z (1024 * 1024))%Q) 2 ++ lit " MB".

(** The bounds that the schema of the comparison tool puts on its list
    of packages: [z.array(z.string()).min(2).max(10)]. *)
Definition packages_schema (packages : list str) : bool :=
  (2 <=? length packages)%nat && (length packages <=? 10)%nat.

Section Tools.

Variable escaped : str -> str.
Variable toLocaleString : Z -> str.

Section SearchTool.

Variable fetch : str -> Promise (Response SearchBody.t).

Definition search_tool (query : str) (size : Z) : Async ToolResult :=
  try_catch
    (results <- searchPackages escaped fetch query size ;;
     if Nat.eqb (length results) 0
     then ret (text_result (lit "No packages found."))
     else
       let text :=
         join [10; 10]%N
           (imap
              (fun i r =>
                 toString (Z.of_nat i + 1) ++ lit ". **" ++ SearchResult.name r
                   ++ lit "** v" ++ SearchResult.version r ++ [10%N]
                   ++ lit "   "
                   ++ or_else (SearchResult.description r) (lit "(no description)")
                   ++ [10%N]
                   ++ lit "   Keywords: "
                   ++ or_else (join (lit ", ") (SearchResult.keywords r)) [8212%N])
              results) in
       ret (text_result text))
    (fun message => ret (error_result message)).

End SearchTool.

Section RegistryTools.

Variable fetch : str -> Promise (Response PackageDoc.t).

Definition package_info_tool (name : str) : Async ToolResult :=
  try_catch
    (info <- getPackageInfo escaped fetch name ;;
     let depList :=
       join [10%N]
         (List.map (fun '(k, v) => lit "  - " ++ k ++ lit ": " ++ v)
                   (PackageInfo.dependencies info)) in
     let devDepList :=
       join [10%N]
         (List.map (fun '(k, v) => lit "  - " ++ k ++ lit ": " ++ v)
                   (PackageInfo.devDependencies info)) in
     let text :=
       join [10%N]
         (List.filter (fun line : str => negb (Nat.eqb (length line) 0))
            [ lit "# " ++ PackageInfo.name info ++ lit " v" ++ PackageInfo.version info;
              [];
              PackageInfo.description info;
              [];
              lit "| Field | Value |";
              lit "|-------|-------|";
              lit "| License | " ++ PackageInfo.license info ++ lit " |";
              lit "| Homepage | " ++ or_else (PackageInfo.homepage info) [8212%N]
                ++ lit " |";
              lit "| Repository | " ++ or_else (PackageInfo.repository info) [8212%N]
                ++ lit " |";
              lit "| Dependencies | "
                ++ toString (Z.of_nat (length (PackageInfo.dependencies info)))
                ++ lit " |";
              lit "| Dev dependencies | "
                ++ toString (Z.of_nat (length (PackageInfo.devDependencies info)))
                ++ lit " |";
              [];
              lit "**Keywords:** "
                ++ or_else (join (lit ", ") (PackageInfo.keywords info)) [8212%N];
              [];
              (if negb (Nat.eqb (length depList) 0)
               then lit "**Dependencies:**" ++ [10%N] ++ depList else []);
              (if negb (Nat.eqb (length devDepList) 0)
               then [10%N] ++ lit "**Dev dependencies:**" ++ [10%N] ++ devDepList
               else []) ]) in
     ret (text_result text))
    (fun message => ret (error_result message)).

Definition vulnerabilities_tool (name : str) : Async ToolResult :=
  try_catch
    (text <- getVulnerabilities escaped fetch name ;;
     ret (text_result text))
    (fun message => ret (error_result message)).

Definition dependency_tree_tool (name : str) : Async ToolResult :=
  try_catch
    (text <- getDependencyTree escaped fetch name ;;
     ret (text_result text))
    (fun message => ret (error_result message)).

End RegistryTools.

Section DownloadTools.

Variable fetch : str -> Promise (Response PointBody.t).

Definition downloads_tool (name period : str) : Async ToolResult :=
  try_catch
    (stats <- getDownloads escaped fetch name period ;;
     let text :=
       join [10%N]
         [ lit "# " ++ DownloadStats.package stats ++ lit " downloads";
           [];
           lit "Period: " ++ DownloadStats.start stats ++ lit " to "
             ++ DownloadStats.end_ stats;
           lit "Total: **" ++ toLocaleString (DownloadStats.downloads stats)
             ++ lit "** downloads" ] in
     ret (text_result text))
    (fun message => ret (error_result message)).

(** [(a, b) => b.downloads - a.downloads].  The sort looks at the sign
    of the difference only, and the double nearest to the difference
    has the sign of the difference. *)
Definition by_downloads_descending (a b : DownloadStats.t) : Z :=
  DownloadStats.downloads b - DownloadStats.downloads a.

Definition compare_row (r : DownloadStats.t) : str :=
  lit "| " ++ DownloadStats.package r ++ lit " | "
    ++ toLocaleString (DownloadStats.downloads r) ++ lit " |".

Definition compare_downloads_tool (packages : list str) (period : str)
    (schedule : list nat) : Async ToolResult :=
  try_catch
    (results <- compareDownloads escaped fetch packages period schedule ;;
     let sorted := sort by_downloads_descending results in
     let header := lit "| Package | Downloads |" in
     let sep := lit "|---------|-----------|" in
     let rows := join [10%N] (List.map compare_row sorted) in
     let text :=
       join [10%N]
         [ lit "## Download comparison (" ++ period ++ lit ")";
           [];
           lit "Period: " ++ (DownloadStats.start <$> head results) ?? [8212%N]
             ++ lit " to " ++ (DownloadStats.end_ <$> head results) ?? [8212%N];
           [];
           header;
           sep;
           rows ] in
     ret (text_result text))
    (fun message => ret (error_result message)).

End DownloadTools.

Section BundleTool.

Variable fetch : str -> Promise (Response BundleBody.t).

Definition bundle_size_tool (name : str) : Async ToolResult :=
  try_catch
    (size <- getBundleSize escaped fetch name ;;
     let text :=
       join [10%N]
         [ lit "# " ++ BundleSize.name size ++ lit "@" ++ BundleSize.version size
             ++ lit " bundle size";
           [];
           lit "| Metric | Size |";
           lit "|--------|------|";
           lit "| Minified | " ++ formatSize (BundleSize.size size) ++ lit " |";
           lit "| Gzipped | " ++ formatSize (BundleSize.gzip size) ++ lit " |";
           lit "| Dependencies | " ++ toString (BundleSize.dependencyCount size)
             ++ lit " |" ] in
     ret (text_result text))
    (fun message => ret (error_result message)).

End BundleTool.

Section TrendsTool.

Variable fetch : str -> Promise (Response RangeBody.t).

Definition download_trends_tool (name period : str) : Async ToolResult :=
  try_catch
    (text <- getDownloadTrends escaped toLocaleString fetch name period ;;
     ret (text_result text))
    (fun message => ret (error_result message)).

End TrendsTool.

End Tools.

(** ** Vocabulary of the further properties *)

(** The part of [s] before the first [c], all of [s] without one. *)
Fixpoint before (c : char) (s : str) : str :=
  match s with
  | [] => []
  | d :: s' => if N.eqb c d then [] else d :: before c s'
  end.

(** A document with one more entry in [versions]. *)
Definition with_version (doc : PackageDoc.t) (version : str) (data : PackageDoc.version_t)
  : PackageDoc.t :=
  PackageDoc.mk
    (PackageDoc.name doc)
    (PackageDoc.dist_tags doc)
    (Some (<[version := data]> (PackageDoc.versions doc ?? ∅)))
    (PackageDoc.description doc)
    (PackageDoc.license doc)
    (PackageDoc.homepage doc)
    (PackageDoc.repository doc)
    (PackageDoc.keywords doc).

(** A document with another form of [repository]. *)
Definition with_repository (doc : PackageDoc.t) (repository : option PackageDoc.repository_t)
  : PackageDoc.t :=
  PackageDoc.mk
    (PackageDoc.name doc)
    (PackageDoc.dist_tags doc)
    (PackageDoc.versions doc)
    (PackageDoc.description doc)
    (PackageDoc.license doc)
    (PackageDoc.homepage doc)
    repository
    (PackageDoc.keywords doc).

(** The same response with another body. *)
Definition with_json {T} (r : Response T) (body : T) : Response T :=
  mkResponse (ok r) (status r) (text r) body.

(** The text of [getVulnerabilities] for the name asked and the name
    the registry gives. *)
Definition advisory_text (encode : str -> str) (asked canonical : str) : str :=
  lit "Vulnerability data for " ++ [34%N] ++ asked ++ [34%N]
    ++ lit " requires `npm audit` in a project that uses it." ++ [10; 10]%N
    ++ lit "Public APIs: Run `npm audit` in your project, or check advisories at:"
    ++ [10%N] ++ lit "https://github.com/advisories?query=" ++ encode canonical
    ++ [10; 10]%N ++ lit "For automated scanning, consider Snyk or Dependabot.".

(** The days of a series whose count is not below 0. *)
Definition counted (daily : list DailyPoint.t) : list DailyPoint.t :=
  List.filter (fun d => 0 <=? DailyPoint.downloads d) daily.

(** A list of download statistics in descending order of downloads. *)
Definition descending (l : list DownloadStats.t) : Prop :=
  StronglySorted (fun a b => DownloadStats.downloads b <= DownloadStats.downloads a) l.

(** A tool reports the failure of the operation it calls: the error of
    the operation becomes a result flagged as an error, the tool itself
    never fails, and it flags no result of an operation that
    succeeded. *)
Definition reports_errors {A} (operation : Async A) (tool : Async ToolResult) : Prop :=
  (forall message,
      run operation = Rejected message ->
      run tool = Fulfilled (error_result message))
  /\ (forall message, run tool <> Rejected message)
  /\ (forall result,
         run tool = Fulfilled result -> isError result = true ->
         exists message, run operation = Rejected message).

(** The hundredths that [toFixed(2)] shows for the quotient of [bytes]
    by [unit]. *)
Definition hundredths (bytes unit : Z) : Z := (200 * bytes + unit) / (2 * unit).

(** ** Further sample inputs *)

Module Case.

Definition scoped : str := lit "@babel/core".

Definition minimal_doc : PackageDoc.t :=
  PackageDoc.mk (lit "tiny") None None None None None None None.

Definition three_stats : list DownloadStats.t :=
  [ DownloadStats.mk (lit "jotai") 2000000 (lit "2025-01-01") (lit "2025-01-31");
    DownloadStats.mk (lit "zustand") 5000000 (lit "2025-01-01") (lit "2025-01-31");
    DownloadStats.mk (lit "valtio") 2000000 (lit "2025-01-01") (lit "2025-01-31") ].

(** The download counts API without the field [package]. *)
Definition anonymous_api (url : str) : Promise (Response PointBody.t) :=
  Fulfilled (Sample.found Sample.jotai_stats).

Definition lodash_bundle : BundleBody.t :=
  BundleBody.mk (Some (lit "lodash")) (Some (lit "4.17.21"))
    (Some 71124) (Some 24542) (Some 0).

Definition empty_range : RangeBody.t :=
  RangeBody.mk None (lit "2025-01-01") (lit "2025-01-31") None.

(** A document whose name is a lone surrogate. *)
Definition unpaired_doc : PackageDoc.t :=
  PackageDoc.mk Sample.lone_surrogate None None None None None None None.

End Case.

(** * Properties *)

(** ** Prefixes and suffixes *)

Section StripFacts.

Lemma strip_prefix_Some p s r :
  strip_prefix p s = Some r <-> s = p ++ r.
Proof.
  revert s; induction p as [|c p IH]; intros s; simpl.
  - split; congruence.
  - destruct s as [|d s]; [split; discriminate|].
    destruct (N.eqb_spec c d) as [->|Hne].
    + rewrite IH. split; congruence.
    + split; [discriminate | congruence].
Qed.

Lemma strip_prefix_app p r : strip_prefix p (p ++ r) = Some r.
Proof. now apply strip_prefix_Some. Qed.

Lemma strip_suffix_Some p s r :
  strip_suffix p s = Some r <-> s = r ++ p.
Proof.
  unfold strip_suffix.
  destruct (strip_prefix (rev p) (rev s)) as [r'|] eqn:E.
  - apply strip_prefix_Some in E.
    assert (Hs : s = rev r' ++ p).
    { rewrite <- (rev_involutive s), E, rev_app_distr, rev_involutive.
      reflexivity. }
    split.
    + intros [= <-]. exact Hs.
    + intros ->. apply app_inv_tail in Hs. now subst.
  - split; [discriminate|].
    intros ->. rewrite rev_app_distr, strip_prefix_app in E. discriminate.
Qed.

Lemma strip_suffix_app p r : strip_suffix p (r ++ p) = Some r.
Proof. now apply strip_suffix_Some. Qed.

Lemma strip_prefix_None p s :
  strip_prefix p s = None <-> forall r, s <> p ++ r.
Proof.
  split.
  - intros E r ->. rewrite strip_prefix_app in E. discriminate.
  - intros H. destruct (strip_prefix p s) as [r|] eqn:E; [|reflexivity].
    apply strip_prefix_Some in E. now destruct (H r).
Qed.

Lemma strip_suffix_None p s :
  strip_suffix p s = None <-> forall r, s <> r ++ p.
Proof.
  split.
  - intros E r ->. rewrite strip_suffix_app in E. discriminate.
  - intros H. destruct (strip_suffix p s) as [r|] eqn:E; [|reflexivity].
    apply strip_suffix_Some in E. now destruct (H r).
Qed.

Lemma startsWith_false p s : startsWith p s = false <-> strip_prefix p s = None.
Proof. unfold startsWith. destruct (strip_prefix p s); split; congruence. Qed.

Lemma endsWith_false p s : endsWith p s = false <-> strip_suffix p s = None.
Proof. unfold endsWith. destruct (strip_suffix p s); split; congruence. Qed.

(** A replacement at either end leaves the input, or the input less
    the pattern. *)
Lemma replace_start_cases p s :
  (strip_prefix p s = None /\ replace_start p s = s) \/
  s = p ++ replace_start p s.
Proof.
  unfold replace_start. destruct (strip_prefix p s) as [r|] eqn:E; [right|left; auto].
  now apply strip_prefix_Some.
Qed.

Lemma replace_end_cases p s :
  (strip_suffix p s = None /\ replace_end p s = s) \/
  s = replace_end p s ++ p.
Proof.
  unfold replace_end. destruct (strip_suffix p s) as [r|] eqn:E; [right|left; auto].
  now apply strip_suffix_Some.
Qed.

(** Stripping a prefix and then a suffix once more changes nothing,
    unless the input carried the prefix or the suffix twice. *)
Lemma replace_twice p q s :
  strip_prefix (p ++ p) s = None ->
  strip_suffix (q ++ q) s = None ->
  replace_end q (replace_start p (replace_end q (replace_start p s)))
  = replace_end q (replace_start p s).
Proof.
  intros Hp Hq.
  rewrite strip_prefix_None in Hp. rewrite strip_suffix_None in Hq.
  pose proof (replace_start_cases p s) as Cs.
  remember (replace_start p s) as t eqn:Et.
  pose proof (replace_end_cases q t) as Ct.
  remember (replace_end q t) as u eqn:Eu.
  assert (Hpre : strip_prefix p u = None).
  { apply strip_prefix_None. intros r Hu.
    assert (Ht : exists r', t = p ++ r').
    { destruct Ct as [[_ E]|E].
      - exists r. congruence.
      - exists (r ++ q). rewrite E, Hu. now rewrite <- app_assoc. }
    destruct Ht as [r' Ht].
    destruct Cs as [[E Es]|E].
    - rewrite strip_prefix_None in E. apply (E r'). congruence.
    - apply (Hp r'). rewrite E, Ht. now rewrite <- app_assoc. }
  unfold replace_start at 1. rewrite Hpre.
  assert (Hsuf : strip_suffix q u = None).
  { apply strip_suffix_None. intros r Hu.
    destruct Ct as [[E Et']|E].
    - rewrite strip_suffix_None in E. apply (E r). congruence.
    - destruct Cs as [[_ Es]|Es].
      + apply (Hq r). rewrite <- Es, E, Hu. now rewrite <- app_assoc.
      + apply (Hq (p ++ r)). rewrite Es, E, Hu. now rewrite <- !app_assoc. }
  unfold replace_end at 1. now rewrite Hsuf.
Qed.

End StripFacts.

(** ** The repository string *)

(** C2, as stated, fails: a URL that ends in [.git] twice loses one
    [.git] at each application, so the second application still changes
    the string. *)
Lemma normalizeRepository_not_idempotent :
  normalizeRepository (normalizeRepository Sample.twice_git)
  <> normalizeRepository Sample.twice_git.
Proof. vm_compute. discriminate. Qed.

(** C2, amended: on every string that neither begins with [git+git+]
    nor ends with [.git.git], normalising the repository twice gives
    what normalising it once gives. *)
Theorem normalizeRepository_idempotent (s : str) :
  startsWith (lit "git+git+") s = false ->
  endsWith (lit ".git.git") s = false ->
  normalizeRepository (normalizeRepository s) = normalizeRepository s.
Proof.
  intros Hp Hq. unfold normalizeRepository.
  apply (replace_twice (lit "git+") (lit ".git") s).
  - now apply startsWith_false in Hp.
  - now apply endsWith_false in Hq.
Qed.

Lemma normalizeRepository_idempotent_witness :
  normalizeRepository Sample.express_repo = lit "https://github.com/expressjs/express"
  /\ normalizeRepository (normalizeRepository Sample.express_repo)
     = normalizeRepository Sample.express_repo.
Proof.
  split; [reflexivity|].
  apply (normalizeRepository_idempotent Sample.express_repo); reflexivity.
Defined.

(** The two conditions cannot be dropped: a string that begins with
    [git+git+] or ends with [.git.git] keeps a prefix or a suffix after
    one application, and a second application removes it. *)
Lemma normalizeRepository_shrinks (u : str) :
  startsWith (lit "git+") u = true \/ endsWith (lit ".git") u = true ->
  (length (normalizeRepository u) < length u)%nat.
Proof.
  intros H. unfold normalizeRepository.
  pose proof (replace_start_cases (lit "git+") u) as Cs.
  remember (replace_start (lit "git+") u) as t eqn:Et.
  pose proof (replace_end_cases (lit ".git") t) as Ct.
  remember (replace_end (lit ".git") t) as v eqn:Ev.
  assert (Hvt : (length v <= length t)%nat).
  { destruct Ct as [[_ ->]| ->]; [lia|]. rewrite length_app. lia. }
  destruct Cs as [[E ->]|E].
  - destruct H as [H|H].
    + unfold startsWith in H. rewrite E in H. discriminate.
    + destruct Ct as [[E' _]| ->].
      * unfold endsWith in H. rewrite E' in H. discriminate.
      * rewrite length_app. simpl. lia.
  - assert (El : length u = length (lit "git+" ++ t)) by (f_equal; exact E).
    rewrite length_app in El. simpl in El. lia.
Qed.

Lemma normalizeRepository_keeps_prefix (r : str) :
  startsWith (lit "git+") (normalizeRepository (lit "git+git+" ++ r)) = true.
Proof.
  unfold normalizeRepository.
  change (lit "git+git+" ++ r) with (lit "git+" ++ (lit "git+" ++ r)).
  unfold replace_start at 1. rewrite strip_prefix_app.
  destruct (replace_end_cases (lit ".git") (lit "git+" ++ r)) as [[_ ->]|E].
  - unfold startsWith. now rewrite strip_prefix_app.
  - remember (replace_end (lit ".git") (lit "git+" ++ r)) as u eqn:Eu. clear Eu.
    destruct u as [|u1 [|u2 [|u3 [|u4 u]]]]; try discriminate E.
    injection E as <- <- <- <- _. reflexivity.
Qed.

Lemma normalizeRepository_keeps_suffix (x : str) :
  endsWith (lit ".git") (normalizeRepository (x ++ lit ".git.git")) = true.
Proof.
  unfold normalizeRepository.
  assert (Ht : exists y, replace_start (lit "git+") (x ++ lit ".git.git")
                         = (y ++ lit ".git") ++ lit ".git").
  { destruct (replace_start_cases (lit "git+") (x ++ lit ".git.git")) as [[_ ->]|E].
    - exists x. now rewrite <- app_assoc.
    - remember (replace_start (lit "git+") (x ++ lit ".git.git")) as t eqn:Et. clear Et.
      destruct x as [|x1 [|x2 [|x3 [|x4 x]]]]; try discriminate E.
      injection E as _ _ _ _ E. exists x. subst t. now rewrite <- app_assoc. }
  destruct Ht as [y ->].
  unfold replace_end. rewrite strip_suffix_app.
  unfold endsWith. now rewrite strip_suffix_app.
Qed.

Lemma normalizeRepository_twice_iff (s : str) :
  normalizeRepository (normalizeRepository s) = normalizeRepository s
  <-> startsWith (lit "git+git+") s = false /\ endsWith (lit ".git.git") s = false.
Proof.
  split.
  - intros H.
    assert (Hn : ~ (length (normalizeRepository (normalizeRepository s))
                    < length (normalizeRepository s))%nat) by (rewrite H; lia).
    split.
    + destruct (startsWith (lit "git+git+") s) eqn:E; [|reflexivity].
      unfold startsWith in E.
      destruct (strip_prefix (lit "git+git+") s) as [r|] eqn:E'; [|discriminate].
      apply strip_prefix_Some in E'. subst s.
      destruct Hn. apply normalizeRepository_shrinks. left.
      apply normalizeRepository_keeps_prefix.
    + destruct (endsWith (lit ".git.git") s) eqn:E; [|reflexivity].
      unfold endsWith in E.
      destruct (strip_suffix (lit ".git.git") s) as [r|] eqn:E'; [|discriminate].
      apply strip_suffix_Some in E'. subst s.
      destruct Hn. apply normalizeRepository_shrinks. right.
      apply normalizeRepository_keeps_suffix.
  - intros [Hp Hq]. unfold normalizeRepository.
    apply (replace_twice (lit "git+") (lit ".git") s).
    + now apply startsWith_false in Hp.
    + now apply endsWith_false in Hq.
Qed.

(** ** Requests and their failure *)

Section AsyncFacts.

Context {T : Type} (fetch : str -> Promise (Response T)).

Lemma fetchJson_ok url log r :
  fetch url = Fulfilled r -> ok r = true ->
  fetchJson fetch url log = (Fulfilled (json r), log ++ [url]).
Proof. intros Hr H. unfold fetchJson, bind, request. now rewrite Hr, H. Qed.

Lemma fetchJson_not_ok url log r :
  fetch url = Fulfilled r -> ok r = false ->
  fetchJson fetch url log
  = (Rejected (lit "API error (" ++ toString (status r) ++ lit "): " ++ text r),
     log ++ [url]).
Proof. intros Hr H. unfold fetchJson, bind, request. now rewrite Hr, H. Qed.

(** The network fails, or never answers: so does [fetchJson]. *)
Lemma fetchJson_rejected url log message :
  fetch url = Rejected message ->
  fetchJson fetch url log = (Rejected message, log ++ [url]).
Proof. intros Hr. unfold fetchJson, bind, request. now rewrite Hr. Qed.

Lemma fetchJson_pending url log :
  fetch url = Pending ->
  fetchJson fetch url log = (Pending, log ++ [url]).
Proof. intros Hr. unfold fetchJson, bind, request. now rewrite Hr. Qed.

Lemma api_error_reports (r : Response T) :
  reports (lit "API error (" ++ toString (status r) ++ lit "): " ++ text r) r.
Proof.
  split.
  - exists (lit "API error ("), (lit "): " ++ text r). reflexivity.
  - exists (lit "API error (" ++ toString (status r) ++ lit "): "), [].
    now rewrite app_nil_r, <- !app_assoc.
Qed.

Lemma reports_prepend (x message : str) (r : Response T) :
  reports message r -> reports (x ++ message) r.
Proof.
  intros [[p1 [q1 E1]] [p2 [q2 E2]]]. split.
  - exists (x ++ p1), q1. now rewrite E1 at 1; rewrite <- app_assoc.
  - exists (x ++ p2), q2. now rewrite E2 at 1; rewrite <- app_assoc.
Qed.

End AsyncFacts.

Ltac unfold_async :=
  unfold run, requests, try_catch, fetchJson, encodeURIComponent in *;
  unfold bind, request, throw, ret in *.

(** Each of these operations makes one request, once the text that
    goes into its URL is encoded, and none when the encoding throws. *)
Ltac single_request :=
  unfold_async; cbn beta iota zeta;
  repeat (match goal with
          | |- context [if well_formed ?s then _ else _] => destruct (well_formed s)
          | |- context [?fetch ?url] =>
              lazymatch type of (fetch url) with
              | Promise (Response _) => destruct (fetch url) as [|[[] ? ? ?]|?]
              end
          end; cbn beta iota zeta; cbn [negb ok]);
  reflexivity.

Lemma searchPackages_requests enc fetch query size :
  requests (searchPackages enc fetch query size)
  = if well_formed query
    then [REGISTRY ++ lit "/-/v1/search?text=" ++ enc query ++ lit "&size="
                   ++ toString size]
    else [].
Proof. unfold searchPackages. single_request. Qed.

Lemma getPackageInfo_requests enc fetch name :
  requests (getPackageInfo enc fetch name)
  = if well_formed name then [REGISTRY ++ lit "/" ++ enc name] else [].
Proof. unfold getPackageInfo. single_request. Qed.

Lemma getVulnerabilities_requests enc fetch name :
  requests (getVulnerabilities enc fetch name)
  = if well_formed name then [REGISTRY ++ lit "/" ++ enc name] else [].
Proof. unfold getVulnerabilities, getPackageInfo. single_request. Qed.

Lemma getDependencyTree_requests enc fetch name :
  requests (getDependencyTree enc fetch name)
  = if well_formed name then [REGISTRY ++ lit "/" ++ enc name] else [].
Proof. unfold getDependencyTree, getPackageInfo. single_request. Qed.

Lemma getDownloads_requests enc fetch name period :
  requests (getDownloads enc fetch name period)
  = if well_formed name
    then [API ++ lit "/downloads/point/" ++ period ++ lit "/" ++ enc name]
    else [].
Proof. unfold getDownloads. single_request. Qed.

Lemma getBundleSize_requests enc fetch name :
  requests (getBundleSize enc fetch name)
  = if well_formed (pkgSpec name)
    then [BUNDLEPHOBIA ++ lit "?package=" ++ enc (pkgSpec name)]
    else [].
Proof. unfold getBundleSize. single_request. Qed.

Lemma getDownloadTrends_requests enc loc fetch name period :
  requests (getDownloadTrends enc loc fetch name period)
  = if well_formed name
    then [API ++ lit "/downloads/range/" ++ period ++ lit "/" ++ enc name]
    else [].
Proof. unfold getDownloadTrends. single_request. Qed.

(** A response that is not [ok] makes the operation that asked for it
    fail with the message of [fetchJson]. *)
Ltac not_ok_fails lemma :=
  unfold fails_reporting;
  rewrite lemma;
  let Hwf := fresh "Hwf" in
  match goal with
  | |- context [well_formed ?s] => destruct (well_formed s) eqn:Hwf; [|intros []]
  end;
  intros [<-|[]] Hr Hok;
  eexists; split;
  [ unfold getVulnerabilities, getDependencyTree, searchPackages, getPackageInfo,
      getDownloads, getBundleSize, getDownloadTrends;
    unfold_async; cbn beta iota zeta; rewrite Hwf; cbn beta iota zeta;
    rewrite Hr; cbn beta iota zeta;
    rewrite Hok; reflexivity
  | first [ apply api_error_reports
          | apply reports_prepend; apply api_error_reports ] ].

Lemma searchPackages_not_ok enc fetch query size url r :
  In url (requests (searchPackages enc fetch query size)) ->
  fetch url = Fulfilled r -> ok r = false ->
  fails_reporting (searchPackages enc fetch query size) r.
Proof. not_ok_fails searchPackages_requests. Qed.

Lemma getPackageInfo_not_ok enc fetch name url r :
  In url (requests (getPackageInfo enc fetch name)) ->
  fetch url = Fulfilled r -> ok r = false ->
  fails_reporting (getPackageInfo enc fetch name) r.
Proof. not_ok_fails getPackageInfo_requests. Qed.

Lemma getVulnerabilities_not_ok enc fetch name url r :
  In url (requests (getVulnerabilities enc fetch name)) ->
  fetch url = Fulfilled r -> ok r = false ->
  fails_reporting (getVulnerabilities enc fetch name) r.
Proof. not_ok_fails getVulnerabilities_requests. Qed.

Lemma getDependencyTree_not_ok enc fetch name url r :
  In url (requests (getDependencyTree enc fetch name)) ->
  fetch url = Fulfilled r -> ok r = false ->
  fails_reporting (getDependencyTree enc fetch name) r.
Proof. not_ok_fails getDependencyTree_requests. Qed.

Lemma getDownloads_not_ok enc fetch name period url r :
  In url (requests (getDownloads enc fetch name period)) ->
  fetch url = Fulfilled r -> ok r = false ->
  fails_reporting (getDownloads enc fetch name period) r.
Proof. not_ok_fails getDownloads_requests. Qed.

Lemma getBundleSize_not_ok enc fetch name url r :
  In url (requests (getBundleSize enc fetch name)) ->
  fetch url = Fulfilled r -> ok r = false ->
  fails_reporting (getBundleSize enc fetch name) r.
Proof. not_ok_fails getBundleSize_requests. Qed.

Lemma getDownloadTrends_not_ok enc loc fetch name period url r :
  In url (requests (getDownloadTrends enc loc fetch name period)) ->
  fetch url = Fulfilled r -> ok r = false ->
  fails_reporting (getDownloadTrends enc loc fetch name period) r.
Proof. not_ok_fails getDownloadTrends_requests. Qed.

(** ** Search *)

Lemma searchPackages_ok enc fetch query size r :
  well_formed query = true ->
  fetch (REGISTRY ++ lit "/-/v1/search?text=" ++ enc query ++ lit "&size=" ++ toString size)
  = Fulfilled r ->
  ok r = true ->
  exists results,
    run (searchPackages enc fetch query size) = Fulfilled results
    /\ length results = length (SearchBody.objects (json r)).
Proof.
  intros Hwf Hr Hok. unfold searchPackages. unfold_async. rewrite Hwf.
  cbn beta iota zeta. rewrite Hr. cbn beta iota zeta. rewrite Hok.
  eexists. split; [reflexivity|]. now rewrite length_map.
Qed.

(** C1: every [SearchResult] that [searchPackages] returns has
    [downloads] equal to 0, whatever the response holds. *)
Theorem searchPackages_downloads_zero enc fetch query size results :
  run (searchPackages enc fetch query size) = Fulfilled results ->
  Forall (fun r => SearchResult.downloads r = 0) results.
Proof.
  unfold searchPackages. unfold_async.
  destruct (well_formed query); [|discriminate]. cbn beta iota zeta.
  destruct (fetch _) as [|r|e]; try discriminate. cbn beta iota zeta.
  destruct (ok r); [|discriminate]. cbn. intros [= <-].
  induction (SearchBody.objects _) as [|obj objs IH]; constructor; [reflexivity|exact IH].
Qed.

Lemma searchPackages_downloads_zero_witness :
  run (searchPackages Sample.percent_encode (Sample.always (Sample.found Sample.lodash_search))
         (lit "lodash") 5)
  = Fulfilled Sample.lodash_results
  /\ Forall (fun r => SearchResult.downloads r = 0) Sample.lodash_results.
Proof.
  split; [reflexivity|].
  apply (searchPackages_downloads_zero Sample.percent_encode
           (Sample.always (Sample.found Sample.lodash_search)) (lit "lodash") 5).
  reflexivity.
Defined.

(** ** Upstream errors *)

(** C9: a response that is not [ok] makes [fetchJson], and with it the
    operation that sent the request, fail with an error whose message
    contains the status code in decimal and the text of the body. *)
Theorem upstream_error (enc : str -> str) (loc : Z -> str) :
  (forall T (fetch : str -> Promise (Response T)) url r,
      fetch url = Fulfilled r -> ok r = false ->
      fails_reporting (fetchJson fetch url) r)
  /\ (forall fetch query size url r,
         In url (requests (searchPackages enc fetch query size)) ->
         fetch url = Fulfilled r -> ok r = false ->
         fails_reporting (searchPackages enc fetch query size) r)
  /\ (forall fetch name url r,
         In url (requests (getPackageInfo enc fetch name)) ->
         fetch url = Fulfilled r -> ok r = false ->
         fails_reporting (getPackageInfo enc fetch name) r)
  /\ (forall fetch name period url r,
         In url (requests (getDownloads enc fetch name period)) ->
         fetch url = Fulfilled r -> ok r = false ->
         fails_reporting (getDownloads enc fetch name period) r)
  /\ (forall fetch name url r,
         In url (requests (getBundleSize enc fetch name)) ->
         fetch url = Fulfilled r -> ok r = false ->
         fails_reporting (getBundleSize enc fetch name) r)
  /\ (forall fetch name period url r,
         In url (requests (getDownloadTrends enc loc fetch name period)) ->
         fetch url = Fulfilled r -> ok r = false ->
         fails_reporting (getDownloadTrends enc loc fetch name period) r)
  /\ (forall fetch name url r,
         In url (requests (getDependencyTree enc fetch name)) ->
         fetch url = Fulfilled r -> ok r = false ->
         fails_reporting (getDependencyTree enc fetch name) r)
  /\ (forall fetch name url r,
         In url (requests (getVulnerabilities enc fetch name)) ->
         fetch url = Fulfilled r -> ok r = false ->
         fails_reporting (getVulnerabilities enc fetch name) r).
Proof.
  split.
  { intros T fetch url r Hr H. eexists. split.
    - unfold_async. now rewrite Hr, H.
    - apply api_error_reports. }
  repeat match goal with |- _ /\ _ => split end; intros.
  - now apply (searchPackages_not_ok _ _ _ _ url).
  - now apply (getPackageInfo_not_ok _ _ _ url).
  - now apply (getDownloads_not_ok _ _ _ _ url).
  - now apply (getBundleSize_not_ok _ _ _ url).
  - now apply (getDownloadTrends_not_ok _ _ _ _ _ url).
  - now apply (getDependencyTree_not_ok _ _ _ url).
  - now apply (getVulnerabilities_not_ok _ _ _ url).
Qed.

Lemma upstream_error_witness :
  toString 404 = lit "404"
  /\ run (searchPackages Sample.percent_encode
            (Sample.always (Sample.not_found (SearchBody.mk []))) (lit "nonexistent") 10)
     = Rejected (lit "API error (404): Not found")
  /\ fails_reporting
       (searchPackages Sample.percent_encode
          (Sample.always (Sample.not_found (SearchBody.mk []))) (lit "nonexistent") 10)
       (Sample.not_found (SearchBody.mk [])).
Proof.
  split; [reflexivity|]. split; [reflexivity|].
  apply (proj1 (proj2 (upstream_error Sample.percent_encode toString))
           (Sample.always (Sample.not_found (SearchBody.mk []))) (lit "nonexistent") 10
           (REGISTRY ++ lit "/-/v1/search?text=nonexistent&size=10")).
  - left. reflexivity.
  - reflexivity.
  - reflexivity.
Defined.

(** ** Bundle size *)

Section WellFormed.

(** Text without surrogates is well formed. *)
Lemma well_formed_plain (s : str) :
  Forall (fun c => high_surrogate c = false /\ low_surrogate c = false) s ->
  well_formed s = true.
Proof.
  induction 1 as [|c s [Hh Hl] _ IH]; [reflexivity|].
  cbn [well_formed]. now rewrite Hh, Hl, IH.
Qed.

Lemma well_formed_app_plain (a b : str) :
  Forall (fun c => high_surrogate c = false /\ low_surrogate c = false) b ->
  well_formed (a ++ b) = well_formed a.
Proof.
  intros Hb.
  assert (H : forall n a, (length a <= n)%nat -> well_formed (a ++ b) = well_formed a).
  { clear a. induction n as [|n IH]; intros a Hn.
    - destruct a; [|simpl in Hn; lia]. simpl. now apply well_formed_plain.
    - destruct a as [|c a]; [simpl; now apply well_formed_plain|].
      cbn [well_formed app]. destruct (high_surrogate c).
      + destruct a as [|d a].
        * destruct b as [|d b]; [reflexivity|]. cbn [app].
          apply Forall_cons_1 in Hb as [[_ Hl] _]. now rewrite Hl.
        * cbn [app]. rewrite IH; [reflexivity|]. simpl in Hn. lia.
      + rewrite IH; [reflexivity|]. simpl in Hn. lia. }
  now apply (H (length a)).
Qed.

End WellFormed.

(** The spec of a well-formed name is well formed. *)
Lemma well_formed_pkgSpec (name : str) :
  well_formed (pkgSpec name) = well_formed name.
Proof.
  unfold pkgSpec. destruct (includes 64%N name); [reflexivity|].
  apply well_formed_app_plain. vm_compute. repeat constructor.
Qed.

(** C8, as stated, fails.  The name of a scoped package has no [@]
    version separator and yet is sent as it is, without [@latest]; and
    for a name with a lone surrogate no package spec is sent at all. *)
Lemma getBundleSize_sent_unchanged :
  spec_version_separator Case.scoped = false
  /\ requests (getBundleSize Sample.percent_encode
                 (Sample.always (Sample.found Sample.empty_bundle)) Case.scoped)
     = [BUNDLEPHOBIA ++ lit "?package=" ++ Sample.percent_encode Case.scoped]
  /\ requests (getBundleSize Sample.percent_encode
                 (Sample.always (Sample.found Sample.empty_bundle)) Case.scoped)
     <> [BUNDLEPHOBIA ++ lit "?package="
                      ++ Sample.percent_encode (Case.scoped ++ lit "@latest")]
  /\ spec_version_separator Sample.lone_surrogate = false
  /\ requests (getBundleSize Sample.percent_encode
                 (Sample.always (Sample.found Sample.empty_bundle)) Sample.lone_surrogate)
     = []
  /\ run (getBundleSize Sample.percent_encode
            (Sample.always (Sample.found Sample.empty_bundle)) Sample.lone_surrogate)
     = Rejected URIError.
Proof.
  repeat match goal with |- _ /\ _ => split end; try reflexivity.
  vm_compute. discriminate.
Qed.

(** C8, amended: for every well-formed input, [getBundleSize] requests
    the input itself when the input contains the character [@]
    anywhere, be it a version separator or the mark of a scope, and the
    input followed by [@latest] otherwise; an input with a version
    separator contains an [@]; so [lodash] is requested as
    [lodash@latest] and [lodash@4.17.21] as it is. *)
Theorem getBundleSize_spec enc fetch name :
  (well_formed name = true -> includes 64%N name = true ->
   requests (getBundleSize enc fetch name)
   = [BUNDLEPHOBIA ++ lit "?package=" ++ enc name])
  /\ (well_formed name = true -> includes 64%N name = false ->
      requests (getBundleSize enc fetch name)
      = [BUNDLEPHOBIA ++ lit "?package=" ++ enc (name ++ lit "@latest")])
  /\ (spec_version_separator name = true -> includes 64%N name = true)
  /\ requests (getBundleSize enc fetch (lit "lodash"))
     = [BUNDLEPHOBIA ++ lit "?package=" ++ enc (lit "lodash@latest")]
  /\ requests (getBundleSize enc fetch (lit "lodash@4.17.21"))
     = [BUNDLEPHOBIA ++ lit "?package=" ++ enc (lit "lodash@4.17.21")].
Proof.
  rewrite !getBundleSize_requests, !well_formed_pkgSpec. unfold pkgSpec.
  repeat match goal with |- _ /\ _ => split end; try reflexivity.
  - now intros -> ->.
  - now intros -> ->.
  - destruct name as [|c name]; [discriminate|]. cbn [spec_version_separator].
    unfold includes. cbn [existsb]. intros ->. apply orb_true_r.
Qed.

Lemma getBundleSize_spec_witness :
  requests (getBundleSize Sample.percent_encode
              (Sample.always (Sample.found Sample.empty_bundle)) (lit "react"))
  = [lit "https://bundlephobia.com/api/size?package=react%40latest"]
  /\ requests (getBundleSize Sample.percent_encode
                 (Sample.always (Sample.found Sample.empty_bundle)) (lit "react@18.2.0"))
     = [lit "https://bundlephobia.com/api/size?package=react%4018.2.0"].
Proof.
  split.
  - apply (proj1 (proj2 (getBundleSize_spec Sample.percent_encode
                           (Sample.always (Sample.found Sample.empty_bundle)) (lit "react"))));
      reflexivity.
  - apply (proj1 (getBundleSize_spec Sample.percent_encode
                    (Sample.always (Sample.found Sample.empty_bundle)) (lit "react@18.2.0")));
      reflexivity.
Defined.

(** ** Package documents *)

Lemma getPackageInfo_ok enc fetch name r :
  well_formed name = true ->
  fetch (REGISTRY ++ lit "/" ++ enc name) = Fulfilled r ->
  ok r = true ->
  exists info, run (getPackageInfo enc fetch name) = Fulfilled info.
Proof.
  intros Hwf Hr Hok. unfold getPackageInfo. unfold_async. rewrite Hwf.
  cbn beta iota zeta. rewrite Hr. cbn beta iota zeta. rewrite Hok.
  eexists. reflexivity.
Qed.

(** C5, as stated, fails: a document without the dist-tag [latest] is
    looked up under the empty string, and an entry of [versions] under
    that key gives its dependencies to the result. *)
Lemma getPackageInfo_untagged_dependencies :
  latest_tag Sample.untagged_doc = None
  /\ exists info,
       run (getPackageInfo Sample.percent_encode
              (Sample.always (Sample.found Sample.untagged_doc)) (lit "orphan"))
       = Fulfilled info
       /\ PackageInfo.dependencies info <> [].
Proof.
  split; [reflexivity|].
  eexists. split; [reflexivity|]. vm_compute. discriminate.
Qed.

(** C5, amended: when [versions] has no entry under the version that
    is looked up (the dist-tag [latest], or the empty string when the
    document has no such tag), [getPackageInfo] returns a [PackageInfo]
    whose [dependencies] and [devDependencies] are empty, and raises no
    error.  The document is the answer to the request for the name, a
    name that [encodeURIComponent] accepts. *)
Theorem getPackageInfo_no_version_entry enc fetch name r :
  well_formed name = true ->
  fetch (REGISTRY ++ lit "/" ++ enc name) = Fulfilled r ->
  ok r = true ->
  version_entry (json r) (latest_tag (json r) ?? []) = None ->
  exists info,
    run (getPackageInfo enc fetch name) = Fulfilled info
    /\ PackageInfo.version info = latest_tag (json r) ?? []
    /\ PackageInfo.dependencies info = []
    /\ PackageInfo.devDependencies info = [].
Proof.
  intros Hwf Hr Hok Habsent.
  unfold getPackageInfo. unfold_async. rewrite Hwf. cbn beta iota zeta.
  rewrite Hr. cbn beta iota zeta. rewrite Hok.
  eexists. split; [reflexivity|]. cbn [PackageInfo.version PackageInfo.dependencies
                                        PackageInfo.devDependencies].
  unfold version_entry, latest_tag in Habsent. rewrite Habsent.
  repeat split.
Qed.

Lemma getPackageInfo_no_version_entry_witness :
  exists info,
    run (getPackageInfo Sample.percent_encode
           (Sample.always (Sample.found Sample.dangling_doc)) (lit "dangling"))
    = Fulfilled info
    /\ PackageInfo.version info = lit "2.0.0"
    /\ PackageInfo.dependencies info = []
    /\ PackageInfo.devDependencies info = [].
Proof.
  apply (getPackageInfo_no_version_entry Sample.percent_encode
           (Sample.always (Sample.found Sample.dangling_doc)) (lit "dangling")
           (Sample.found Sample.dangling_doc)); reflexivity.
Defined.

(** ** Double precision *)

Section DoubleFacts.

Import Double.

Lemma pow2_pos k : (0 < pow2 k)%Q.
Proof. apply Qpower_0_lt. reflexivity. Qed.

Lemma pow2_add a b : (pow2 (a + b) == pow2 a * pow2 b)%Q.
Proof. apply Qpower_plus. discriminate. Qed.

Lemma pow2_Z k : 0 <= k -> (pow2 k == inject_Z (2 ^ k))%Q.
Proof. intros H. symmetry. apply (Zpower_Qpower 2 k H). Qed.

Lemma pow2_le a b : a <= b -> (pow2 a <= pow2 b)%Q.
Proof. intros H. apply Qpower_le_compat_l; [exact H|]. discriminate. Qed.

Lemma pow2_lt a b : a < b -> (pow2 a < pow2 b)%Q.
Proof. intros H. apply Qpower_lt_compat_l; [exact H|]. reflexivity. Qed.

Lemma pow2_inv k : (pow2 k * pow2 (- k) == 1)%Q.
Proof. rewrite <- pow2_add. now replace (k + - k) with 0 by lia. Qed.

Lemma pow2_0 : (pow2 0 == 1)%Q.
Proof. reflexivity. Qed.

Lemma exponent_spec q :
  (0 < q)%Q -> (pow2 (exponent q) <= q /\ q < pow2 (exponent q + 1))%Q.
Proof.
  intros Hq. unfold exponent.
  destruct (Qle_bool 1 q) eqn:E.
  - apply Qle_bool_iff in E.
    assert (Hf : 1 <= Qfloor q).
    { change 1 with (Qfloor 1). now apply Qfloor_resp_le. }
    pose proof (Z.log2_spec (Qfloor q) ltac:(lia)) as [Hlo Hhi].
    pose proof (Z.log2_nonneg (Qfloor q)) as Hl.
    rewrite !pow2_Z by lia.
    pose proof (Qfloor_le q) as H1. pose proof (Qlt_floor q) as H2.
    rewrite Zle_Qle in Hlo.
    assert (Hhi' : Qfloor q + 1 <= 2 ^ (Z.log2 (Qfloor q) + 1)) by (unfold Z.succ in Hhi; lia).
    rewrite Zle_Qle in Hhi'.
    split; lra.
  - assert (Hlt : (q < 1)%Q).
    { apply Qnot_le_lt. intros H. apply Qle_bool_iff in H. congruence. }
    set (r := (/ q)%Q).
    assert (Hr : (q * r == 1)%Q) by (apply Qmult_inv_r; lra).
    assert (Hr1 : (1 < r)%Q) by nra.
    pose proof (Qle_ceiling r) as H1. pose proof (Qceiling_lt r) as H2.
    set (c := Qceiling r) in *.
    assert (Hc : 1 < c).
    { rewrite Zlt_Qlt. change (inject_Z 1) with 1%Q. lra. }
    pose proof (Z.log2_up_spec c Hc) as [Hlo Hhi].
    pose proof (Z.log2_up_pos c Hc) as Hu.
    set (u := Z.log2_up c) in *.
    assert (Hlo' : 2 ^ Z.pred u <= c - 1) by lia.
    rewrite Zle_Qle in Hlo', Hhi.
    rewrite <- !pow2_Z in * by (unfold Z.pred; lia).
    pose proof (pow2_inv u) as Hi. pose proof (pow2_pos u) as Hp.
    pose proof (pow2_pos (- u)) as Hn.
    pose proof (pow2_inv (Z.pred u)) as Hi'. pose proof (pow2_pos (Z.pred u)) as Hp'.
    replace (- u + 1) with (- Z.pred u) by (unfold Z.pred; lia).
    pose proof (pow2_pos (- Z.pred u)) as Hn'.
    split; nra.
Qed.

Lemma exponent_unique q e :
  (0 < q)%Q -> (pow2 e <= q)%Q -> (q < pow2 (e + 1))%Q -> exponent q = e.
Proof.
  intros Hq Hlo Hhi. destruct (exponent_spec q Hq) as [Hlo' Hhi'].
  destruct (Z.lt_trichotomy (exponent q) e) as [H|[H|H]]; [|exact H|].
  - pose proof (pow2_le (exponent q + 1) e ltac:(lia)). lra.
  - pose proof (pow2_le (e + 1) (exponent q) ltac:(lia)). lra.
Qed.

Lemma exponent_comp q q' : (q == q')%Q -> exponent q = exponent q'.
Proof.
  intros H. unfold exponent. rewrite (Qleb_comp 1%Q 1%Q (Qeq_refl 1%Q) q q' H).
  destruct (Qle_bool 1 q').
  - now rewrite (Qfloor_comp q q' H).
  - f_equal. f_equal. apply Qceiling_comp. now rewrite H.
Qed.

Lemma nearest_even_Z z : nearest_even (inject_Z z) = z.
Proof.
  unfold nearest_even. rewrite Qfloor_Z.
  replace (inject_Z z - inject_Z z ?= 1 # 2)%Q with Lt; [reflexivity|].
  symmetry. rewrite <- Qlt_alt. lra.
Qed.

Lemma nearest_even_bounds x :
  (inject_Z (nearest_even x) - (1 # 2) <= x /\ x <= inject_Z (nearest_even x) + (1 # 2))%Q.
Proof.
  unfold nearest_even.
  pose proof (Qfloor_le x) as H1. pose proof (Qlt_floor x) as H2.
  rewrite inject_Z_plus in H2. change (inject_Z 1) with 1%Q in H2.
  destruct (Qcompare_spec (x - inject_Z (Qfloor x)) (1 # 2)) as [E|E|E].
  - destruct (Z.even (Qfloor x)); [|rewrite inject_Z_plus; change (inject_Z 1) with 1%Q];
      split; lra.
  - split; lra.
  - rewrite inject_Z_plus. change (inject_Z 1) with 1%Q. split; lra.
Qed.

Lemma nearest_even_floor x :
  Qfloor x <= nearest_even x <= Qfloor x + 1.
Proof.
  unfold nearest_even.
  destruct (x - inject_Z (Qfloor x) ?= 1 # 2)%Q; [destruct (Z.even _)| |]; lia.
Qed.

Lemma nearest_even_mono x y : (x <= y)%Q -> nearest_even x <= nearest_even y.
Proof.
  intros H. pose proof (Qfloor_resp_le x y H) as Hf.
  destruct (Z.eq_dec (Qfloor x) (Qfloor y)) as [E|E].
  - unfold nearest_even. rewrite <- E.
    destruct (Qcompare_spec (x - inject_Z (Qfloor x)) (1 # 2)) as [Ex|Ex|Ex];
      destruct (Qcompare_spec (y - inject_Z (Qfloor x)) (1 # 2)) as [Ey|Ey|Ey];
      try (destruct (Z.even (Qfloor x))); try lia; lra.
  - pose proof (nearest_even_floor x). pose proof (nearest_even_floor y). lia.
Qed.

Lemma nearest_even_comp x y : (x == y)%Q -> nearest_even x = nearest_even y.
Proof.
  intros H. unfold nearest_even. rewrite (Qfloor_comp x y H).
  assert (E : (x - inject_Z (Qfloor y) == y - inject_Z (Qfloor y))%Q) by now rewrite H.
  now rewrite (Qcompare_comp _ _ E (1 # 2)%Q (1 # 2)%Q (Qeq_refl _)).
Qed.

(** The scaled value of a positive number lies in [2^52, 2^53). *)
Lemma scaled_bounds q :
  (0 < q)%Q ->
  (pow2 52 <= q * pow2 (precision - 1 - exponent q)
   /\ q * pow2 (precision - 1 - exponent q) < pow2 53)%Q.
Proof.
  intros Hq. destruct (exponent_spec q Hq) as [Hlo Hhi].
  set (e := exponent q) in *. unfold precision.
  pose proof (pow2_pos (53 - 1 - e)) as Hs.
  pose proof (pow2_add e (53 - 1 - e)) as E1.
  pose proof (pow2_add (e + 1) (53 - 1 - e)) as E2.
  replace (e + (53 - 1 - e)) with 52 in E1 by lia.
  replace (e + 1 + (53 - 1 - e)) with 53 in E2 by lia.
  split; nra.
Qed.

Lemma mantissa_bounds q :
  (0 < q)%Q ->
  2 ^ 52 <= nearest_even (q * pow2 (precision - 1 - exponent q)) <= 2 ^ 53.
Proof.
  intros Hq. destruct (scaled_bounds q Hq) as [Hlo Hhi].
  pose proof (pow2_Z 52 ltac:(lia)) as E52. pose proof (pow2_Z 53 ltac:(lia)) as E53.
  assert (Hlo' : (inject_Z (2 ^ 52) <= q * pow2 (precision - 1 - exponent q))%Q) by lra.
  assert (Hhi' : (q * pow2 (precision - 1 - exponent q) <= inject_Z (2 ^ 53))%Q) by lra.
  clear Hlo Hhi. rename Hlo' into Hlo. rename Hhi' into Hhi.
  apply nearest_even_mono in Hlo. apply nearest_even_mono in Hhi.
  rewrite nearest_even_Z in Hlo, Hhi. lia.
Qed.

Lemma round_positive_bounds q :
  (0 < q)%Q ->
  (pow2 (exponent q) <= round_positive q /\ round_positive q <= pow2 (exponent q + 1))%Q.
Proof.
  intros Hq. pose proof (mantissa_bounds q Hq) as [Hlo Hhi].
  unfold round_positive.
  set (m := nearest_even _) in *. set (e := exponent q) in *. unfold precision.
  rewrite Zle_Qle in Hlo, Hhi.
  pose proof (pow2_Z 52 ltac:(lia)) as E52. pose proof (pow2_Z 53 ltac:(lia)) as E53.
  pose proof (pow2_pos (- (53 - 1 - e))) as Hs.
  pose proof (pow2_add 52 (- (53 - 1 - e))) as E1.
  pose proof (pow2_add 53 (- (53 - 1 - e))) as E2.
  replace (52 + - (53 - 1 - e)) with e in E1 by lia.
  replace (53 + - (53 - 1 - e)) with (e + 1) in E2 by lia.
  split; nra.
Qed.

Lemma round_positive_comp q q' : (q == q')%Q -> round_positive q = round_positive q'.
Proof.
  intros H. unfold round_positive. rewrite (exponent_comp q q' H).
  f_equal. f_equal. apply nearest_even_comp. now rewrite H.
Qed.

Lemma round_comp q q' : (q == q')%Q -> round q = round q'.
Proof.
  intros H. unfold round. f_equal.
  rewrite (Qcompare_comp q q' H 0%Q 0%Q (Qeq_refl _)).
  destruct (q' ?= 0)%Q; [reflexivity| |].
  - f_equal. apply round_positive_comp. now rewrite H.
  - now apply round_positive_comp.
Qed.

Lemma round_positive_mono q1 q2 :
  (0 < q1)%Q -> (q1 <= q2)%Q -> (round_positive q1 <= round_positive q2)%Q.
Proof.
  intros H1 H12. assert (H2 : (0 < q2)%Q) by lra.
  destruct (exponent_spec q1 H1) as [L1 U1]. destruct (exponent_spec q2 H2) as [L2 U2].
  destruct (Z.lt_trichotomy (exponent q1) (exponent q2)) as [H|[H|H]].
  - pose proof (round_positive_bounds q1 H1) as [_ B1].
    pose proof (round_positive_bounds q2 H2) as [B2 _].
    pose proof (pow2_le (exponent q1 + 1) (exponent q2) ltac:(lia)). lra.
  - unfold round_positive. rewrite H.
    set (s := precision - 1 - exponent q2).
    pose proof (pow2_pos s) as Hs. pose proof (pow2_pos (- s)) as Hs'.
    assert (Hm : nearest_even (q1 * pow2 s) <= nearest_even (q2 * pow2 s)).
    { apply nearest_even_mono. nra. }
    rewrite Zle_Qle in Hm. nra.
  - pose proof (pow2_le (exponent q2 + 1) (exponent q1) ltac:(lia)). lra.
Qed.

Lemma round_positive_pos q : (0 < q)%Q -> (0 < round_positive q)%Q.
Proof.
  intros H. pose proof (round_positive_bounds q H) as [B _].
  pose proof (pow2_pos (exponent q)). lra.
Qed.


Lemma round_pos q : (0 < q)%Q -> (round q == round_positive q)%Q.
Proof.
  intros H. unfold round. rewrite Qred_correct.
  destruct (Qcompare_spec q 0); [lra|lra|reflexivity].
Qed.

Lemma round_neg q : (q < 0)%Q -> (round q == - round_positive (- q))%Q.
Proof.
  intros H. unfold round. rewrite Qred_correct.
  destruct (Qcompare_spec q 0); [lra|reflexivity|lra].
Qed.

Lemma round_zero q : (q == 0)%Q -> (round q == 0)%Q.
Proof.
  intros H. unfold round. rewrite Qred_correct.
  destruct (Qcompare_spec q 0); [reflexivity|lra|lra].
Qed.

Lemma round_mono q1 q2 : (q1 <= q2)%Q -> (round q1 <= round q2)%Q.
Proof.
  intros H.
  destruct (Qcompare_spec q1 0) as [E1|E1|E1]; destruct (Qcompare_spec q2 0) as [E2|E2|E2];
    try lra.
  - rewrite (round_zero q1 E1), (round_zero q2 E2). lra.
  - rewrite (round_zero q1 E1), (round_pos q2 E2).
    pose proof (round_positive_pos q2 E2). lra.
  - rewrite (round_neg q1 E1), (round_zero q2 E2).
    pose proof (round_positive_pos (- q1) ltac:(lra)). lra.
  - rewrite (round_neg q1 E1), (round_neg q2 E2).
    pose proof (round_positive_mono (- q2) (- q1) ltac:(lra) ltac:(lra)). lra.
  - rewrite (round_neg q1 E1), (round_pos q2 E2).
    pose proof (round_positive_pos (- q1) ltac:(lra)).
    pose proof (round_positive_pos q2 E2). lra.
  - rewrite (round_pos q1 E1), (round_pos q2 E2).
    now apply round_positive_mono.
Qed.

Lemma round_opp q : (round (- q) == - round q)%Q.
Proof.
  destruct (Qcompare_spec q 0) as [E|E|E].
  - rewrite (round_zero q E), (round_zero (- q)) by lra. reflexivity.
  - rewrite (round_neg q E), (round_pos (- q)) by lra. lra.
  - rewrite (round_pos q E), (round_neg (- q)) by lra.
    rewrite (round_positive_comp (- - q) q) by lra. reflexivity.
Qed.

Lemma round_sign q :
  ((0 < q -> 0 < round q) /\ (q < 0 -> round q < 0))%Q.
Proof.
  split; intros H.
  - rewrite (round_pos q H). now apply round_positive_pos.
  - rewrite (round_neg q H). pose proof (round_positive_pos (- q) ltac:(lra)). lra.
Qed.

(** A positive number whose scaled value is an integer is a double. *)
Lemma round_positive_fixed q k :
  (0 < q)%Q -> (q * pow2 (precision - 1 - exponent q) == inject_Z k)%Q ->
  (round_positive q == q)%Q.
Proof.
  intros Hq Hk. unfold round_positive.
  rewrite (nearest_even_comp _ _ Hk), nearest_even_Z, <- Hk.
  pose proof (pow2_inv (precision - 1 - exponent q)) as Hi.
  rewrite <- Qmult_assoc, Hi. lra.
Qed.

(** The relative error of rounding is at most 2^-53. *)
Lemma round_positive_error q :
  (0 < q)%Q ->
  (Qabs (round_positive q - q) <= q * pow2 (- 53))%Q.
Proof.
  intros Hq. destruct (exponent_spec q Hq) as [Hlo _].
  unfold round_positive. set (e := exponent q) in *.
  set (s := precision - 1 - e).
  pose proof (nearest_even_bounds (q * pow2 s)) as [B1 B2].
  set (m := inject_Z (nearest_even (q * pow2 s))) in *.
  pose proof (pow2_inv s) as Hi. pose proof (pow2_pos s) as Hs.
  pose proof (pow2_pos (- s)) as Hs'.
  pose proof (pow2_add e (- 53)) as E1.
  pose proof (pow2_add (- s) (- 1)) as E2.
  replace (- s + - 1) with (e + - 53) in E2 by (unfold s, precision; lia).
  change (pow2 (- 1)) with (1 # 2)%Q in E2.
  pose proof (pow2_pos (- 53)) as H53.
  apply Qabs_Qle_condition. split; nra.
Qed.

Lemma round_error q : (Qabs (round q - q) <= Qabs q * pow2 (- 53))%Q.
Proof.
  destruct (Qcompare_spec q 0) as [E|E|E].
  - rewrite (round_zero q E). rewrite E. vm_compute. discriminate.
  - rewrite (round_neg q E). rewrite (Qabs_neg q) by lra.
    pose proof (round_positive_error (- q) ltac:(lra)) as H.
    apply Qabs_Qle_condition in H. apply Qabs_Qle_condition. lra.
  - rewrite (round_pos q E). rewrite (Qabs_pos q) by lra.
    now apply round_positive_error.
Qed.

Lemma inject_Z_pos m : 0 < m -> (0 < inject_Z m)%Q.
Proof. intros H. unfold Qlt. simpl. lia. Qed.

Lemma log2_exponent m k :
  0 < m -> exponent (inject_Z m * pow2 k) = Z.log2 m + k.
Proof.
  intros Hm. pose proof (Z.log2_spec m Hm) as [Hlo Hhi].
  pose proof (Z.log2_nonneg m) as Hl.
  pose proof (pow2_pos k) as Hk.
  assert (Hhi' : m + 1 <= 2 ^ (Z.log2 m + 1)) by (unfold Z.succ in Hhi; lia).
  rewrite Zle_Qle in Hlo, Hhi'. rewrite inject_Z_plus in Hhi'.
  change (inject_Z 1) with 1%Q in Hhi'.
  pose proof (pow2_Z (Z.log2 m) Hl) as E1.
  pose proof (pow2_Z (Z.log2 m + 1) ltac:(lia)) as E2.
  pose proof (pow2_add (Z.log2 m) k) as A1.
  pose proof (pow2_add (Z.log2 m + 1) k) as A2.
  assert (Hpos : (0 < inject_Z m)%Q) by now apply inject_Z_pos.
  apply exponent_unique.
  - nra.
  - nra.
  - replace (Z.log2 m + k + 1) with (Z.log2 m + 1 + k) by lia. nra.
Qed.

Lemma round_representable_pos m k :
  0 < m <= 2 ^ 53 -> (round (inject_Z m * pow2 k) == inject_Z m * pow2 k)%Q.
Proof.
  intros [Hm Hb].
  assert (Hpos : (0 < inject_Z m)%Q) by now apply inject_Z_pos.
  pose proof (pow2_pos k) as Hk.
  assert (Hq : (0 < inject_Z m * pow2 k)%Q) by nra.
  rewrite (round_pos _ Hq).
  pose proof (Z.log2_spec m Hm) as [Hlo Hhi].
  pose proof (Z.log2_nonneg m) as Hl.
  assert (Hl53 : Z.log2 m <= 53).
  { destruct (Z.le_gt_cases (Z.log2 m) 53) as [H|H]; [exact H|].
    assert (2 ^ 54 <= 2 ^ Z.log2 m) by (apply Z.pow_le_mono_r; lia). lia. }
  assert (Es : (inject_Z m * pow2 k * pow2 (precision - 1 - exponent (inject_Z m * pow2 k))
                == inject_Z m * pow2 (52 - Z.log2 m))%Q).
  { rewrite (log2_exponent m k Hm). unfold precision.
    rewrite <- Qmult_assoc, <- pow2_add.
    now replace (k + (53 - 1 - (Z.log2 m + k))) with (52 - Z.log2 m) by lia. }
  destruct (Z.eq_dec (Z.log2 m) 53) as [E|E].
  - assert (Em : m = 2 ^ 53) by (rewrite E in Hlo; lia).
    apply (round_positive_fixed _ (2 ^ 52) Hq).
    rewrite Es, E, Em. reflexivity.
  - apply (round_positive_fixed _ (m * 2 ^ (52 - Z.log2 m)) Hq).
    rewrite Es, inject_Z_mult, <- pow2_Z by lia. reflexivity.
Qed.

(** A number with at most 53 significant bits is a double. *)
Lemma round_representable m k :
  Z.abs m <= 2 ^ 53 -> (round (inject_Z m * pow2 k) == inject_Z m * pow2 k)%Q.
Proof.
  intros H. destruct (Z.lt_trichotomy m 0) as [Hm|[->|Hm]].
  - assert (E : (inject_Z m * pow2 k == - (inject_Z (- m) * pow2 k))%Q).
    { rewrite inject_Z_opp. lra. }
    rewrite (round_comp _ _ E), round_opp, round_representable_pos by lia.
    lra.
  - change (inject_Z 0) with 0%Q.
    rewrite (round_zero (0 * pow2 k)) by lra. lra.
  - apply round_representable_pos. lia.
Qed.

Lemma round_Z z : Z.abs z <= 2 ^ 53 -> (round (inject_Z z) == inject_Z z)%Q.
Proof.
  intros H. pose proof (round_representable z 0 H) as E.
  assert (E0 : (inject_Z z * pow2 0 == inject_Z z)%Q) by (change (pow2 0) with 1%Q; lra).
  rewrite (round_comp _ _ E0) in E. lra.
Qed.

(** A multiple of 1/2 below 2^52 in magnitude is a double. *)
Lemma round_half k :
  Z.abs k <= 2 ^ 53 -> (round (inject_Z k / 2) == inject_Z k / 2)%Q.
Proof.
  intros H. pose proof (round_representable k (- 1) H) as E.
  assert (E0 : (inject_Z k * pow2 (- 1) == inject_Z k / 2)%Q).
  { change (pow2 (- 1)) with (1 # 2)%Q. field. }
  rewrite (round_comp _ _ E0) in E. lra.
Qed.

Lemma Qfloor_unique (x : Q) (n : Z) :
  (inject_Z n <= x)%Q -> (x < inject_Z n + 1)%Q -> Qfloor x = n.
Proof.
  intros Hlo Hhi.
  pose proof (Qfloor_le x) as H1. pose proof (Qlt_floor x) as H2.
  rewrite inject_Z_plus in H2. change (inject_Z 1) with 1%Q in H2.
  assert (Ha : (inject_Z (Qfloor x) < inject_Z (n + 1))%Q)
    by (rewrite inject_Z_plus; change (inject_Z 1) with 1%Q; lra).
  assert (Hb : (inject_Z n < inject_Z (Qfloor x + 1))%Q)
    by (rewrite inject_Z_plus; change (inject_Z 1) with 1%Q; lra).
  rewrite <- Zlt_Qlt in Ha, Hb. lia.
Qed.

(** A sum that stays within 2^53 in magnitude is exact. *)
Lemma add_exact (a b : Z) : Z.abs (a + b) <= 2 ^ 53 -> add a b = a + b.
Proof.
  intros H. unfold add. rewrite (Qfloor_comp _ _ (round_Z (a + b) H)).
  apply Qfloor_Z.
Qed.

End DoubleFacts.

(** ** Download trends *)

Section TrendFacts.

Lemma Math_round_spec (q : Q) : round_half_up q (Math_round q).
Proof.
  unfold round_half_up, Math_round.
  pose proof (Qfloor_le (q + (1 # 2))) as Hle.
  pose proof (Qlt_floor (q + (1 # 2))) as Hlt.
  rewrite inject_Z_plus in Hlt. change (inject_Z 1) with 1%Q in Hlt.
  set (f := inject_Z (Qfloor (q + (1 # 2)))) in *.
  split; lra.
Qed.

(** A real number has one nearest integer once a half goes up. *)
Lemma round_half_up_unique (q : Q) (a b : Z) :
  round_half_up q a -> round_half_up q b -> a = b.
Proof.
  intros [Ha Ha'] [Hb Hb'].
  assert (Hab : (inject_Z a < inject_Z b + 1)%Q) by lra.
  assert (Hba : (inject_Z b < inject_Z a + 1)%Q) by lra.
  change 1%Q with (inject_Z 1) in Hab, Hba.
  rewrite <- inject_Z_plus in Hab, Hba.
  rewrite <- Zlt_Qlt in Hab, Hba. lia.
Qed.

Lemma sum_abs (l : list Z) : Z.abs (sum l) <= sum (List.map Z.abs l).
Proof. induction l as [|x l IH]; simpl; lia. Qed.

(** As long as the counts stay within 2^53 in all, every sum of the
    total is exact. *)
Lemma fold_left_total (daily : list DailyPoint.t) (a : Z) :
  Z.abs a + sum (List.map Z.abs (List.map DailyPoint.downloads daily)) <= 2 ^ 53 ->
  fold_left (fun sum d => Double.add sum (DailyPoint.downloads d)) daily a
  = a + sum (List.map DailyPoint.downloads daily).
Proof.
  revert a. induction daily as [|d daily IH]; intros a H; simpl in *.
  - lia.
  - pose proof (sum_abs (List.map DailyPoint.downloads daily)) as Hs.
    assert (Hpos : 0 <= sum (List.map Z.abs (List.map DailyPoint.downloads daily))) by lia.
    rewrite add_exact by lia. rewrite IH by lia. lia.
Qed.

Lemma Math_round_div (t n : Z) :
  0 < n -> Math_round (inject_Z t / inject_Z n)%Q = (2 * t + n) / (2 * n).
Proof.
  intros H. destruct n as [|p|p]; try lia.
  unfold Math_round, Qfloor, Qdiv, Qmult, Qinv, Qplus, inject_Z. simpl.
  f_equal; lia.
Qed.

(** The quotient of a total below 2^52 in magnitude is rounded to a
    double that [Math.round] takes to the same integer. *)
Lemma average_exact (t n : Z) :
  0 < n -> Z.abs t < 2 ^ 52 ->
  Math_round (Double.round (inject_Z t / inject_Z n)%Q)
  = Math_round (inject_Z t / inject_Z n)%Q.
Proof.
  intros Hn Ht.
  pose proof (Math_round_div t n Hn) as Ea.
  pose proof (Z.div_mod (2 * t + n) (2 * n) ltac:(lia)) as Hdm.
  pose proof (Z.mod_pos_bound (2 * t + n) (2 * n) ltac:(lia)) as Hr.
  set (a := (2 * t + n) / (2 * n)) in *. set (r := (2 * t + n) mod (2 * n)) in *.
  set (q := (inject_Z t / inject_Z n)%Q) in *.
  assert (Hnq : (0 < inject_Z n)%Q) by now apply inject_Z_pos.
  (* w is 1 / (2 n) *)
  set (w := (/ (2 * inject_Z n))%Q).
  assert (Hw : (2 * inject_Z n * w == 1)%Q) by (unfold w; field; lra).
  assert (Hw0 : (0 < w)%Q) by nra.
  assert (Eq : (q == 2 * inject_Z t * w)%Q) by (unfold q, w; field; lra).
  assert (Eqa : (q + (1 # 2) == inject_Z a + inject_Z r * w)%Q).
  { assert (E : (inject_Z (2 * t + n) == inject_Z (2 * n * a + r))%Q) by now rewrite Hdm.
    rewrite !inject_Z_plus, !inject_Z_mult in E. change (inject_Z 2) with 2%Q in E.
    assert (P1 : (inject_Z a * (2 * inject_Z n * w) == inject_Z a)%Q)
      by (rewrite Hw; ring).
    assert (P2 : ((2 * inject_Z t + inject_Z n) * w
                  == (2 * inject_Z n * inject_Z a + inject_Z r) * w)%Q)
      by now rewrite E.
    rewrite Eq. lra. }
  destruct (Z.eq_dec r 0) as [E0|E0].
  - (* the quotient is a multiple of 1/2 *)
    assert (Eh : (q == inject_Z (2 * a - 1) / 2)%Q).
    { assert (Ez : (inject_Z (2 * a - 1) == 2 * inject_Z a - 1)%Q).
      { unfold Z.sub. rewrite inject_Z_plus, inject_Z_mult. reflexivity. }
      rewrite E0 in Eqa. change (inject_Z 0) with 0%Q in Eqa.
      rewrite Ez. unfold Qdiv. change (/ 2)%Q with (1 # 2)%Q. lra. }
    unfold Math_round. apply Qfloor_comp.
    rewrite (round_comp _ _ Eh), round_half, <- Eh; [reflexivity|].
    assert (Z.abs (2 * a - 1) * n = Z.abs (2 * t)) by nia. nia.
  - (* or it keeps off the halves by 1 / (2 n), more than rounding moves it *)
    assert (Hr1 : (w <= inject_Z r * w)%Q).
    { assert (Hr' : (inject_Z 1 <= inject_Z r)%Q) by (rewrite <- Zle_Qle; lia).
      change (inject_Z 1) with 1%Q in Hr'. nra. }
    assert (Hr2 : (inject_Z r * w + w <= 1)%Q).
    { assert (Hr' : (inject_Z (r + 1) <= inject_Z (2 * n))%Q) by (rewrite <- Zle_Qle; lia).
      rewrite inject_Z_plus, inject_Z_mult in Hr'.
      change (inject_Z 1) with 1%Q in Hr'. change (inject_Z 2) with 2%Q in Hr'. nra. }
    assert (Hb : (Qabs q * (1 # 9007199254740992) < w)%Q).
    { assert (Hq' : (Qabs q == 2 * inject_Z (Z.abs t) * w)%Q).
      { rewrite Eq, !Qabs_Qmult, (Qabs_pos w) by lra. reflexivity. }
      assert (Ht' : (inject_Z (Z.abs t) <= inject_Z (2 ^ 52 - 1))%Q)
        by (rewrite <- Zle_Qle; lia).
      change (inject_Z (2 ^ 52 - 1)) with (4503599627370495 # 1)%Q in Ht'.
      rewrite Hq'. nra. }
    pose proof (round_error q) as He. apply Qabs_Qle_condition in He.
    change (Double.pow2 (- 53)) with (1 # 9007199254740992)%Q in He.
    rewrite Ea. unfold Math_round. apply Qfloor_unique; lra.
Qed.

End TrendFacts.

Section LevelFacts.

Lemma level_unfold (downloads max : Z) :
  level downloads max
  = Z.min (Qfloor (Double.round
                     (Double.round (inject_Z downloads / inject_Z max) * 7)%Q)) 7.
Proof. reflexivity. Qed.

Lemma quotient_mono (a b max : Z) :
  0 < max -> a <= b -> (inject_Z a / inject_Z max <= inject_Z b / inject_Z max)%Q.
Proof.
  intros Hm Hab. pose proof (inject_Z_pos max Hm) as Hq.
  rewrite Zle_Qle in Hab. unfold Qdiv.
  apply Qmult_le_compat_r; [exact Hab|]. apply Qlt_le_weak, Qinv_lt_0_compat, Hq.
Qed.

(** A day with no fewer downloads has no lower level. *)
Lemma level_monotone (a b max : Z) :
  0 < max -> a <= b -> level a max <= level b max.
Proof.
  intros Hm Hab. rewrite !level_unfold.
  pose proof (round_mono _ _ (quotient_mono a b max Hm Hab)) as H1.
  assert (H2 : (Double.round (inject_Z a / inject_Z max) * 7
                <= Double.round (inject_Z b / inject_Z max) * 7)%Q) by lra.
  apply round_mono, Qfloor_resp_le in H2. lia.
Qed.

Lemma level_top (max : Z) : 0 < max -> level max max = 7.
Proof.
  intros Hm. rewrite level_unfold.
  assert (E : (inject_Z max / inject_Z max == 1)%Q).
  { pose proof (inject_Z_pos max Hm). field. lra. }
  now rewrite (round_comp _ _ E).
Qed.

Lemma level_zero (max : Z) : 0 < max -> level 0 max = 0.
Proof.
  intros Hm. rewrite level_unfold.
  assert (E : (inject_Z 0 / inject_Z max == 0)%Q).
  { pose proof (inject_Z_pos max Hm). change (inject_Z 0) with 0%Q. field. lra. }
  now rewrite (round_comp _ _ E).
Qed.

Lemma level_range (downloads max : Z) :
  0 < max -> 0 <= downloads <= max -> 0 <= level downloads max <= 7.
Proof.
  intros Hm [Hlo Hhi].
  pose proof (level_monotone 0 downloads max Hm Hlo) as H1.
  pose proof (level_monotone downloads max max Hm Hhi) as H2.
  rewrite level_zero in H1 by exact Hm. rewrite level_top in H2 by exact Hm. lia.
Qed.

(** A count below 0 has a level below 0: rounding keeps the sign. *)
Lemma level_negative (downloads max : Z) :
  0 < max -> downloads < 0 -> level downloads max < 0.
Proof.
  intros Hm Hd. rewrite level_unfold.
  pose proof (inject_Z_pos max Hm) as Hq.
  assert (Hneg : (inject_Z downloads / inject_Z max < 0)%Q).
  { assert (Hd' : (inject_Z downloads < inject_Z 0)%Q) by (rewrite <- Zlt_Qlt; exact Hd).
    change (inject_Z 0) with 0%Q in Hd'.
    pose proof (Qinv_lt_0_compat _ Hq) as Hi. unfold Qdiv. nra. }
  apply (proj2 (round_sign _)) in Hneg.
  assert (Hneg' : (Double.round (inject_Z downloads / inject_Z max) * 7 < 0)%Q) by lra.
  apply (proj2 (round_sign _)) in Hneg'.
  pose proof (Qfloor_le (Double.round
                           (Double.round (inject_Z downloads / inject_Z max) * 7))) as Hf.
  assert (Hz : (inject_Z (Qfloor (Double.round
                  (Double.round (inject_Z downloads / inject_Z max) * 7))) < inject_Z 0)%Q)
    by (change (inject_Z 0) with 0%Q; lra).
  rewrite <- Zlt_Qlt in Hz. lia.
Qed.

(** The same quotient in exact arithmetic. *)
Lemma exact_level (downloads max : Z) :
  0 < max ->
  Math_floor ((inject_Z downloads / inject_Z max) * 7)%Q = downloads * 7 / max.
Proof.
  intros Hm. destruct max as [|p|p]; try lia.
  unfold Math_floor, Qfloor, Qdiv, Qmult, Qinv, inject_Z. simpl.
  now rewrite Z.mul_1_r, Pos.mul_1_r.
Qed.

(** Up to a maximum of 2^48, rounding the quotient and the product to
    doubles does not move the level. *)
Lemma level_exact (downloads max : Z) :
  0 < max <= 2 ^ 48 -> 0 <= downloads <= max ->
  level downloads max = downloads * 7 / max.
Proof.
  intros [Hm Hb] [Hlo Hhi]. rewrite level_unfold.
  pose proof (Z.div_mod (downloads * 7) max ltac:(lia)) as Hdm.
  pose proof (Z.mod_pos_bound (downloads * 7) max Hm) as Hr.
  assert (Hk : 0 <= downloads * 7 / max <= 7).
  { split; [apply Z.div_pos; lia|]. apply Z.div_le_upper_bound; lia. }
  set (k := downloads * 7 / max) in *. set (r := (downloads * 7) mod max) in *.
  clearbody k r.
  pose proof (inject_Z_pos max Hm) as Hq.
  set (q := (inject_Z downloads / inject_Z max)%Q).
  assert (Ed : (inject_Z downloads * 7 == inject_Z max * inject_Z k + inject_Z r)%Q).
  { change 7%Q with (inject_Z 7). rewrite <- !inject_Z_mult, <- inject_Z_plus.
    now rewrite Hdm. }
  assert (Eq : (q * inject_Z max == inject_Z downloads)%Q) by (unfold q; field; lra).
  destruct (Z.eq_dec r 0) as [E0|E0].
  - (* the quotient is k / 7 *)
    assert (Ek : (q == inject_Z k / 7)%Q).
    { rewrite E0 in Ed. change (inject_Z 0) with 0%Q in Ed.
      assert (P : (q * inject_Z max * 7 == inject_Z max * inject_Z k)%Q) by (rewrite Eq; lra).
      assert (Q7 : (q * 7 == inject_Z k)%Q) by nra.
      unfold Qdiv. change (/ 7)%Q with (1 # 7)%Q. lra. }
    rewrite (round_comp _ _ Ek).
    assert (C : k = 0 \/ k = 1 \/ k = 2 \/ k = 3 \/ k = 4 \/ k = 5 \/ k = 6 \/ k = 7) by lia.
    repeat destruct C as [->|C]; try subst k; reflexivity.
  - (* or it keeps off the integers by 1 / max, more than rounding twice moves it;
       d is 1 / max, at least 2^-48 *)
    assert (E53 : Double.pow2 (- 53) = (1 # 9007199254740992)%Q) by reflexivity.
    set (d := (/ inject_Z max)%Q).
    assert (Hd : (inject_Z max * d == 1)%Q) by (unfold d; field; lra).
    assert (Hd0 : (0 < d)%Q) by nra.
    assert (Hd48 : ((1 # 281474976710656) <= d)%Q).
    { assert (Hb' : (inject_Z max <= inject_Z (2 ^ 48))%Q) by (rewrite <- Zle_Qle; exact Hb).
      change (inject_Z (2 ^ 48)) with (281474976710656 # 1)%Q in Hb'. nra. }
    assert (Hr1 : (d <= inject_Z r * d)%Q).
    { assert (Hr' : (inject_Z 1 <= inject_Z r)%Q) by (rewrite <- Zle_Qle; lia).
      change (inject_Z 1) with 1%Q in Hr'. nra. }
    assert (Hr2 : (inject_Z r * d + d <= 1)%Q).
    { assert (Hr' : (inject_Z (r + 1) <= inject_Z max)%Q) by (rewrite <- Zle_Qle; lia).
      rewrite inject_Z_plus in Hr'. change (inject_Z 1) with 1%Q in Hr'. nra. }
    assert (Eq7 : (q * 7 == inject_Z k + inject_Z r * d)%Q).
    { assert (P1 : (q * inject_Z max * d == q)%Q) by (rewrite <- Qmult_assoc, Hd; ring).
      assert (P2 : (inject_Z downloads * 7 * d
                    == (inject_Z max * inject_Z k + inject_Z r) * d)%Q) by now rewrite Ed.
      assert (P3 : (inject_Z k * (inject_Z max * d) == inject_Z k)%Q) by (rewrite Hd; ring).
      assert (P4 : (q * inject_Z max * d * 7 == inject_Z downloads * 7 * d)%Q)
        by (rewrite Eq; ring).
      lra. }
    assert (Hk' : (0 <= inject_Z k <= 7)%Q).
    { change 0%Q with (inject_Z 0). change 7%Q with (inject_Z 7).
      rewrite <- !Zle_Qle. exact Hk. }
    assert (Hq0 : (0 < q)%Q) by lra.
    pose proof (round_error q) as He1. rewrite (Qabs_pos q), E53 in He1 by lra.
    apply Qabs_Qle_condition in He1.
    set (x := Double.round q) in *.
    assert (Hx0 : (0 < x * 7)%Q) by lra.
    pose proof (round_error (x * 7)) as He2. rewrite (Qabs_pos (x * 7)), E53 in He2 by lra.
    apply Qabs_Qle_condition in He2.
    set (y := Double.round (x * 7)) in *.
    assert (Ef : Qfloor y = k) by (apply Qfloor_unique; lra).
    rewrite Ef. lia.
Qed.

End LevelFacts.

Section SparklineFacts.

Lemma Math_max_spec (x : Z) (xs : list Z) :
  Forall (fun y => y <= Math_max x xs) (x :: xs) /\ In (Math_max x xs) (x :: xs).
Proof.
  unfold Math_max. revert x. induction xs as [|y ys IH]; intros x; simpl.
  - split; [constructor; [lia|constructor] | now left].
  - destruct (IH (Z.max x y)) as [Hall Hin].
    apply Forall_cons_1 in Hall as [Hm Hys]. split.
    + constructor; [lia|]. constructor; [lia|exact Hys].
    + destruct Hin as [Hin|Hin]; [|now right; right].
      destruct (Z.max_spec x y) as [[_ E]|[_ E]]; rewrite E in *; auto.
Qed.

Lemma Math_min_spec (x : Z) (xs : list Z) :
  Forall (fun y => Math_min x xs <= y) (x :: xs) /\ In (Math_min x xs) (x :: xs).
Proof.
  unfold Math_min. revert x. induction xs as [|y ys IH]; intros x; simpl.
  - split; [constructor; [lia|constructor] | now left].
  - destruct (IH (Z.min x y)) as [Hall Hin].
    apply Forall_cons_1 in Hall as [Hm Hys]. split.
    + constructor; [lia|]. constructor; [lia|exact Hys].
    + destruct Hin as [Hin|Hin]; [|now right; right].
      destruct (Z.min_spec x y) as [[_ E]|[_ E]]; rewrite E in *; auto.
Qed.

Lemma index_blocks (i : Z) :
  0 <= i <= 7 ->
  exists glyph, index blocks i = Some [glyph]
                /\ nth_error blocks (Z.to_nat i) = Some glyph.
Proof.
  intros H.
  assert (C : i = 0 \/ i = 1 \/ i = 2 \/ i = 3 \/ i = 4 \/ i = 5 \/ i = 6 \/ i = 7) by lia.
  repeat destruct C as [->|C]; try subst i; eexists; split; reflexivity.
Qed.

Lemma nth_blocks (i : Z) :
  0 <= i <= 7 ->
  index blocks i = Some [Z.to_N (9601 + i)].
Proof.
  intros H.
  assert (C : i = 0 \/ i = 1 \/ i = 2 \/ i = 3 \/ i = 4 \/ i = 5 \/ i = 6 \/ i = 7) by lia.
  repeat destruct C as [->|C]; try subst i; reflexivity.
Qed.

Lemma level_below_zero (downloads max : Z) :
  0 < max -> downloads < 0 -> index blocks (level downloads max) = None.
Proof.
  intros Hm Hd. pose proof (level_negative downloads max Hm Hd) as H.
  unfold index. replace (level downloads max <? 0) with true; [reflexivity|].
  symmetry. now apply Z.ltb_lt.
Qed.

Lemma Forall2_map_In {A B} (P : A -> B -> Prop) (f : A -> B) (l : list A) :
  (forall x, In x l -> P x (f x)) -> Forall2 P l (List.map f l).
Proof.
  induction l as [|x l IH]; intros H; cbn [List.map]; constructor.
  - apply H. now left.
  - apply IH. intros y Hy. apply H. now right.
Qed.

Lemma join_empty_separator (a : list str) : join [] a = List.concat a.
Proof.
  induction a as [|x a IH]; [reflexivity|].
  simpl. destruct a as [|y a]; [now rewrite app_nil_r|].
  now rewrite <- IH.
Qed.

Lemma sum_between (lo hi : Z) (l : list Z) :
  Forall (fun x => lo <= x <= hi) l ->
  Z.of_nat (length l) * lo <= sum l <= Z.of_nat (length l) * hi.
Proof.
  induction 1 as [|x l Hx _ IH]; simpl sum; simpl length; lia.
Qed.

Lemma counted_all (daily : list DailyPoint.t) :
  Forall (fun d => 0 <= DailyPoint.downloads d) daily -> counted daily = daily.
Proof.
  induction 1 as [|d daily Hd _ IH]; [reflexivity|].
  unfold counted in *. cbn [List.filter].
  replace (0 <=? DailyPoint.downloads d) with true by (symmetry; now apply Z.leb_le).
  now rewrite IH.
Qed.

End SparklineFacts.

(** The minimum and the maximum of a series that is not empty are
    counts of the series that bound every count. *)
Lemma trend_bounds (daily : list DailyPoint.t) :
  daily <> [] ->
  Forall (fun d => Trend.min (trend daily) <= DailyPoint.downloads d
                   /\ DailyPoint.downloads d <= Trend.max (trend daily)) daily
  /\ In (Trend.min (trend daily)) (List.map DailyPoint.downloads daily)
  /\ In (Trend.max (trend daily)) (List.map DailyPoint.downloads daily).
Proof.
  intros Hne. destruct daily as [|d daily]; [congruence|].
  unfold trend. cbn [Trend.min Trend.max List.map].
  destruct (Math_max_spec (DailyPoint.downloads d) (List.map DailyPoint.downloads daily))
    as [Hmax Hmax_in].
  destruct (Math_min_spec (DailyPoint.downloads d) (List.map DailyPoint.downloads daily))
    as [Hmin Hmin_in].
  split; [|split; assumption].
  change (DailyPoint.downloads d :: List.map DailyPoint.downloads daily)
    with (List.map DailyPoint.downloads (d :: daily)) in Hmax, Hmin.
  rewrite List.Forall_forall in Hmax, Hmin. apply List.Forall_forall.
  intros x Hx. split.
  - apply Hmin. now apply in_map.
  - apply Hmax. now apply in_map.
Qed.

(** The sparkline of a series with a day above 0. *)
Lemma sparkline_concat (daily : list DailyPoint.t) :
  0 < Trend.max (trend daily) ->
  Trend.sparkline (trend daily)
  = List.concat
      (List.map
         (fun d => index blocks (level (DailyPoint.downloads d) (Trend.max (trend daily)))
                     ?? [])
         daily).
Proof.
  intros Hmax.
  assert (Hne : daily <> []) by (intros ->; cbn in Hmax; lia).
  unfold trend at 1. cbn [Trend.sparkline].
  change (match List.map DailyPoint.downloads daily with
          | [] => 0 | x :: xs => Math_max x xs end) with (Trend.max (trend daily)).
  replace (0 <? Z.of_nat (length daily)) with true
    by (symmetry; apply Z.ltb_lt; destruct daily; [congruence|simpl length; lia]).
  replace (0 <? Trend.max (trend daily)) with true by (symmetry; now apply Z.ltb_lt).
  cbn [andb]. apply join_empty_separator.
Qed.

(** The glyph of a counted day, and the sparkline as the glyphs of the
    counted days. *)
Lemma sparkline_glyphs (daily : list DailyPoint.t) :
  0 < Trend.max (trend daily) ->
  Trend.sparkline (trend daily)
  = List.map
      (fun d => Z.to_N (9601 + level (DailyPoint.downloads d) (Trend.max (trend daily))))
      (counted daily).
Proof.
  intros Hmax. rewrite sparkline_concat by assumption.
  assert (Hne : daily <> []) by (intros ->; cbn in Hmax; lia).
  destruct (trend_bounds daily Hne) as [Hb _].
  assert (Hle : Forall (fun d => DailyPoint.downloads d <= Trend.max (trend daily)) daily).
  { rewrite List.Forall_forall in Hb. apply List.Forall_forall.
    intros d Hd. apply (Hb d Hd). }
  clear Hb Hne.
  set (max := Trend.max (trend daily)) in *. clearbody max.
  unfold counted.
  induction Hle as [|d daily Hd _ IH]; [reflexivity|].
  cbn [List.map List.concat List.filter].
  destruct (0 <=? DailyPoint.downloads d) eqn:E.
  - apply Z.leb_le in E.
    rewrite nth_blocks by (apply level_range; lia).
    cbn [default List.map]. simpl app. now f_equal.
  - apply Z.leb_gt in E. rewrite level_below_zero by assumption.
    cbn [default]. simpl app. exact IH.
Qed.

(** ** The report of the trends *)

(** The characters of the literals, written out. *)
Ltac eval_literals :=
  repeat match goal with
         | |- context [lit ?s] =>
             let v := eval vm_compute in (lit s) in change (lit s) with v
         end.

(** The lines of the report: the empty ones are left out. *)
Lemma report_lines (title figures trendline rows : str) :
  title <> [] -> figures <> [] ->
  join [10%N]
    (List.filter (fun line : str => negb (Nat.eqb (length line) 0))
       [ title; []; figures; []; trendline; [];
         lit "| Day | Downloads |"; lit "|-----|-----------|"; rows ])
  = title ++ [10%N] ++ figures ++ [10%N]
      ++ match trendline with [] => [] | _ => trendline ++ [10%N] end
      ++ lit "| Day | Downloads |" ++ [10%N] ++ lit "|-----|-----------|"
      ++ match rows with [] => [] | _ => [10%N] ++ rows end.
Proof.
  intros Ht Hf. destruct title as [|t0 title]; [congruence|].
  destruct figures as [|f0 figures]; [congruence|].
  eval_literals.
  destruct trendline as [|l0 trendline]; destruct rows as [|r0 rows];
    cbn [List.filter length Nat.eqb negb join app];
    repeat (rewrite <- app_assoc; cbn [app]); reflexivity.
Qed.

(** The report that [getDownloadTrends] makes of an answer. *)
Lemma getDownloadTrends_ok enc loc fetch name period r :
  well_formed name = true ->
  fetch (API ++ lit "/downloads/range/" ++ period ++ lit "/" ++ enc name) = Fulfilled r ->
  ok r = true ->
  run (getDownloadTrends enc loc fetch name period)
  = Fulfilled
      (let daily := RangeBody.downloads (json r) ?? [] in
       let t := trend daily in
       let trendline : str :=
         if negb (Nat.eqb (length (Trend.sparkline t)) 0)
         then lit "Trend: " ++ Trend.sparkline t else [] in
       let rows :=
         join [10%N]
           (List.map
              (fun d => lit "| " ++ DailyPoint.day d ++ lit " | "
                          ++ loc (DailyPoint.downloads d) ++ lit " |")
              (slice_last 14 daily)) in
       (lit "## " ++ (RangeBody.package (json r) ?? name) ++ [32; 8212; 32]%N
          ++ RangeBody.start (json r) ++ lit " to " ++ RangeBody.end_ (json r))
         ++ [10%N]
         ++ (lit "Total: " ++ loc (Trend.total t)
               ++ lit " | Avg/day: " ++ loc (Trend.avg t)
               ++ lit " | Min: " ++ loc (Trend.min t)
               ++ lit " | Max: " ++ loc (Trend.max t))
         ++ [10%N]
         ++ match trendline with [] => [] | _ => trendline ++ [10%N] end
         ++ lit "| Day | Downloads |" ++ [10%N] ++ lit "|-----|-----------|"
         ++ match rows with [] => [] | _ => [10%N] ++ rows end).
Proof.
  intros Hwf Hr Hok. cbv zeta. rewrite <- report_lines.
  - unfold getDownloadTrends, run, encodeURIComponent, bind. rewrite Hwf.
    unfold ret at 1. rewrite (fetchJson_ok fetch _ [] r Hr Hok). reflexivity.
  - eval_literals. cbn [app]. discriminate.
  - eval_literals. cbn [app]. discriminate.
Qed.

(** The report shows the figures of the series, and its sparkline
    when there is one. *)
Lemma getDownloadTrends_shows enc loc fetch name period r :
  well_formed name = true ->
  fetch (API ++ lit "/downloads/range/" ++ period ++ lit "/" ++ enc name) = Fulfilled r ->
  ok r = true ->
  exists report,
    run (getDownloadTrends enc loc fetch name period) = Fulfilled report
    /\ contains
         (lit "Total: " ++ loc (Trend.total (trend (RangeBody.downloads (json r) ?? [])))
            ++ lit " | Avg/day: " ++ loc (Trend.avg (trend (RangeBody.downloads (json r) ?? [])))
            ++ lit " | Min: " ++ loc (Trend.min (trend (RangeBody.downloads (json r) ?? [])))
            ++ lit " | Max: " ++ loc (Trend.max (trend (RangeBody.downloads (json r) ?? []))))
         report
    /\ (Trend.sparkline (trend (RangeBody.downloads (json r) ?? [])) <> [] ->
        contains
          (lit "Trend: " ++ Trend.sparkline (trend (RangeBody.downloads (json r) ?? [])))
          report).
Proof.
  intros Hwf Hr Hok. eexists.
  split; [exact (getDownloadTrends_ok enc loc fetch name period r Hwf Hr Hok)|].
  cbv zeta.
  set (t := trend (RangeBody.downloads (json r) ?? [])).
  set (title := lit "## " ++ _).
  set (figures := lit "Total: " ++ _).
  set (rows := match join [10%N] _ with [] => [] | _ => _ end).
  split.
  - exists (title ++ [10%N]). eexists. rewrite <- !app_assoc. reflexivity.
  - intros Hs. destruct (Trend.sparkline t) as [|g gs] eqn:E; [congruence|].
    cbn [length Nat.eqb negb]. eval_literals. cbn [app].
    exists (title ++ [10%N] ++ figures ++ [10%N]). eexists.
    rewrite <- !app_assoc. cbn [app]. reflexivity.
Qed.

(** C6, as stated, fails.  Three days of 2^51, 2^51 and 2^51 + 1
    downloads have the total 6755399441055745, which is exact; the
    real quotient by 3 ends in 248 and a third and rounds to
    2251799813685248, but the double nearest to it ends in 248 and a
    half, and [Math.round] takes that one to 2251799813685249. *)
Lemma trend_average_of_double :
  Trend.total (trend Sample.rounded_mean) = 6755399441055745
  /\ sum (List.map DailyPoint.downloads Sample.rounded_mean) = 6755399441055745
  /\ Double.round (inject_Z 6755399441055745 / inject_Z 3)%Q = (4503599627370497 # 2)%Q
  /\ Trend.avg (trend Sample.rounded_mean) = 2251799813685249
  /\ round_half_up (inject_Z 6755399441055745 / inject_Z 3)%Q 2251799813685248
  /\ ~ round_half_up (inject_Z 6755399441055745 / inject_Z 3)%Q
         (Trend.avg (trend Sample.rounded_mean)).
Proof.
  assert (Ht : Trend.total (trend Sample.rounded_mean) = 6755399441055745)
    by (vm_compute; reflexivity).
  assert (Ha : Trend.avg (trend Sample.rounded_mean) = 2251799813685249)
    by (vm_compute; reflexivity).
  assert (Hr : round_half_up (inject_Z 6755399441055745 / inject_Z 3)%Q 2251799813685248).
  { split; vm_compute; [discriminate|reflexivity]. }
  repeat match goal with |- _ /\ _ => split end;
    try assumption; try (vm_compute; reflexivity).
  rewrite Ha. intros H.
  pose proof (round_half_up_unique _ _ _ H Hr). discriminate.
Qed.

(** C6, amended: an empty series gives a total, an average, a minimum
    and a maximum of 0 and an empty sparkline; a series that is not
    empty and whose counts have absolute values of less than 2^52 in
    all gives the sum of its counts as the total and, as the average,
    the real quotient of the total by the number of days, rounded to
    the nearest integer with a half going up; and these are the total
    and the average that the report of [getDownloadTrends] shows for
    such a series. *)
Theorem trend_figures :
  trend [] = Trend.mk 0 0 0 0 []
  /\ (forall daily : list DailyPoint.t,
         daily <> [] ->
         sum (List.map Z.abs (List.map DailyPoint.downloads daily)) < 2 ^ 52 ->
         Trend.total (trend daily) = sum (List.map DailyPoint.downloads daily)
         /\ round_half_up
              (inject_Z (sum (List.map DailyPoint.downloads daily))
               / inject_Z (Z.of_nat (length daily)))%Q
              (Trend.avg (trend daily)))
  /\ (forall enc loc fetch name period r daily,
         well_formed name = true ->
         fetch (API ++ lit "/downloads/range/" ++ period ++ lit "/" ++ enc name)
         = Fulfilled r ->
         ok r = true ->
         RangeBody.downloads (json r) ?? [] = daily ->
         sum (List.map Z.abs (List.map DailyPoint.downloads daily)) < 2 ^ 52 ->
         exists report,
           run (getDownloadTrends enc loc fetch name period) = Fulfilled report
           /\ contains
                (lit "Total: " ++ loc (Trend.total (trend daily))
                   ++ lit " | Avg/day: " ++ loc (Trend.avg (trend daily)))
                report).
Proof.
  split; [reflexivity|]. split.
  - intros daily Hne Hsum. unfold trend. cbn [Trend.total Trend.avg].
    rewrite fold_left_total by (simpl Z.abs; lia). rewrite Z.add_0_l.
    split; [reflexivity|].
    destruct daily as [|d daily]; [congruence|].
    replace (0 <? Z.of_nat (length (d :: daily))) with true
      by (symmetry; apply Z.ltb_lt; simpl length; lia).
    rewrite average_exact.
    + apply Math_round_spec.
    + simpl length. lia.
    + pose proof (sum_abs (List.map DailyPoint.downloads (d :: daily))). lia.
  - intros enc loc fetch name period r daily Hwf Hr Hok <- _.
    destruct (getDownloadTrends_shows enc loc fetch name period r Hwf Hr Hok)
      as [report [Hrun [[pre [post E]] _]]].
    exists report. split; [exact Hrun|].
    exists pre. eexists. rewrite E, <- !app_assoc. reflexivity.
Qed.

Lemma trend_figures_witness :
  Trend.total (trend Sample.halfway) = 3
  /\ Trend.avg (trend Sample.halfway) = 2
  /\ round_half_up (3 / 2)%Q (Trend.avg (trend Sample.halfway)).
Proof.
  split; [reflexivity|]. split; [reflexivity|].
  apply (proj2 (proj1 (proj2 trend_figures) Sample.halfway ltac:(discriminate)
                  ltac:(reflexivity))).
Defined.

(** C7, as stated, fails.  With 2573485501354569 downloads on a day
    and 2^52 on the largest one, seven times the real quotient lies
    below 4 and the claim asks for the glyph at index 3, but the
    double nearest to the quotient, times 7, is rounded to 4, and the
    sparkline has the glyph at index 4.  And a day with a count below
    0 has no glyph at all, so that the sparkline is shorter than the
    series. *)
Lemma sparkline_level_of_double :
  Trend.max (trend Sample.rounded_level) = 2 ^ 52
  /\ clamp 0 7 (Math_floor ((inject_Z 2573485501354569 / inject_Z (2 ^ 52)) * 7)%Q) = 3
  /\ nth_error blocks 3 = Some 9604%N
  /\ level 2573485501354569 (2 ^ 52) = 4
  /\ Trend.sparkline (trend Sample.rounded_level) = [9605; 9608]%N
  /\ Trend.max (trend Sample.below_zero) = 10
  /\ length Sample.below_zero = 2%nat
  /\ length (Trend.sparkline (trend Sample.below_zero)) = 1%nat.
Proof. repeat split; vm_compute; reflexivity. Qed.

(** C7, amended: for a series that is not empty, whose counts are not
    below 0 and whose maximum is above 0, the sparkline has one glyph
    for each day and every glyph is one of the eight of [blocks]; when
    the maximum is at most 2^48, the glyph of a day is the one at index
    [floor ((downloads / max) * 7)] clamped to the range from 0 to 7;
    and this sparkline is the one that the report of
    [getDownloadTrends] shows. *)
Theorem sparkline_levels (daily : list DailyPoint.t) :
  daily <> [] ->
  0 < Trend.max (trend daily) ->
  Forall (fun d => 0 <= DailyPoint.downloads d) daily ->
  length blocks = 8%nat
  /\ length (Trend.sparkline (trend daily)) = length daily
  /\ Forall (fun glyph => In glyph blocks) (Trend.sparkline (trend daily))
  /\ (Trend.max (trend daily) <= 2 ^ 48 ->
      Forall2
        (fun d glyph =>
           nth_error blocks
             (Z.to_nat
                (clamp 0 7
                   (Math_floor
                      ((inject_Z (DailyPoint.downloads d)
                        / inject_Z (Trend.max (trend daily))) * 7)%Q)))
           = Some glyph)
        daily (Trend.sparkline (trend daily)))
  /\ (forall enc loc fetch name period r,
         well_formed name = true ->
         fetch (API ++ lit "/downloads/range/" ++ period ++ lit "/" ++ enc name)
         = Fulfilled r ->
         ok r = true ->
         RangeBody.downloads (json r) = Some daily ->
         exists report,
           run (getDownloadTrends enc loc fetch name period) = Fulfilled report
           /\ contains (lit "Trend: " ++ Trend.sparkline (trend daily)) report).
Proof.
  intros Hne Hmax Hpos.
  destruct (trend_bounds daily Hne) as [Hbounds _].
  assert (Hs : Trend.sparkline (trend daily)
               = List.map
                   (fun d => Z.to_N (9601 + level (DailyPoint.downloads d)
                                              (Trend.max (trend daily))))
                   daily).
  { rewrite sparkline_glyphs by exact Hmax. now rewrite counted_all. }
  set (max := Trend.max (trend daily)) in *.
  assert (Hrange : forall d, In d daily -> 0 <= level (DailyPoint.downloads d) max <= 7).
  { rewrite List.Forall_forall in Hpos, Hbounds. intros d Hd.
    apply level_range; [exact Hmax|]. specialize (Hpos d Hd). specialize (Hbounds d Hd).
    lia. }
  assert (Hglyph : forall i, 0 <= i <= 7 ->
                     nth_error blocks (Z.to_nat i) = Some (Z.to_N (9601 + i))).
  { intros i Hi.
    assert (C : i = 0 \/ i = 1 \/ i = 2 \/ i = 3 \/ i = 4 \/ i = 5 \/ i = 6 \/ i = 7) by lia.
    repeat destruct C as [->|C]; try subst i; reflexivity. }
  split; [reflexivity|]. split; [rewrite Hs; apply length_map|]. split; [|split].
  - rewrite Hs. apply List.Forall_forall. intros g Hin.
    apply in_map_iff in Hin as [d [<- Hd]].
    eapply nth_error_In. apply Hglyph, Hrange, Hd.
  - intros Hb. rewrite Hs. apply Forall2_map_In. intros d Hd.
    rewrite List.Forall_forall in Hpos, Hbounds.
    specialize (Hpos d Hd). specialize (Hbounds d Hd).
    rewrite exact_level by exact Hmax.
    rewrite <- (level_exact (DailyPoint.downloads d) max) by lia.
    specialize (Hrange d Hd). unfold clamp.
    replace (Z.max 0 (Z.min 7 (level (DailyPoint.downloads d) max)))
      with (level (DailyPoint.downloads d) max) by lia.
    now apply Hglyph.
  - intros enc loc fetch name period r Hwf Hr Hok Hd.
    destruct (getDownloadTrends_shows enc loc fetch name period r Hwf Hr Hok)
      as [report [Hrun [_ Hshow]]].
    exists report. split; [exact Hrun|].
    rewrite Hd in Hshow. change (Some daily ?? []) with daily in Hshow. apply Hshow.
    rewrite Hs. destruct daily; [congruence|discriminate].
Qed.

Lemma sparkline_levels_witness :
  Trend.sparkline (trend Sample.january) = [9604; 9606; 9608]%N
  /\ length (Trend.sparkline (trend Sample.january)) = length Sample.january
  /\ Forall (fun glyph => In glyph blocks) (Trend.sparkline (trend Sample.january)).
Proof.
  split; [reflexivity|].
  assert (Hne : Sample.january <> []) by discriminate.
  assert (Hmax : 0 < Trend.max (trend Sample.january)) by reflexivity.
  assert (Hpos : Forall (fun d => 0 <= DailyPoint.downloads d) Sample.january).
  { repeat constructor; discriminate. }
  pose proof (sparkline_levels Sample.january Hne Hmax Hpos) as [_ [Hlen [Hin _]]].
  split; assumption.
Defined.

(** The lower end is not clamped by the source: a count below 0 has no
    glyph, and the sparkline is shorter than the series. *)
Lemma sparkline_below_zero :
  level (-5) 10 = -4
  /\ Trend.sparkline (trend Sample.below_zero) = [9608%N].
Proof. split; reflexivity. Qed.

(** Six days of 2^52 + 2 downloads: the sums of the total are rounded,
    and the average comes out below the count of every day. *)
Example trend_rounded_total :
  Trend.total (trend Sample.rounded_total) = 27021597764222984
  /\ Trend.avg (trend Sample.rounded_total) = 4503599627370497
  /\ Trend.min (trend Sample.rounded_total) = 4503599627370498.
Proof. repeat split; vm_compute; reflexivity. Qed.

(** ** [Promise.all] *)

Section PromiseAllFacts.

Context {A : Type} (outcomes : list (Promise A)).

Import PromiseAll.

Lemma collect_Some (vs : list (option A)) (l : list A) :
  collect vs = Some l <-> vs = List.map Some l.
Proof.
  revert l. induction vs as [|[v|] vs IH]; intros l; simpl.
  - split.
    + intros [= <-]. reflexivity.
    + destruct l; [reflexivity|discriminate].
  - destruct (collect vs) as [l'|] eqn:E.
    + split.
      * intros [= <-]. simpl. f_equal. now apply IH.
      * destruct l as [|x l]; [discriminate|]. simpl. intros [= -> Hvs].
        apply IH in Hvs. congruence.
    + split; [discriminate|].
      destruct l as [|x l]; [discriminate|]. simpl. intros [= -> Hvs].
      apply IH in Hvs. discriminate.
  - split; [discriminate|]. destruct l; discriminate.
Qed.

Lemma Inv_init : Inv outcomes (init outcomes).
Proof.
  split.
  - unfold init. simpl. apply length_map.
  - unfold init. simpl. intros i v H.
    rewrite list_lookup_fmap in H. destruct (outcomes !! i); discriminate.
  - unfold init. destruct outcomes; reflexivity.
Qed.

Lemma collect_hole (vs : list (option A)) (i : nat) :
  vs !! i = Some None -> collect vs = None.
Proof.
  intros H. destruct (collect vs) as [l|] eqn:E; [|reflexivity].
  apply collect_Some in E. subst vs.
  rewrite list_lookup_fmap in H. destruct (l !! i); discriminate.
Qed.

Lemma Inv_step (s : state A) (i : nat) : Inv outcomes s -> Inv outcomes (step outcomes s i).
Proof.
  intros [Hlen Hval Hpro]. unfold step.
  destruct (outcomes !! i) as [[|v|e]|] eqn:Eo; try (split; assumption).
  - destruct (values s !! i) as [[w|]|] eqn:Ev; try (split; assumption).
    split; cbn [values promise].
    + now rewrite length_insert.
    + intros j w Hj. destruct (decide (i = j)) as [<-|Hne].
      * rewrite list_lookup_insert_eq in Hj by (apply lookup_lt_Some in Ev; lia).
        congruence.
      * rewrite list_lookup_insert_ne in Hj by assumption. now apply Hval.
    + pose proof (collect_hole _ _ Ev) as Hnone.
      destruct (promise s) as [|l|e] eqn:Ep.
      * destruct (collect (<[i:=Some v]> (values s))) eqn:Ec; cbn; reflexivity.
      * congruence.
      * destruct (collect (<[i:=Some v]> (values s))); cbn; try rewrite Ep; exact Hpro.
  - split; cbn [values promise]; try assumption.
    destruct (promise s) as [|l|e'] eqn:Ep; cbn; eauto.
Qed.

Lemma Inv_run (schedule : list nat) (s : state A) :
  Inv outcomes s -> Inv outcomes (fold_left (step outcomes) schedule s).
Proof.
  revert s. induction schedule as [|i rest IH]; intros s H; simpl; [exact H|].
  apply IH. now apply Inv_step.
Qed.

Lemma step_filled_mono (s : state A) (i j : nat) :
  filled s j -> filled (step outcomes s i) j.
Proof.
  intros [w Hw]. unfold step.
  destruct (outcomes !! i) as [[|v|e]|]; try (now exists w).
  destruct (values s !! i) as [[x|]|] eqn:Ev; try (now exists w).
  exists w. cbn [values].
  rewrite list_lookup_insert_ne; [exact Hw|]. intros ->. congruence.
Qed.

Lemma step_fills (s : state A) (i : nat) (v : A) :
  Inv outcomes s -> outcomes !! i = Some (Fulfilled v) -> filled (step outcomes s i) i.
Proof.
  intros [Hlen _ _] Ho. unfold step. rewrite Ho.
  assert (Hi : (i < length (values s))%nat)
    by (rewrite Hlen; now apply lookup_lt_Some in Ho).
  destruct (values s !! i) as [[x|]|] eqn:Ev.
  - now exists x.
  - exists v. cbn [values]. now apply list_lookup_insert_eq.
  - apply lookup_ge_None in Ev. lia.
Qed.

Lemma run_filled (schedule : list nat) (s : state A) :
  Inv outcomes s ->
  (forall j, filled s j -> filled (fold_left (step outcomes) schedule s) j)
  /\ (forall j v, In j schedule -> outcomes !! j = Some (Fulfilled v) ->
                  filled (fold_left (step outcomes) schedule s) j).
Proof.
  revert s. induction schedule as [|i rest IH]; intros s H; simpl.
  - split; [auto|]. intros j v [].
  - destruct (IH (step outcomes s i) (Inv_step s i H)) as [Hmono Hnew]. split.
    + intros j Hj. apply Hmono. now apply step_filled_mono.
    + intros j v [<-|Hin] Ho.
      * apply Hmono. now apply (step_fills s i v).
      * now apply (Hnew j v).
Qed.

(** Once rejected, the joint promise stays as it is. *)
Lemma run_rejected (schedule : list nat) (s : state A) (e : str) :
  promise s = Rejected e ->
  promise (fold_left (step outcomes) schedule s) = Rejected e.
Proof.
  revert s. induction schedule as [|i rest IH]; intros s H; simpl; [exact H|].
  apply IH. unfold step.
  destruct (outcomes !! i) as [[|v|e']|]; try exact H.
  - destruct (values s !! i) as [[x|]|]; try exact H.
    cbn [promise]. destruct (collect _); rewrite H; reflexivity.
  - cbn [promise]. now rewrite H.
Qed.

(** No joint promise is fulfilled while one of the promises rejects. *)
Lemma fulfilled_no_rejection (s : state A) (l : list A) (k : nat) (e : str) :
  Inv outcomes s -> promise s = Fulfilled l -> outcomes !! k <> Some (Rejected e).
Proof.
  intros [Hlen Hval Hpro] Hp Hk. rewrite Hp in Hpro.
  apply collect_Some in Hpro.
  assert (Hlt : (k < length (values s))%nat)
    by (rewrite Hlen; now apply lookup_lt_Some in Hk).
  rewrite Hpro, length_map in Hlt.
  destruct (lookup_lt_is_Some_2 l k Hlt) as [x Hx].
  assert (Hv : values s !! k = Some (Some x))
    by (rewrite Hpro, list_lookup_fmap, Hx; reflexivity).
  apply Hval in Hv. congruence.
Qed.

Lemma first_rejected_Some (schedule : list nat) (e : str) :
  first_rejected outcomes schedule = Some e ->
  exists k, In k schedule /\ outcomes !! k = Some (Rejected e).
Proof.
  induction schedule as [|i rest IH]; simpl; [discriminate|].
  destruct (outcomes !! i) as [[|v|e']|] eqn:Eo;
    try (intros H; destruct (IH H) as [k [Hin Hk]]; exists k; now auto).
  intros [= ->]. exists i. auto.
Qed.

Lemma first_rejected_exists (schedule : list nat) (k : nat) (e : str) :
  In k schedule -> outcomes !! k = Some (Rejected e) ->
  exists e', first_rejected outcomes schedule = Some e'.
Proof.
  induction schedule as [|i rest IH]; simpl; [intros []|].
  intros [<-|Hin] Hk.
  - rewrite Hk. eauto.
  - destruct (outcomes !! i) as [[|v|e']|]; eauto.
Qed.

Lemma run_first_rejected (schedule : list nat) (s : state A) (e : str) :
  Inv outcomes s -> promise s = Pending ->
  first_rejected outcomes schedule = Some e ->
  promise (fold_left (step outcomes) schedule s) = Rejected e.
Proof.
  revert s. induction schedule as [|i rest IH]; intros s HI Hp Hf; simpl in *;
    [discriminate|].
  pose proof (Inv_step s i HI) as HI'.
  destruct (outcomes !! i) as [[|v|e']|] eqn:Eo.
  - apply IH; auto; unfold step; rewrite Eo; assumption.
  - destruct (first_rejected_Some rest e Hf) as [k [_ Hk]].
    apply IH; auto.
    destruct (promise (step outcomes s i)) as [|l|e'] eqn:Ep; [reflexivity| |].
    + destruct (fulfilled_no_rejection _ l k e HI' Ep Hk).
    + exfalso. revert Ep. unfold step. rewrite Eo.
      destruct (values s !! i) as [[x|]|]; try congruence.
      cbn [promise]. rewrite Hp. destruct (collect _); cbn; congruence.
  - injection Hf as ->. apply run_rejected.
    unfold step. rewrite Eo. cbn [promise]. now rewrite Hp.
  - apply IH; auto. unfold step. rewrite Eo. assumption.
Qed.

(** The first promise of the schedule to reject decides the joint
    promise. *)
Lemma all_rejected (schedule : list nat) (e : str) :
  first_rejected outcomes schedule = Some e ->
  all outcomes schedule = Rejected e.
Proof.
  intros Hf. unfold all. apply run_first_rejected; auto using Inv_init.
  destruct (first_rejected_Some schedule e Hf) as [k [_ Hk]].
  unfold init. destruct outcomes; [discriminate|reflexivity].
Qed.

End PromiseAllFacts.

(** When every promise is fulfilled and every one settles, the joint
    promise is fulfilled with the values in the order of the promises,
    whatever the order of the schedule. *)
Lemma all_fulfilled {A} (vs : list A) (schedule : list nat) :
  complete (length vs) schedule ->
  PromiseAll.all (List.map Fulfilled vs) schedule = Fulfilled vs.
Proof.
  intros Hc. unfold PromiseAll.all.
  set (outcomes := List.map Fulfilled vs).
  set (s := fold_left (PromiseAll.step outcomes) schedule (PromiseAll.init outcomes)).
  assert (HI : PromiseAll.Inv outcomes s) by (apply Inv_run, Inv_init).
  destruct (run_filled outcomes schedule (PromiseAll.init outcomes) (Inv_init outcomes))
    as [_ Hfill]. fold s in Hfill.
  assert (Hvalues : PromiseAll.values s = List.map Some vs).
  { apply list_eq. intros j. rewrite list_lookup_fmap.
    destruct (vs !! j) as [v|] eqn:Ev; cbn.
    - assert (Ho : outcomes !! j = Some (Fulfilled v))
        by (unfold outcomes; rewrite list_lookup_fmap, Ev; reflexivity).
      destruct (Hfill j v) as [w Hw]; [apply Hc; now apply lookup_lt_Some in Ev|exact Ho|].
      rewrite Hw. apply (PromiseAll.inv_values _ _ HI) in Hw. congruence.
    - apply lookup_ge_None. apply lookup_ge_None in Ev.
      rewrite (PromiseAll.inv_length _ _ HI). unfold outcomes. rewrite length_map. exact Ev. }
  pose proof (PromiseAll.inv_promise _ _ HI) as Hp.
  assert (Hcollect : PromiseAll.collect (PromiseAll.values s) = Some vs)
    by now apply collect_Some.
  destruct (PromiseAll.promise s) as [|l|e].
  - congruence.
  - congruence.
  - destruct Hp as [i Hi]. unfold outcomes in Hi. rewrite list_lookup_fmap in Hi.
    destruct (vs !! i); discriminate.
Qed.

Lemma complete_permutation (n : nat) (schedule : list nat) :
  Permutation schedule (seq 0 n) -> complete n schedule.
Proof.
  intros H i Hi. apply (Permutation_in i (Permutation_sym H)).
  apply in_seq. lia.
Qed.

Lemma Forall_exists_Forall2 {A B} (P : A -> B -> Prop) (l : list A) :
  Forall (fun x => exists y, P x y) l -> exists l', Forall2 P l l'.
Proof.
  induction 1 as [|x l [y Hy] _ [l' IH]].
  - exists []. constructor.
  - exists (y :: l'). now constructor.
Qed.

(** ** Comparing downloads *)

Section CompareFacts.

Context (enc : str -> str) (fetch : str -> Promise (Response PointBody.t)) (period : str).

Lemma getDownloads_log name log :
  getDownloads enc fetch name period log
  = (run (getDownloads enc fetch name period),
     log ++ (if well_formed name
             then [API ++ lit "/downloads/point/" ++ period ++ lit "/" ++ enc name]
             else [])).
Proof.
  unfold getDownloads. unfold_async. destruct (well_formed name); cbn beta iota zeta.
  - destruct (fetch _) as [|[[] ? ? ?]|?]; reflexivity.
  - now rewrite app_nil_r.
Qed.

(** The calls are made in the order of the list, one request for each
    name that can be encoded. *)
Lemma map_async_getDownloads packages log :
  map_async (fun pkg => getDownloads enc fetch pkg period) packages log
  = (List.map (fun pkg => run (getDownloads enc fetch pkg period)) packages,
     log ++ List.map (fun pkg => API ++ lit "/downloads/point/" ++ period ++ lit "/" ++ enc pkg)
                     (List.filter well_formed packages)).
Proof.
  revert log. induction packages as [|pkg packages IH]; intros log; simpl.
  - now rewrite app_nil_r.
  - rewrite getDownloads_log, IH.
    destruct (well_formed pkg); cbn [List.map]; now rewrite <- app_assoc.
Qed.

Lemma compareDownloads_eq packages schedule log :
  compareDownloads enc fetch packages period schedule log
  = (PromiseAll.all (List.map (fun pkg => run (getDownloads enc fetch pkg period)) packages)
       schedule,
     log ++ List.map (fun pkg => API ++ lit "/downloads/point/" ++ period ++ lit "/" ++ enc pkg)
                     (List.filter well_formed packages)).
Proof.
  unfold compareDownloads. rewrite map_async_getDownloads.
  unfold bind, Promise_all, ret. now destruct (PromiseAll.all _ schedule).
Qed.

Lemma compareDownloads_requests packages schedule :
  requests (compareDownloads enc fetch packages period schedule)
  = List.map (fun pkg => API ++ lit "/downloads/point/" ++ period ++ lit "/" ++ enc pkg)
             (List.filter well_formed packages).
Proof. unfold requests. now rewrite compareDownloads_eq. Qed.

Lemma filter_all {A} (f : A -> bool) (l : list A) :
  Forall (fun x => f x = true) l -> List.filter f l = l.
Proof.
  induction 1 as [|x l Hx _ IH]; [reflexivity|]. cbn [List.filter]. now rewrite Hx, IH.
Qed.

Lemma compareDownloads_fulfilled packages schedule results :
  complete (length packages) schedule ->
  Forall2 (fun pkg stats => run (getDownloads enc fetch pkg period) = Fulfilled stats)
          packages results ->
  run (compareDownloads enc fetch packages period schedule) = Fulfilled results.
Proof.
  intros Hc H. unfold run. rewrite compareDownloads_eq. cbn [fst].
  assert (E : List.map (fun pkg => run (getDownloads enc fetch pkg period)) packages
              = List.map Fulfilled results).
  { clear Hc. induction H as [|pkg stats packages results Hx _ IH]; [reflexivity|].
    simpl. now rewrite Hx, IH. }
  rewrite E. apply all_fulfilled.
  now rewrite <- (Forall2_length _ _ _ H).
Qed.

Lemma compareDownloads_rejected packages schedule message :
  first_rejected (List.map (fun pkg => run (getDownloads enc fetch pkg period)) packages)
                 schedule = Some message ->
  run (compareDownloads enc fetch packages period schedule) = Rejected message.
Proof.
  intros H. unfold run. rewrite compareDownloads_eq. cbn [fst].
  now apply all_rejected.
Qed.

End CompareFacts.

(** C3: when every fetch succeeds, [compareDownloads] returns one
    [DownloadStats] for each package of the input, the one at index [i]
    being what [getDownloads] gives for the package at index [i], in
    whatever order the fetches complete. *)
Theorem compareDownloads_order enc fetch packages period schedule :
  complete (length packages) schedule ->
  Forall (fun pkg => exists stats,
              run (getDownloads enc fetch pkg period) = Fulfilled stats) packages ->
  exists results,
    run (compareDownloads enc fetch packages period schedule) = Fulfilled results
    /\ length results = length packages
    /\ forall i pkg,
         packages !! i = Some pkg ->
         exists stats,
           results !! i = Some stats
           /\ run (getDownloads enc fetch pkg period) = Fulfilled stats.
Proof.
  intros Hc Hall.
  destruct (Forall_exists_Forall2 _ _ Hall) as [results H2].
  exists results. split; [now apply compareDownloads_fulfilled|].
  split; [symmetry; apply (Forall2_length _ _ _ H2)|].
  intros i pkg Hi. apply (Forall2_lookup_l _ _ _ _ _ H2 Hi).
Qed.

Lemma compareDownloads_order_witness :
  run (compareDownloads Sample.percent_encode Sample.downloads_api
         [lit "zustand"; lit "jotai"] (lit "last-month") [1; 0]%nat)
  = Fulfilled [Sample.zustand_result; Sample.jotai_result]
  /\ exists results,
       run (compareDownloads Sample.percent_encode Sample.downloads_api
              [lit "zustand"; lit "jotai"] (lit "last-month") [1; 0]%nat)
       = Fulfilled results
       /\ length results = 2%nat
       /\ forall i pkg,
            [lit "zustand"; lit "jotai"] !! i = Some pkg ->
            exists stats,
              results !! i = Some stats
              /\ run (getDownloads Sample.percent_encode Sample.downloads_api pkg
                        (lit "last-month")) = Fulfilled stats.
Proof.
  split; [reflexivity|].
  apply (compareDownloads_order Sample.percent_encode Sample.downloads_api
           [lit "zustand"; lit "jotai"] (lit "last-month") [1; 0]%nat).
  - intros i Hi. destruct i as [|[|i]]; simpl in *; [auto|auto|lia].
  - repeat constructor; eexists; reflexivity.
Defined.

(** C4, as stated, fails.  The fetch for [alpha] fails with the status
    500, and when the fetch for [beta] has failed before it, with the
    status 404, the comparison fails with the error of [beta], not with
    that error. *)
Lemma compareDownloads_other_error :
  run (getDownloads Sample.percent_encode Sample.failing_api (lit "alpha") (lit "last-month"))
  = Rejected (lit "API error (500): Internal error")
  /\ run (compareDownloads Sample.percent_encode Sample.failing_api
            [lit "alpha"; lit "beta"] (lit "last-month") [1; 0]%nat)
     = Rejected (lit "API error (404): Not found")
  /\ run (compareDownloads Sample.percent_encode Sample.failing_api
            [lit "alpha"; lit "beta"] (lit "last-month") [1; 0]%nat)
     <> Rejected (lit "API error (500): Internal error").
Proof.
  split; [reflexivity|]. split; [reflexivity|]. vm_compute. discriminate.
Qed.

(** C4, amended: when the fetch for a package fails, [compareDownloads]
    fails as a whole, with the error of the first fetch to fail in the
    order of completion, which is the error of the fetch for one of the
    packages, and the error of that package when no other error
    differs from it.  The promise is rejected, so no sequence of
    results is returned, not in part either. *)
Theorem compareDownloads_fails enc fetch packages period schedule i pkg message :
  packages !! i = Some pkg ->
  run (getDownloads enc fetch pkg period) = Rejected message ->
  In i schedule ->
  exists message',
    run (compareDownloads enc fetch packages period schedule) = Rejected message'
    /\ (forall results,
           run (compareDownloads enc fetch packages period schedule) <> Fulfilled results)
    /\ first_rejected
         (List.map (fun pkg => run (getDownloads enc fetch pkg period)) packages)
         schedule = Some message'
    /\ (exists pkg', In pkg' packages
                     /\ run (getDownloads enc fetch pkg' period) = Rejected message')
    /\ ((forall pkg' m, In pkg' packages ->
                        run (getDownloads enc fetch pkg' period) = Rejected m ->
                        m = message) ->
        message' = message).
Proof.
  intros Hi Hfail Hin.
  set (outcomes := List.map (fun pkg => run (getDownloads enc fetch pkg period)) packages).
  assert (Ho : outcomes !! i = Some (Rejected message))
    by (unfold outcomes; rewrite list_lookup_fmap, Hi; cbn; now rewrite Hfail).
  destruct (first_rejected_exists outcomes schedule i message Hin Ho) as [e He].
  pose proof (compareDownloads_rejected enc fetch period packages schedule e He) as Hrun.
  exists e. split; [exact Hrun|]. split; [intros results; rewrite Hrun; discriminate|].
  split; [exact He|].
  destruct (first_rejected_Some outcomes schedule e He) as [k [_ Hk]].
  unfold outcomes in Hk. rewrite list_lookup_fmap in Hk.
  destruct (packages !! k) as [pkg'|] eqn:Ek; [|discriminate].
  injection Hk as Hk.
  assert (Hpkg' : In pkg' packages)
    by (apply list_elem_of_In, list_elem_of_lookup; eauto).
  split; [eauto|]. intros Hsame. now apply (Hsame pkg' e).
Qed.

Lemma compareDownloads_fails_witness :
  run (compareDownloads Sample.percent_encode Sample.downloads_api
         [lit "zustand"; lit "no-such-package"] (lit "last-month") [1; 0]%nat)
  = Rejected (lit "API error (404): Not found")
  /\ exists message',
       run (compareDownloads Sample.percent_encode Sample.downloads_api
              [lit "zustand"; lit "no-such-package"] (lit "last-month") [1; 0]%nat)
       = Rejected message'.
Proof.
  split; [reflexivity|].
  destruct (compareDownloads_fails Sample.percent_encode Sample.downloads_api
              [lit "zustand"; lit "no-such-package"] (lit "last-month") [1; 0]%nat
              1%nat (lit "no-such-package") (lit "API error (404): Not found"))
    as [message' [H _]].
  - reflexivity.
  - reflexivity.
  - left. reflexivity.
  - exists message'. exact H.
Defined.

(** C10, as stated, fails.  For a list of one name that is a lone
    surrogate, [encodeURIComponent] throws before any fetch is issued:
    the comparison makes no request, and fails. *)
Lemma compareDownloads_no_fetch :
  length [Sample.lone_surrogate] = 1%nat
  /\ requests (compareDownloads Sample.percent_encode Sample.downloads_api
                 [Sample.lone_surrogate] (lit "last-month") [0%nat])
     = []
  /\ run (compareDownloads Sample.percent_encode Sample.downloads_api
            [Sample.lone_surrogate] (lit "last-month") [0%nat])
     = Rejected URIError.
Proof. repeat split; reflexivity. Qed.

(** C10, amended: [compareDownloads] does not look at the length of the
    list.  For every list of well-formed names it makes one request for
    each name, in the order of the list, and for every list, when every
    fetch succeeds, it returns as many [DownloadStats] as there are
    names; for the empty list it returns the empty sequence and makes
    no request.  For a name that is not well formed no request is
    made. *)
Theorem compareDownloads_any_length enc fetch period schedule :
  (forall packages,
      Forall (fun pkg => well_formed pkg = true) packages ->
      requests (compareDownloads enc fetch packages period schedule)
      = List.map (fun pkg => API ++ lit "/downloads/point/" ++ period ++ lit "/" ++ enc pkg)
                 packages
      /\ length (requests (compareDownloads enc fetch packages period schedule))
         = length packages)
  /\ (forall packages,
         requests (compareDownloads enc fetch packages period schedule)
         = List.map (fun pkg => API ++ lit "/downloads/point/" ++ period ++ lit "/" ++ enc pkg)
                    (List.filter well_formed packages))
  /\ (forall packages,
         complete (length packages) schedule ->
         Forall (fun pkg => exists stats,
                     run (getDownloads enc fetch pkg period) = Fulfilled stats) packages ->
         exists results,
           run (compareDownloads enc fetch packages period schedule) = Fulfilled results
           /\ length results = length packages)
  /\ run (compareDownloads enc fetch [] period schedule) = Fulfilled []
  /\ requests (compareDownloads enc fetch [] period schedule) = [].
Proof.
  split; [|split; [|split; [|split]]].
  - intros packages Hwf. rewrite compareDownloads_requests, (filter_all _ _ Hwf).
    split; [reflexivity|]. apply length_map.
  - intros packages. apply compareDownloads_requests.
  - intros packages Hc Hall.
    destruct (Forall_exists_Forall2 _ _ Hall) as [results H2].
    exists results. split; [now apply compareDownloads_fulfilled|].
    symmetry. apply (Forall2_length _ _ _ H2).
  - apply compareDownloads_fulfilled; [|constructor].
    intros i Hi. simpl in Hi. lia.
  - now rewrite compareDownloads_requests.
Qed.

Lemma compareDownloads_any_length_witness :
  length (requests (compareDownloads Sample.percent_encode Sample.downloads_api
                      Sample.eleven_packages (lit "last-week") (seq 0 11)))
  = 11%nat
  /\ (exists results,
         run (compareDownloads Sample.percent_encode Sample.downloads_api
                Sample.eleven_packages (lit "last-week") (seq 0 11))
         = Fulfilled results
         /\ length results = 11%nat)
  /\ exists results,
       run (compareDownloads Sample.percent_encode Sample.downloads_api
              [lit "jotai"] (lit "last-week") [0%nat])
       = Fulfilled results
       /\ length results = 1%nat.
Proof.
  pose proof (compareDownloads_any_length Sample.percent_encode Sample.downloads_api
                (lit "last-week") (seq 0 11)) as [Hreq [_ [Hall _]]].
  pose proof (compareDownloads_any_length Sample.percent_encode Sample.downloads_api
                (lit "last-week") [0%nat]) as [_ [_ [Hone _]]].
  split; [|split].
  - apply (Hreq Sample.eleven_packages).
    unfold Sample.eleven_packages. simpl repeat. repeat constructor.
  - apply (Hall Sample.eleven_packages).
    + apply complete_permutation. reflexivity.
    + unfold Sample.eleven_packages. simpl repeat.
      repeat constructor; eexists; reflexivity.
  - apply (Hone [lit "jotai"]).
    + intros i Hi. destruct i as [|i]; simpl in *; [auto|lia].
    + repeat constructor; eexists; reflexivity.
Defined.

(** ** The tests of the repository and the scenario of the specification *)

Example getPackageInfo_express :
  run (getPackageInfo Sample.percent_encode (Sample.always (Sample.found Sample.express_doc))
         (lit "express"))
  = Fulfilled
      (PackageInfo.mk (lit "express") (lit "4.18.0") (lit "Fast web framework")
         [lit "web"; lit "framework"] (lit "MIT") (lit "https://expressjs.com")
         (lit "https://github.com/expressjs/express")
         [(lit "debug", lit "2.6.9")] [(lit "eslint", lit "8.0.0")]).
Proof. reflexivity. Qed.

Example getDependencyTree_next :
  run (getDependencyTree Sample.percent_encode (Sample.always (Sample.found Sample.next_doc))
         (lit "next"))
  = Fulfilled
      (lit "next@14.0.0" ++ [10; 10]%N
         ++ lit "dependencies:" ++ [10%N]
         ++ [9500; 9472; 9472; 32]%N ++ lit "react@18.0.0" ++ [10%N]
         ++ [9500; 9472; 9472; 32]%N ++ lit "react-dom@18.0.0" ++ [10; 10]%N
         ++ lit "devDependencies:" ++ [10%N]
         ++ [9500; 9472; 9472; 32]%N ++ lit "typescript@5.0.0").
Proof. reflexivity. Qed.

Example getDependencyTree_no_dependencies :
  run (getDependencyTree Sample.percent_encode (Sample.always (Sample.found Sample.dangling_doc))
         (lit "dangling"))
  = Fulfilled (lit "dangling@2.0.0" ++ [10; 10]%N ++ lit "(no dependencies)").
Proof. reflexivity. Qed.

Example getDownloadTrends_typescript :
  run (getDownloadTrends Sample.percent_encode Sample.en_US
         (Sample.always (Sample.found Sample.typescript_range))
         (lit "typescript") (lit "last-month"))
  = Fulfilled
      (lit "## typescript" ++ [32; 8212; 32]%N ++ lit "2025-01-01 to 2025-01-14" ++ [10%N]
         ++ lit "Total: 4,500 | Avg/day: 1,500 | Min: 1,000 | Max: 2,000" ++ [10%N]
         ++ lit "Trend: " ++ [9604; 9606; 9608]%N ++ [10%N]
         ++ lit "| Day | Downloads |" ++ [10%N]
         ++ lit "|-----|-----------|" ++ [10%N]
         ++ lit "| 2025-01-01 | 1,000 |" ++ [10%N]
         ++ lit "| 2025-01-02 | 1,500 |" ++ [10%N]
         ++ lit "| 2025-01-03 | 2,000 |").
Proof. reflexivity. Qed.

Example getVulnerabilities_not_found :
  run (getVulnerabilities Sample.percent_encode
         (Sample.always (Sample.not_found Sample.express_doc)) (lit "nonexistent"))
  = Rejected (lit "Could not fetch package info for vulnerability check: "
                ++ lit "API error (404): Not found").
Proof. reflexivity. Qed.

(** A request that the network fails rejects the comparison with the
    error of the network; one that never gets an answer leaves the
    comparison pending, whatever the other requests give. *)
Example compareDownloads_network_failure :
  run (compareDownloads Sample.percent_encode Sample.flaky_api
         [lit "zustand"; lit "jotai"] (lit "last-month") [0; 1]%nat)
  = Rejected (lit "fetch failed").
Proof. reflexivity. Qed.

Example compareDownloads_hangs :
  run (compareDownloads Sample.percent_encode Sample.flaky_api
         [lit "zustand"; lit "valtio"] (lit "last-month") [0]%nat)
  = Pending.
Proof. reflexivity. Qed.

(** * Further properties of [npm-api] *)

(** ** The repository string and the package spec *)

(** X1: stripping undoes wrapping: a URL put between [git+] and [.git]
    comes back as it was. *)
Theorem normalizeRepository_wrap (u : str) :
  normalizeRepository (lit "git+" ++ u ++ lit ".git") = u.
Proof.
  unfold normalizeRepository, replace_start. rewrite strip_prefix_app.
  unfold replace_end. now rewrite strip_suffix_app.
Qed.

(** X2: the repository string is the input less at most one leading
    [git+] and at most one trailing [.git], and nothing else of the
    input changes; an input with neither is returned as it is. *)
Theorem normalizeRepository_inside (s : str) :
  (exists p q, s = p ++ normalizeRepository s ++ q
               /\ (p = [] \/ p = lit "git+")
               /\ (q = [] \/ q = lit ".git"))
  /\ (startsWith (lit "git+") s = false ->
      endsWith (lit ".git") s = false ->
      normalizeRepository s = s).
Proof.
  unfold normalizeRepository. split.
  - destruct (replace_start_cases (lit "git+") s) as [[_ Es]|Es];
      destruct (replace_end_cases (lit ".git") (replace_start (lit "git+") s))
        as [[_ Et]|Et].
    + exists [], []. rewrite Et, Es, app_nil_r. auto.
    + exists [], (lit ".git"). rewrite <- Et, Es. auto.
    + exists (lit "git+"), []. rewrite Et, app_nil_r. auto.
    + exists (lit "git+"), (lit ".git"). rewrite <- Et. auto.
  - intros Hp Hq. apply startsWith_false in Hp.
    unfold replace_start. rewrite Hp.
    apply endsWith_false in Hq. unfold replace_end. now rewrite Hq.
Qed.

Lemma normalizeRepository_inside_witness :
  normalizeRepository (lit "https://github.com/lodash/lodash")
  = lit "https://github.com/lodash/lodash".
Proof.
  apply (proj2 (normalizeRepository_inside (lit "https://github.com/lodash/lodash")));
    reflexivity.
Defined.

Lemma includes_app (c : char) (a b : str) :
  includes c (a ++ b) = includes c a || includes c b.
Proof. unfold includes. apply existsb_app. Qed.

(** X3: the package spec always contains an [@], begins with the input,
    and computing the spec of a spec changes nothing. *)
Theorem pkgSpec_fixed (name : str) :
  includes 64%N (pkgSpec name) = true
  /\ pkgSpec (pkgSpec name) = pkgSpec name
  /\ exists suffix, pkgSpec name = name ++ suffix.
Proof.
  assert (H : includes 64%N (pkgSpec name) = true).
  { unfold pkgSpec. destruct (includes 64%N name) eqn:E; [exact E|].
    rewrite includes_app, E. reflexivity. }
  split; [exact H|]. split.
  - unfold pkgSpec at 1. now rewrite H.
  - unfold pkgSpec. destruct (includes 64%N name).
    + exists []. now rewrite app_nil_r.
    + eexists. reflexivity.
Qed.

(** ** Package documents *)

(** X4: only the entry of [versions] under the version looked up counts:
    an entry added or replaced under any other key leaves the whole
    result of [getPackageInfo] as it was. *)
Theorem getPackageInfo_other_versions enc fetch fetch' name r other data :
  fetch (REGISTRY ++ lit "/" ++ enc name) = Fulfilled r ->
  fetch' (REGISTRY ++ lit "/" ++ enc name)
  = Fulfilled (with_json r (with_version (json r) other data)) ->
  other <> latest_tag (json r) ?? [] ->
  run (getPackageInfo enc fetch' name) = run (getPackageInfo enc fetch name).
Proof.
  intros Hr Hr' Hne. unfold getPackageInfo. unfold_async.
  destruct (well_formed name); [|reflexivity]. cbn beta iota zeta.
  rewrite Hr, Hr'. cbn beta iota zeta. cbn [ok with_json status text json].
  destruct (ok r); cbn; [|reflexivity].
  unfold latest_tag in Hne.
  rewrite lookup_insert_ne by exact Hne.
  destruct (PackageDoc.versions (json r)) as [vs|]; cbn.
  - reflexivity.
  - rewrite lookup_empty. reflexivity.
Qed.

Lemma getPackageInfo_other_versions_witness :
  run (getPackageInfo Sample.percent_encode
         (Sample.always
            (with_json (Sample.found Sample.express_doc)
               (with_version Sample.express_doc (lit "5.0.0")
                  (PackageDoc.mk_version (Some [(lit "router", lit "2.0.0")]) None))))
         (lit "express"))
  = run (getPackageInfo Sample.percent_encode
           (Sample.always (Sample.found Sample.express_doc)) (lit "express")).
Proof.
  apply (getPackageInfo_other_versions Sample.percent_encode
           (Sample.always (Sample.found Sample.express_doc)) _ (lit "express")
           (Sample.found Sample.express_doc) (lit "5.0.0")
           (PackageDoc.mk_version (Some [(lit "router", lit "2.0.0")]) None)).
  - reflexivity.
  - reflexivity.
  - vm_compute. discriminate.
Defined.

(** X5: a document that has a name and nothing else is accepted: the
    version, the description, the homepage and the repository are
    empty, the license is [Unknown], and there are no keywords and no
    dependencies.  The document is the answer to the request for a
    name that [encodeURIComponent] accepts. *)
Theorem getPackageInfo_minimal enc fetch name r n :
  well_formed name = true ->
  fetch (REGISTRY ++ lit "/" ++ enc name) = Fulfilled r ->
  ok r = true ->
  json r = PackageDoc.mk n None None None None None None None ->
  run (getPackageInfo enc fetch name)
  = Fulfilled (PackageInfo.mk n [] [] [] (lit "Unknown") [] [] [] []).
Proof.
  intros Hwf Hr Hok Hdoc. unfold getPackageInfo. unfold_async. rewrite Hwf.
  cbn beta iota zeta. rewrite Hr. cbn beta iota zeta. rewrite Hok, Hdoc. reflexivity.
Qed.

Lemma getPackageInfo_minimal_witness :
  run (getPackageInfo Sample.percent_encode
         (Sample.always (Sample.found Case.minimal_doc)) (lit "tiny"))
  = Fulfilled (PackageInfo.mk (lit "tiny") [] [] [] (lit "Unknown") [] [] [] []).
Proof.
  apply (getPackageInfo_minimal Sample.percent_encode
           (Sample.always (Sample.found Case.minimal_doc)) (lit "tiny")
           (Sample.found Case.minimal_doc) (lit "tiny")); reflexivity.
Defined.

(** ** The joint promise, read backwards *)

Section PromiseAllConverse.

Context {A : Type} (outcomes : list (Promise A)).

Import PromiseAll.

(** A joint promise is fulfilled only with the values of promises that
    are all fulfilled. *)
Lemma all_fulfilled_inv (schedule : list nat) (l : list A) :
  all outcomes schedule = Fulfilled l -> outcomes = List.map Fulfilled l.
Proof.
  unfold all. intros Hp.
  set (s := fold_left (step outcomes) schedule (init outcomes)) in *.
  assert (HI : Inv outcomes s) by (apply Inv_run, Inv_init).
  pose proof (inv_promise _ _ HI) as Hc. rewrite Hp in Hc.
  apply collect_Some in Hc.
  pose proof (inv_length _ _ HI) as Hlen. rewrite Hc, length_map in Hlen.
  apply list_eq. intros i. rewrite list_lookup_fmap.
  destruct (l !! i) as [v|] eqn:El; cbn.
  - apply (inv_values _ _ HI). now rewrite Hc, list_lookup_fmap, El.
  - apply lookup_ge_None. apply lookup_ge_None in El. lia.
Qed.

Lemma step_not_rejected (s : state A) (i : nat) :
  (forall e, outcomes !! i <> Some (Rejected e)) ->
  (forall e, promise s <> Rejected e) ->
  forall e, promise (step outcomes s i) <> Rejected e.
Proof.
  intros Ho Hs e. unfold step.
  destruct (outcomes !! i) as [[|v|e']|] eqn:Eo; try apply Hs.
  - destruct (values s !! i) as [[x|]|]; try apply Hs.
    cbn [promise]. destruct (collect _); [|apply Hs].
    destruct (promise s) eqn:Ep; cbn; try discriminate.
    intros H. now apply (Hs e).
  - now destruct (Ho e').
Qed.

Lemma run_not_rejected (schedule : list nat) (s : state A) :
  first_rejected outcomes schedule = None ->
  (forall e, promise s <> Rejected e) ->
  forall e, promise (fold_left (step outcomes) schedule s) <> Rejected e.
Proof.
  revert s. induction schedule as [|i rest IH]; intros s Hf Hs; simpl in *; [exact Hs|].
  assert (Ho : forall e, outcomes !! i <> Some (Rejected e)).
  { intros e He. rewrite He in Hf. discriminate. }
  apply IH.
  - destruct (outcomes !! i) as [[|v|e']|]; try exact Hf. now destruct (Ho e').
  - now apply step_not_rejected.
Qed.

(** A joint promise is rejected only with the message of the first
    promise of the schedule to reject. *)
Lemma all_rejected_inv (schedule : list nat) (e : str) :
  all outcomes schedule = Rejected e -> first_rejected outcomes schedule = Some e.
Proof.
  intros Hp. destruct (first_rejected outcomes schedule) as [e'|] eqn:Ef.
  - rewrite (all_rejected outcomes schedule e' Ef) in Hp. congruence.
  - exfalso. revert Hp. unfold all. apply run_not_rejected; [exact Ef|].
    intros e'. unfold init. destruct outcomes; discriminate.
Qed.

End PromiseAllConverse.

(** ** Comparing downloads, read backwards *)

Section CompareConverse.

Context (enc : str -> str) (fetch : str -> Promise (Response PointBody.t)) (period : str).

Lemma compareDownloads_fulfilled_inv packages schedule results :
  run (compareDownloads enc fetch packages period schedule) = Fulfilled results ->
  Forall2 (fun pkg stats => run (getDownloads enc fetch pkg period) = Fulfilled stats)
          packages results.
Proof.
  unfold run at 1. rewrite compareDownloads_eq. cbn [fst]. intros H.
  apply all_fulfilled_inv in H.
  revert results H. induction packages as [|pkg packages IH]; intros results H.
  - destruct results; [constructor|discriminate].
  - destruct results as [|stats results]; [discriminate|].
    cbn [List.map] in H. injection H as H1 H2. constructor; auto.
Qed.

Lemma compareDownloads_rejected_inv packages schedule message :
  run (compareDownloads enc fetch packages period schedule) = Rejected message ->
  first_rejected
    (List.map (fun pkg => run (getDownloads enc fetch pkg period)) packages)
    schedule = Some message.
Proof.
  unfold run at 1. rewrite compareDownloads_eq. cbn [fst]. apply all_rejected_inv.
Qed.

End CompareConverse.

(** X6: no partial result: when [compareDownloads] returns a sequence,
    in whatever order and however far the fetches completed, every
    fetch has succeeded and the sequence holds the statistics of every
    package, in the order of the input. *)
Theorem compareDownloads_no_partial enc fetch packages period schedule results :
  run (compareDownloads enc fetch packages period schedule) = Fulfilled results ->
  Forall2 (fun pkg stats => run (getDownloads enc fetch pkg period) = Fulfilled stats)
          packages results.
Proof. apply compareDownloads_fulfilled_inv. Qed.

Lemma compareDownloads_no_partial_witness :
  Forall2 (fun pkg stats =>
             run (getDownloads Sample.percent_encode Sample.downloads_api pkg
                    (lit "last-month")) = Fulfilled stats)
          [lit "zustand"; lit "jotai"] [Sample.zustand_result; Sample.jotai_result].
Proof.
  apply (compareDownloads_no_partial Sample.percent_encode Sample.downloads_api
           [lit "zustand"; lit "jotai"] (lit "last-month") [1; 0]%nat).
  reflexivity.
Defined.

(** X7: [compareDownloads] fails exactly when a fetch whose completion
    the schedule holds has failed, with the error of the first of them;
    so its error is always the error of the fetch for one of the
    packages, never one of its own. *)
Theorem compareDownloads_rejected_iff enc fetch packages period schedule message :
  (run (compareDownloads enc fetch packages period schedule) = Rejected message
   <-> first_rejected
         (List.map (fun pkg => run (getDownloads enc fetch pkg period)) packages)
         schedule = Some message)
  /\ (run (compareDownloads enc fetch packages period schedule) = Rejected message ->
      exists i pkg,
        In i schedule /\ packages !! i = Some pkg
        /\ run (getDownloads enc fetch pkg period) = Rejected message).
Proof.
  assert (Hiff : run (compareDownloads enc fetch packages period schedule)
                 = Rejected message
                 <-> first_rejected
                       (List.map (fun pkg => run (getDownloads enc fetch pkg period))
                                 packages)
                       schedule = Some message).
  { split.
    - apply compareDownloads_rejected_inv.
    - apply compareDownloads_rejected. }
  split; [exact Hiff|].
  intros H. apply Hiff in H.
  destruct (first_rejected_Some _ _ _ H) as [k [Hin Hk]].
  rewrite list_lookup_fmap in Hk.
  destruct (packages !! k) as [pkg|] eqn:Ek; [|discriminate].
  exists k, pkg. injection Hk as Hk. auto.
Qed.

Lemma compareDownloads_rejected_iff_witness :
  exists i pkg,
    In i [0; 1]%nat /\ [lit "zustand"; lit "jotai"] !! i = Some pkg
    /\ run (getDownloads Sample.percent_encode Sample.flaky_api pkg (lit "last-month"))
       = Rejected (lit "fetch failed").
Proof.
  apply (proj2 (compareDownloads_rejected_iff Sample.percent_encode Sample.flaky_api
                  [lit "zustand"; lit "jotai"] (lit "last-month") [0; 1]%nat
                  (lit "fetch failed"))).
  reflexivity.
Defined.

(** X8: a fetch that never gets an answer keeps the whole comparison
    pending, as long as no fetch fails: the results of the other
    packages are not returned. *)
Theorem compareDownloads_pending enc fetch packages period schedule i pkg :
  packages !! i = Some pkg ->
  run (getDownloads enc fetch pkg period) = Pending ->
  first_rejected
    (List.map (fun pkg => run (getDownloads enc fetch pkg period)) packages)
    schedule = None ->
  run (compareDownloads enc fetch packages period schedule) = Pending.
Proof.
  intros Hi Hp Hf.
  destruct (run (compareDownloads enc fetch packages period schedule))
    as [|results|message] eqn:E; [reflexivity| |].
  - apply compareDownloads_fulfilled_inv in E.
    destruct (Forall2_lookup_l _ _ _ _ _ E Hi) as [stats [_ Hs]]. congruence.
  - apply compareDownloads_rejected_inv in E. congruence.
Qed.

Lemma compareDownloads_pending_witness :
  run (compareDownloads Sample.percent_encode Sample.flaky_api
         [lit "zustand"; lit "valtio"] (lit "last-month") [0; 1]%nat)
  = Pending.
Proof.
  apply (compareDownloads_pending Sample.percent_encode Sample.flaky_api
           [lit "zustand"; lit "valtio"] (lit "last-month") [0; 1]%nat
           1%nat (lit "valtio")); reflexivity.
Defined.

Lemma getDownloads_ok enc fetch name period r :
  well_formed name = true ->
  fetch (API ++ lit "/downloads/point/" ++ period ++ lit "/" ++ enc name) = Fulfilled r ->
  ok r = true ->
  run (getDownloads enc fetch name period)
  = Fulfilled (DownloadStats.mk (PointBody.package (json r) ?? name)
                 (PointBody.downloads (json r)) (PointBody.start (json r))
                 (PointBody.end_ (json r))).
Proof.
  intros Hwf Hr Hok. unfold getDownloads. unfold_async. rewrite Hwf.
  cbn beta iota zeta. rewrite Hr. cbn beta iota zeta. now rewrite Hok.
Qed.

(** X9: when the counts API answers every request with success, the
    entry of [compareDownloads] for a package carries the count and the
    dates of the answer for that package, and as its name the name in
    the answer, or the name asked for when the answer has none.  A
    request is made for a name that [encodeURIComponent] accepts. *)
Theorem compareDownloads_entries enc fetch packages period schedule :
  complete (length packages) schedule ->
  Forall (fun pkg =>
            well_formed pkg = true
            /\ exists r,
                 fetch (API ++ lit "/downloads/point/" ++ period ++ lit "/" ++ enc pkg)
                 = Fulfilled r
                 /\ ok r = true) packages ->
  exists results,
    run (compareDownloads enc fetch packages period schedule) = Fulfilled results
    /\ Forall2
         (fun pkg stats =>
            exists r,
              fetch (API ++ lit "/downloads/point/" ++ period ++ lit "/" ++ enc pkg)
              = Fulfilled r
              /\ DownloadStats.package stats = PointBody.package (json r) ?? pkg
              /\ DownloadStats.downloads stats = PointBody.downloads (json r)
              /\ DownloadStats.start stats = PointBody.start (json r)
              /\ DownloadStats.end_ stats = PointBody.end_ (json r))
         packages results.
Proof.
  intros Hc Hall.
  assert (H2 : exists results,
             Forall2 (fun pkg stats =>
                        run (getDownloads enc fetch pkg period) = Fulfilled stats
                        /\ exists r,
                             fetch (API ++ lit "/downloads/point/" ++ period ++ lit "/"
                                        ++ enc pkg) = Fulfilled r
                             /\ DownloadStats.package stats = PointBody.package (json r) ?? pkg
                             /\ DownloadStats.downloads stats = PointBody.downloads (json r)
                             /\ DownloadStats.start stats = PointBody.start (json r)
                             /\ DownloadStats.end_ stats = PointBody.end_ (json r))
                     packages results).
  { apply Forall_exists_Forall2. clear Hc.
    induction Hall as [|pkg packages [Hwf [r [Hr Hok]]] _ IH]; constructor; [|exact IH].
    eexists. split; [apply (getDownloads_ok enc fetch pkg period r Hwf Hr Hok)|].
    exists r. repeat split; auto. }
  destruct H2 as [results H2]. exists results. split.
  - apply compareDownloads_fulfilled; [exact Hc|].
    clear Hc Hall. induction H2 as [|pkg stats packages results [Hx _] _ IH];
      constructor; auto.
  - clear Hc Hall. induction H2 as [|pkg stats packages results [_ Hx] _ IH];
      constructor; auto.
Qed.

Lemma compareDownloads_entries_witness :
  exists results,
    run (compareDownloads Sample.percent_encode Case.anonymous_api
           [lit "valtio"; lit "nanostores"] (lit "last-week") [1; 0]%nat)
    = Fulfilled results
    /\ List.map DownloadStats.package results = [lit "valtio"; lit "nanostores"].
Proof.
  destruct (compareDownloads_entries Sample.percent_encode Case.anonymous_api
              [lit "valtio"; lit "nanostores"] (lit "last-week") [1; 0]%nat)
    as [results [Hrun H2]].
  - intros i Hi. destruct i as [|[|i]]; simpl in *; [auto|auto|lia].
  - repeat constructor; eexists; split; reflexivity.
  - exists results. split; [exact Hrun|].
    vm_compute in Hrun. injection Hrun as <-. reflexivity.
Defined.

(** ** Bundle size *)

Lemma head_split (c : char) (s : str) : head (split c s) = Some (before c s).
Proof.
  induction s as [|d s IH]; [reflexivity|].
  simpl. destruct (N.eqb c d); [reflexivity|].
  destruct (split c s) as [|w ws]; [discriminate|].
  simpl in *. congruence.
Qed.

Lemma before_spec (c : char) (s : str) :
  includes c (before c s) = false /\ exists rest, s = before c s ++ rest.
Proof.
  induction s as [|d s [IHi [rest IHr]]]; simpl.
  - split; [reflexivity|]. now exists [].
  - destruct (N.eqb c d) eqn:E.
    + split; [reflexivity|]. now exists (d :: s).
    + split.
      * unfold includes in *. simpl. now rewrite E, IHi.
      * exists rest. simpl. now rewrite <- IHr.
Qed.

(** X10: when the bundle analysis answers with an empty object, the
    result is named by the part of the input before its first [@], a
    part without [@] that the input begins with, and empty for the name
    of a scoped package; the version is [latest] and the sizes and the
    dependency count are 0.  The request is made for an input that
    [encodeURIComponent] accepts. *)
Theorem getBundleSize_defaults enc fetch name r :
  well_formed name = true ->
  fetch (BUNDLEPHOBIA ++ lit "?package=" ++ enc (pkgSpec name)) = Fulfilled r ->
  ok r = true ->
  json r = BundleBody.mk None None None None None ->
  run (getBundleSize enc fetch name)
  = Fulfilled (BundleSize.mk (before 64%N name) (lit "latest") 0 0 0)
  /\ includes 64%N (before 64%N name) = false
  /\ (exists rest, name = before 64%N name ++ rest)
  /\ (startsWith (lit "@") name = true -> before 64%N name = []).
Proof.
  intros Hwf Hr Hok Hbody. split; [|split; [|split]].
  - unfold getBundleSize. unfold_async. cbn beta iota zeta.
    rewrite well_formed_pkgSpec, Hwf. cbn beta iota zeta.
    rewrite Hr. cbn beta iota zeta. rewrite Hok, Hbody. cbn.
    now rewrite head_split.
  - apply before_spec.
  - apply before_spec.
  - intros Hs. destruct name as [|c name]; [reflexivity|].
    unfold startsWith in Hs. change (lit "@") with [64%N] in Hs.
    cbn [strip_prefix] in Hs. cbn [before].
    destruct (N.eqb 64 c); [reflexivity|discriminate].
Qed.

Lemma getBundleSize_defaults_witness :
  run (getBundleSize Sample.percent_encode
         (Sample.always (Sample.found Sample.empty_bundle)) (lit "lodash@4.17.21"))
  = Fulfilled (BundleSize.mk (lit "lodash") (lit "latest") 0 0 0)
  /\ run (getBundleSize Sample.percent_encode
            (Sample.always (Sample.found Sample.empty_bundle)) Case.scoped)
     = Fulfilled (BundleSize.mk [] (lit "latest") 0 0 0).
Proof.
  split.
  - apply (getBundleSize_defaults Sample.percent_encode
             (Sample.always (Sample.found Sample.empty_bundle)) (lit "lodash@4.17.21")
             (Sample.found Sample.empty_bundle)); reflexivity.
  - apply (getBundleSize_defaults Sample.percent_encode
             (Sample.always (Sample.found Sample.empty_bundle)) Case.scoped
             (Sample.found Sample.empty_bundle)); reflexivity.
Defined.

(** ** Requests *)

(** X11: each operation on one package or one query makes at most one
    request, whatever the answer is: exactly one, for its own URL, when
    the text that goes into the URL is well formed, with no second
    attempt after a failure; and none when [encodeURIComponent] throws,
    in which case the operation fails with the [URIError]
    ([getVulnerabilities] with its own words before it). *)
Theorem operations_request_once (enc : str -> str) (loc : Z -> str) :
  (forall fetch query size,
      (well_formed query = true ->
       requests (searchPackages enc fetch query size)
       = [REGISTRY ++ lit "/-/v1/search?text=" ++ enc query ++ lit "&size="
                   ++ toString size])
      /\ (well_formed query = false ->
          requests (searchPackages enc fetch query size) = []
          /\ run (searchPackages enc fetch query size) = Rejected URIError))
  /\ (forall fetch name,
         (well_formed name = true ->
          requests (getPackageInfo enc fetch name) = [REGISTRY ++ lit "/" ++ enc name])
         /\ (well_formed name = false ->
             requests (getPackageInfo enc fetch name) = []
             /\ run (getPackageInfo enc fetch name) = Rejected URIError))
  /\ (forall fetch name period,
         (well_formed name = true ->
          requests (getDownloads enc fetch name period)
          = [API ++ lit "/downloads/point/" ++ period ++ lit "/" ++ enc name])
         /\ (well_formed name = false ->
             requests (getDownloads enc fetch name period) = []
             /\ run (getDownloads enc fetch name period) = Rejected URIError))
  /\ (forall fetch name,
         (well_formed name = true ->
          requests (getBundleSize enc fetch name)
          = [BUNDLEPHOBIA ++ lit "?package=" ++ enc (pkgSpec name)])
         /\ (well_formed name = false ->
             requests (getBundleSize enc fetch name) = []
             /\ run (getBundleSize enc fetch name) = Rejected URIError))
  /\ (forall fetch name period,
         (well_formed name = true ->
          requests (getDownloadTrends enc loc fetch name period)
          = [API ++ lit "/downloads/range/" ++ period ++ lit "/" ++ enc name])
         /\ (well_formed name = false ->
             requests (getDownloadTrends enc loc fetch name period) = []
             /\ run (getDownloadTrends enc loc fetch name period) = Rejected URIError))
  /\ (forall fetch name,
         (well_formed name = true ->
          requests (getDependencyTree enc fetch name) = [REGISTRY ++ lit "/" ++ enc name])
         /\ (well_formed name = false ->
             requests (getDependencyTree enc fetch name) = []
             /\ run (getDependencyTree enc fetch name) = Rejected URIError))
  /\ (forall fetch name,
         (well_formed name = true ->
          requests (getVulnerabilities enc fetch name) = [REGISTRY ++ lit "/" ++ enc name])
         /\ (well_formed name = false ->
             requests (getVulnerabilities enc fetch name) = []
             /\ run (getVulnerabilities enc fetch name)
                = Rejected (lit "Could not fetch package info for vulnerability check: "
                              ++ URIError))).
Proof.
  repeat match goal with |- _ /\ _ => split end; intros; split; intros Hwf;
    rewrite ?searchPackages_requests, ?getPackageInfo_requests, ?getDownloads_requests,
      ?getBundleSize_requests, ?getDownloadTrends_requests, ?getDependencyTree_requests,
      ?getVulnerabilities_requests, ?well_formed_pkgSpec, ?Hwf;
    try reflexivity;
    (split; [reflexivity|]);
    unfold getVulnerabilities, getDependencyTree, searchPackages, getPackageInfo,
      getDownloads, getBundleSize, getDownloadTrends;
    unfold_async; rewrite ?well_formed_pkgSpec, ?Hwf; reflexivity.
Qed.

Lemma operations_request_once_witness :
  requests (getPackageInfo Sample.percent_encode
              (Sample.always (Sample.found Sample.express_doc)) (lit "express"))
  = [lit "https://registry.npmjs.org/express"]
  /\ requests (searchPackages Sample.percent_encode
                 (Sample.always (Sample.found Sample.lodash_search)) Sample.lone_surrogate 10)
     = []
  /\ run (searchPackages Sample.percent_encode
            (Sample.always (Sample.found Sample.lodash_search)) Sample.lone_surrogate 10)
     = Rejected URIError.
Proof.
  pose proof (operations_request_once Sample.percent_encode Sample.en_US) as [Hs [Hi _]].
  split.
  - apply (proj1 (Hi (Sample.always (Sample.found Sample.express_doc)) (lit "express"))).
    reflexivity.
  - apply (proj2 (Hs (Sample.always (Sample.found Sample.lodash_search))
                     Sample.lone_surrogate 10)).
    reflexivity.
Defined.

(** A request that the network fails makes the operation fail with the
    error of the network. *)
Ltac network_fails lemma :=
  rewrite lemma;
  let Hwf := fresh "Hwf" in
  match goal with
  | |- context [well_formed ?s] => destruct (well_formed s) eqn:Hwf; [|intros []]
  end;
  intros [<-|[]] Hr;
  unfold getVulnerabilities, getDependencyTree, searchPackages, getPackageInfo,
    getDownloads, getBundleSize, getDownloadTrends;
  unfold_async; cbn beta iota zeta; rewrite Hwf; cbn beta iota zeta;
  rewrite Hr; reflexivity.

(** X12: when the network fails a request, the operation that made it
    fails with the error of the network as it is, not with an API
    error; [getVulnerabilities] alone puts its own words before it. *)
Theorem network_failure_passed_on (enc : str -> str) (loc : Z -> str) :
  (forall fetch query size url message,
      In url (requests (searchPackages enc fetch query size)) ->
      fetch url = Rejected message ->
      run (searchPackages enc fetch query size) = Rejected message)
  /\ (forall fetch name url message,
         In url (requests (getPackageInfo enc fetch name)) ->
         fetch url = Rejected message ->
         run (getPackageInfo enc fetch name) = Rejected message)
  /\ (forall fetch name period url message,
         In url (requests (getDownloads enc fetch name period)) ->
         fetch url = Rejected message ->
         run (getDownloads enc fetch name period) = Rejected message)
  /\ (forall fetch name url message,
         In url (requests (getBundleSize enc fetch name)) ->
         fetch url = Rejected message ->
         run (getBundleSize enc fetch name) = Rejected message)
  /\ (forall fetch name period url message,
         In url (requests (getDownloadTrends enc loc fetch name period)) ->
         fetch url = Rejected message ->
         run (getDownloadTrends enc loc fetch name period) = Rejected message)
  /\ (forall fetch name url message,
         In url (requests (getDependencyTree enc fetch name)) ->
         fetch url = Rejected message ->
         run (getDependencyTree enc fetch name) = Rejected message)
  /\ (forall fetch name url message,
         In url (requests (getVulnerabilities enc fetch name)) ->
         fetch url = Rejected message ->
         run (getVulnerabilities enc fetch name)
         = Rejected (lit "Could not fetch package info for vulnerability check: "
                       ++ message)).
Proof.
  repeat match goal with |- _ /\ _ => split end; intros fetch.
  - intros query size url message. network_fails searchPackages_requests.
  - intros name url message. network_fails getPackageInfo_requests.
  - intros name period url message. network_fails getDownloads_requests.
  - intros name url message. network_fails getBundleSize_requests.
  - intros name period url message. network_fails getDownloadTrends_requests.
  - intros name url message. network_fails getDependencyTree_requests.
  - intros name url message. network_fails getVulnerabilities_requests.
Qed.

Lemma network_failure_passed_on_witness :
  run (getDownloads Sample.percent_encode Sample.flaky_api (lit "jotai") (lit "last-day"))
  = Rejected (lit "fetch failed").
Proof.
  apply (proj1 (proj2 (proj2 (network_failure_passed_on Sample.percent_encode toString)))
           Sample.flaky_api (lit "jotai") (lit "last-day")
           (lit "https://api.npmjs.org/downloads/point/last-day/jotai")).
  - left. reflexivity.
  - reflexivity.
Defined.

(** ** The figures of a series *)

(** X13: for a series that is not empty, the minimum and the maximum
    reported are counts of days of the series, every count lies between
    them, and the minimum is not above the maximum. *)
Theorem trend_min_max (daily : list DailyPoint.t) :
  daily <> [] ->
  Trend.min (trend daily) <= Trend.max (trend daily)
  /\ Forall (fun d => Trend.min (trend daily) <= DailyPoint.downloads d
                      <= Trend.max (trend daily)) daily
  /\ In (Trend.min (trend daily)) (List.map DailyPoint.downloads daily)
  /\ In (Trend.max (trend daily)) (List.map DailyPoint.downloads daily).
Proof.
  intros Hne. destruct (trend_bounds daily Hne) as [Hb [Hmin Hmax]].
  split; [|split; [exact Hb|split; assumption]].
  destruct daily as [|d daily]; [congruence|].
  apply Forall_cons_1 in Hb as [Hd _]. lia.
Qed.

Lemma trend_min_max_witness :
  Trend.min (trend Sample.january) = 1000
  /\ Trend.max (trend Sample.january) = 2000
  /\ Trend.min (trend Sample.january) <= Trend.max (trend Sample.january).
Proof.
  split; [reflexivity|]. split; [reflexivity|].
  apply (trend_min_max Sample.january). discriminate.
Defined.

(** X14: for a series that is not empty and whose counts have absolute
    values of less than 2^52 in all, the average reported lies between
    the minimum and the maximum reported.  (Beyond that the sums of the
    total are rounded, and the average can leave the range: see
    [trend_rounded_total].) *)
Theorem trend_avg_between (daily : list DailyPoint.t) :
  daily <> [] ->
  sum (List.map Z.abs (List.map DailyPoint.downloads daily)) < 2 ^ 52 ->
  Trend.min (trend daily) <= Trend.avg (trend daily) <= Trend.max (trend daily).
Proof.
  intros Hne Hsum. destruct (trend_bounds daily Hne) as [Hb _].
  set (lo := Trend.min (trend daily)) in *. set (hi := Trend.max (trend daily)) in *.
  clearbody lo hi.
  unfold trend. cbn [Trend.avg].
  rewrite fold_left_total by (simpl Z.abs; lia). rewrite Z.add_0_l.
  assert (Hn : 0 < Z.of_nat (length daily))
    by (destruct daily; [congruence|simpl length; lia]).
  replace (0 <? Z.of_nat (length daily)) with true by (symmetry; now apply Z.ltb_lt).
  pose proof (sum_abs (List.map DailyPoint.downloads daily)) as Habs.
  rewrite average_exact by lia.
  rewrite Math_round_div by exact Hn.
  assert (Hs : Z.of_nat (length (List.map DailyPoint.downloads daily)) * lo
               <= sum (List.map DailyPoint.downloads daily)
               <= Z.of_nat (length (List.map DailyPoint.downloads daily)) * hi).
  { apply sum_between. rewrite List.Forall_forall in Hb. apply List.Forall_forall.
    intros x Hx. apply in_map_iff in Hx as [d [<- Hd]]. now apply Hb. }
  rewrite length_map in Hs.
  set (n := Z.of_nat (length daily)) in *.
  set (t := sum (List.map DailyPoint.downloads daily)) in *.
  split.
  - apply Z.div_le_lower_bound; nia.
  - assert ((2 * t + n) / (2 * n) < hi + 1) by (apply Z.div_lt_upper_bound; nia).
    lia.
Qed.

Lemma trend_avg_between_witness :
  Trend.avg (trend Sample.halfway) = 2
  /\ Trend.min (trend Sample.halfway) <= Trend.avg (trend Sample.halfway)
     <= Trend.max (trend Sample.halfway).
Proof.
  split; [reflexivity|].
  apply (trend_avg_between Sample.halfway); [discriminate|reflexivity].
Defined.

(** ** The sparkline *)

(** X15: when some day has a count above 0, the sparkline has one glyph
    for each day whose count is not below 0, in the order of the days,
    and no glyph for a day whose count is below 0: the index is capped
    at the top only. *)
Theorem sparkline_counted (daily : list DailyPoint.t) :
  0 < Trend.max (trend daily) ->
  length (Trend.sparkline (trend daily)) = length (counted daily)
  /\ Forall2
       (fun d glyph =>
          index blocks (level (DailyPoint.downloads d) (Trend.max (trend daily)))
          = Some [glyph])
       (counted daily) (Trend.sparkline (trend daily)).
Proof.
  intros Hmax. rewrite sparkline_glyphs by assumption.
  split; [apply length_map|].
  assert (Hne : daily <> []) by (intros ->; cbn in Hmax; lia).
  destruct (trend_bounds daily Hne) as [Hb _].
  apply Forall2_map_In. intros d Hd.
  unfold counted in Hd. apply filter_In in Hd as [Hd Hpos].
  apply Z.leb_le in Hpos. rewrite List.Forall_forall in Hb.
  apply nth_blocks. apply level_range; [assumption|]. specialize (Hb d Hd). lia.
Qed.

Lemma sparkline_counted_witness :
  Trend.sparkline (trend Sample.below_zero) = [9608%N]
  /\ length (Trend.sparkline (trend Sample.below_zero))
     = length (counted Sample.below_zero).
Proof.
  split; [reflexivity|].
  apply (proj1 (sparkline_counted Sample.below_zero ltac:(reflexivity))).
Defined.

(** X16: in a series of counts none of which is below 0, the glyphs
    follow the counts: a day with no more downloads than another has a
    glyph that is no higher, a day with the maximum has the full block
    and a day with 0 downloads the lowest one. *)
Theorem sparkline_follows_counts (daily : list DailyPoint.t) (i j : nat)
    (di dj : DailyPoint.t) (gi gj : char) :
  0 < Trend.max (trend daily) ->
  Forall (fun d => 0 <= DailyPoint.downloads d) daily ->
  daily !! i = Some di -> daily !! j = Some dj ->
  Trend.sparkline (trend daily) !! i = Some gi ->
  Trend.sparkline (trend daily) !! j = Some gj ->
  (DailyPoint.downloads di <= DailyPoint.downloads dj -> (gi <= gj)%N)
  /\ (DailyPoint.downloads di = Trend.max (trend daily) -> gi = 9608%N)
  /\ (DailyPoint.downloads di = 0 -> gi = 9601%N).
Proof.
  intros Hmax Hpos Hi Hj Hgi Hgj.
  rewrite sparkline_glyphs, counted_all in Hgi, Hgj by assumption.
  assert (Hne : daily <> []) by (intros ->; cbn in Hmax; lia).
  destruct (trend_bounds daily Hne) as [Hb _]. rewrite List.Forall_forall in Hb, Hpos.
  assert (Hdi : In di daily) by (apply list_elem_of_In, list_elem_of_lookup; eauto).
  assert (Hdj : In dj daily) by (apply list_elem_of_In, list_elem_of_lookup; eauto).
  pose proof (Hb di Hdi) as Bi. pose proof (Hpos di Hdi) as Pi.
  pose proof (Hb dj Hdj) as Bj. pose proof (Hpos dj Hdj) as Pj.
  set (max := Trend.max (trend daily)) in *. clearbody max.
  rewrite list_lookup_fmap, Hi in Hgi. rewrite list_lookup_fmap, Hj in Hgj.
  cbn in Hgi, Hgj. injection Hgi as <-. injection Hgj as <-.
  pose proof (level_range (DailyPoint.downloads di) max Hmax ltac:(lia)) as Ri.
  pose proof (level_range (DailyPoint.downloads dj) max Hmax ltac:(lia)) as Rj.
  split; [|split].
  - intros Hle. pose proof (level_monotone _ _ max Hmax Hle).
    apply Z2N.inj_le; lia.
  - intros ->. now rewrite level_top.
  - intros ->. now rewrite level_zero.
Qed.

Lemma sparkline_follows_counts_witness :
  (9604 <= 9608)%N.
Proof.
  apply (proj1 (sparkline_follows_counts Sample.january 0 2
                  (DailyPoint.mk (lit "2025-01-01") 1000)
                  (DailyPoint.mk (lit "2025-01-03") 2000) 9604%N 9608%N
                  ltac:(reflexivity)
                  ltac:(repeat constructor; discriminate)
                  ltac:(reflexivity) ltac:(reflexivity)
                  ltac:(reflexivity) ltac:(reflexivity))).
  cbn. discriminate.
Defined.

(** X17: the sparkline is empty exactly when no day has a count above
    0: for an empty series, and for a series of days without
    downloads. *)
Theorem sparkline_empty_iff (daily : list DailyPoint.t) :
  Trend.sparkline (trend daily) = [] <-> Trend.max (trend daily) <= 0.
Proof.
  split.
  - intros He. destruct (Z.le_gt_cases (Trend.max (trend daily)) 0) as [H|Hmax];
      [exact H|exfalso].
    rewrite sparkline_glyphs in He by assumption.
    assert (Hne : daily <> []) by (intros ->; cbn in Hmax; lia).
    destruct (trend_bounds daily Hne) as [_ [_ Hin]].
    apply in_map_iff in Hin as [d [Hd Hin]].
    assert (Hc : In d (counted daily)).
    { unfold counted. apply filter_In. split; [exact Hin|]. apply Z.leb_le. lia. }
    destruct (counted daily); [destruct Hc|discriminate].
  - intros Hmax. unfold trend at 1. cbn [Trend.sparkline].
    change (match List.map DailyPoint.downloads daily with
            | [] => 0 | x :: xs => Math_max x xs end) with (Trend.max (trend daily)).
    replace (0 <? Trend.max (trend daily)) with false
      by (symmetry; apply Z.ltb_ge; exact Hmax).
    now rewrite andb_false_r.
Qed.

(** X18: for a series that is absent or empty, the report of
    [getDownloadTrends] is its title, the line of the figures with 0
    four times, and the two lines that head the table: no line for the
    trend, no row, and no empty line.  The series is the answer to the
    request for a name that [encodeURIComponent] accepts. *)
Theorem getDownloadTrends_empty_series enc loc fetch name period r :
  well_formed name = true ->
  fetch (API ++ lit "/downloads/range/" ++ period ++ lit "/" ++ enc name) = Fulfilled r ->
  ok r = true ->
  RangeBody.downloads (json r) ?? [] = [] ->
  run (getDownloadTrends enc loc fetch name period)
  = Fulfilled
      (lit "## " ++ (RangeBody.package (json r) ?? name) ++ [32; 8212; 32]%N
         ++ RangeBody.start (json r) ++ lit " to " ++ RangeBody.end_ (json r) ++ [10%N]
         ++ lit "Total: " ++ loc 0 ++ lit " | Avg/day: " ++ loc 0
         ++ lit " | Min: " ++ loc 0 ++ lit " | Max: " ++ loc 0 ++ [10%N]
         ++ lit "| Day | Downloads |" ++ [10%N]
         ++ lit "|-----|-----------|").
Proof.
  intros Hwf Hr Hok Hd. unfold getDownloadTrends. unfold_async. rewrite Hwf.
  cbn beta iota zeta.
  rewrite Hr. cbn beta iota zeta. rewrite Hok. cbn [negb]. cbn beta iota zeta.
  rewrite Hd. cbn [fst]. f_equal.
  change (trend []) with (Trend.mk 0 0 0 0 []).
  eval_literals.
  cbn [Trend.total Trend.avg Trend.min Trend.max Trend.sparkline slice_last length
       Nat.sub skipn List.map join Nat.eqb negb app List.filter].
  repeat (rewrite <- app_assoc; cbn [app]). reflexivity.
Qed.

Lemma getDownloadTrends_empty_series_witness :
  run (getDownloadTrends Sample.percent_encode Sample.en_US
         (Sample.always (Sample.found Case.empty_range)) (lit "brand-new") (lit "last-month"))
  = Fulfilled
      (lit "## brand-new" ++ [32; 8212; 32]%N ++ lit "2025-01-01 to 2025-01-31" ++ [10%N]
         ++ lit "Total: 0 | Avg/day: 0 | Min: 0 | Max: 0" ++ [10%N]
         ++ lit "| Day | Downloads |" ++ [10%N]
         ++ lit "|-----|-----------|").
Proof.
  rewrite (getDownloadTrends_empty_series Sample.percent_encode Sample.en_US
             (Sample.always (Sample.found Case.empty_range)) (lit "brand-new")
             (lit "last-month") (Sample.found Case.empty_range));
    reflexivity.
Defined.

(** ** What is built on [getPackageInfo] *)

Section Composition.

Context {A B : Type} (m : Async A).

Lemma run_bind_ret (f : A -> B) :
  run (x <- m ;; ret (f x))
  = match run m with
    | Fulfilled a => Fulfilled (f a)
    | Rejected e => Rejected e
    | Pending => Pending
    end.
Proof. unfold run, bind, ret. destruct (m []) as [[|a|e] log]; reflexivity. Qed.

Lemma run_try_catch_ret (f : A -> B) (h : str -> B) :
  run (try_catch (x <- m ;; ret (f x)) (fun message => ret (h message)))
  = match run m with
    | Fulfilled a => Fulfilled (f a)
    | Rejected e => Fulfilled (h e)
    | Pending => Pending
    end.
Proof. unfold run, try_catch, bind, ret. destruct (m []) as [[|a|e] log]; reflexivity. Qed.

Lemma run_try_catch_throw (f : A -> B) (h : str -> str) :
  run (try_catch (x <- m ;; ret (f x)) (fun message => throw (h message)))
  = match run m with
    | Fulfilled a => Fulfilled (f a)
    | Rejected e => Rejected (h e)
    | Pending => Pending
    end.
Proof. unfold run, try_catch, bind, ret, throw. destruct (m []) as [[|a|e] log]; reflexivity. Qed.

End Composition.

(** X19: for a package without dependencies and without
    devDependencies, [getDependencyTree] returns the name and the
    version, an empty line and the marker [(no dependencies)], and
    nothing else: no header of a group. *)
Theorem getDependencyTree_none enc fetch name info :
  run (getPackageInfo enc fetch name) = Fulfilled info ->
  PackageInfo.dependencies info = [] ->
  PackageInfo.devDependencies info = [] ->
  run (getDependencyTree enc fetch name)
  = Fulfilled (PackageInfo.name info ++ lit "@" ++ PackageInfo.version info
                 ++ [10; 10]%N ++ lit "(no dependencies)").
Proof.
  intros Hinfo Hd Hv. unfold getDependencyTree.
  rewrite (run_bind_ret (getPackageInfo enc fetch name)), Hinfo.
  cbn beta iota zeta. rewrite Hd, Hv. f_equal.
  change (0 <? Z.of_nat (length (@nil (list N * list N)))) with false.
  change (Z.of_nat (length (@nil (list N * list N))) =? 0) with true.
  cbn [andb app join]. repeat (rewrite <- app_assoc; cbn [app]). reflexivity.
Qed.

Lemma getDependencyTree_none_witness :
  run (getDependencyTree Sample.percent_encode
         (Sample.always (Sample.found Case.minimal_doc)) (lit "tiny"))
  = Fulfilled (lit "tiny@" ++ [10; 10]%N ++ lit "(no dependencies)").
Proof.
  apply (getDependencyTree_none Sample.percent_encode
           (Sample.always (Sample.found Case.minimal_doc)) (lit "tiny")
           (PackageInfo.mk (lit "tiny") [] [] [] (lit "Unknown") [] [] [] []));
    reflexivity.
Defined.

Lemma getVulnerabilities_run enc fetch name :
  run (getVulnerabilities enc fetch name)
  = match run (getPackageInfo enc fetch name) with
    | Fulfilled info =>
        if well_formed (PackageInfo.name info)
        then Fulfilled (advisory_text enc name (PackageInfo.name info))
        else Rejected (lit "Could not fetch package info for vulnerability check: "
                         ++ URIError)
    | Rejected e =>
        Rejected (lit "Could not fetch package info for vulnerability check: " ++ e)
    | Pending => Pending
    end.
Proof.
  unfold getVulnerabilities, run, try_catch, bind.
  destruct (getPackageInfo enc fetch name []) as [[|info|e] log]; try reflexivity.
  unfold encodeURIComponent, ret, throw. cbn [fst].
  destruct (well_formed (PackageInfo.name info)); reflexivity.
Qed.

(** X20: when the registry answers the request with success, it is
    the name in the answer, not the name asked for, that goes into the
    link to the advisories; and when that name is not well formed, the
    lookup that succeeded ends in the error of the vulnerability check,
    with the words [Could not fetch package info] before the
    [URIError]. *)
Theorem getVulnerabilities_text enc fetch name r :
  well_formed name = true ->
  fetch (REGISTRY ++ lit "/" ++ enc name) = Fulfilled r ->
  ok r = true ->
  (well_formed (PackageDoc.name (json r)) = true ->
   run (getVulnerabilities enc fetch name)
   = Fulfilled (advisory_text enc name (PackageDoc.name (json r))))
  /\ (well_formed (PackageDoc.name (json r)) = false ->
      run (getVulnerabilities enc fetch name)
      = Rejected (lit "Could not fetch package info for vulnerability check: "
                    ++ URIError)
      /\ exists info, run (getPackageInfo enc fetch name) = Fulfilled info).
Proof.
  intros Hwf Hr Hok. rewrite getVulnerabilities_run.
  assert (Hinfo : exists info,
             run (getPackageInfo enc fetch name) = Fulfilled info
             /\ PackageInfo.name info = PackageDoc.name (json r)).
  { unfold getPackageInfo. unfold_async. rewrite Hwf. cbn beta iota zeta.
    rewrite Hr. cbn beta iota zeta. rewrite Hok. eexists. split; reflexivity. }
  destruct Hinfo as [info [Hinfo Hname]]. rewrite Hinfo, Hname.
  split; intros ->; [reflexivity|]. split; [reflexivity|]. now exists info.
Qed.

Lemma getVulnerabilities_text_witness :
  run (getVulnerabilities Sample.percent_encode
         (Sample.always (Sample.found Sample.express_doc)) (lit "Express"))
  = Fulfilled (advisory_text Sample.percent_encode (lit "Express") (lit "express"))
  /\ run (getVulnerabilities Sample.percent_encode
            (Sample.always (Sample.found Case.unpaired_doc)) (lit "unpaired"))
     = Rejected (lit "Could not fetch package info for vulnerability check: URI malformed").
Proof.
  split.
  - apply (proj1 (getVulnerabilities_text Sample.percent_encode
                    (Sample.always (Sample.found Sample.express_doc)) (lit "Express")
                    (Sample.found Sample.express_doc) eq_refl eq_refl eq_refl)).
    reflexivity.
  - apply (proj2 (getVulnerabilities_text Sample.percent_encode
                    (Sample.always (Sample.found Case.unpaired_doc)) (lit "unpaired")
                    (Sample.found Case.unpaired_doc) eq_refl eq_refl eq_refl)).
    reflexivity.
Defined.

(** X21: [getVulnerabilities] returns its text only when
    [getPackageInfo] has succeeded; whatever [getPackageInfo] fails
    with is passed on, behind the words of the vulnerability check, and
    never replaced by a text. *)
Theorem getVulnerabilities_needs_info enc fetch name :
  (forall message,
      run (getPackageInfo enc fetch name) = Rejected message ->
      run (getVulnerabilities enc fetch name)
      = Rejected (lit "Could not fetch package info for vulnerability check: "
                    ++ message))
  /\ (run (getPackageInfo enc fetch name) = Pending ->
      run (getVulnerabilities enc fetch name) = Pending)
  /\ (forall text,
         run (getVulnerabilities enc fetch name) = Fulfilled text ->
         exists info, run (getPackageInfo enc fetch name) = Fulfilled info).
Proof.
  rewrite getVulnerabilities_run.
  destruct (run (getPackageInfo enc fetch name)) as [|info|e];
    (split; [|split]); intros; try discriminate; try reflexivity; eauto.
  congruence.
Qed.

Lemma getVulnerabilities_needs_info_witness :
  run (getVulnerabilities Sample.percent_encode
         (Sample.always (Sample.not_found Sample.express_doc)) (lit "nonexistent"))
  = Rejected (lit "Could not fetch package info for vulnerability check: "
                ++ lit "API error (404): Not found").
Proof.
  apply (proj1 (getVulnerabilities_needs_info Sample.percent_encode
                  (Sample.always (Sample.not_found Sample.express_doc))
                  (lit "nonexistent"))).
  reflexivity.
Defined.

(** * Properties of the tools *)

(** ** Sorting *)

Section SortFacts.

Context {A : Type} (key : A -> Z).

(** [(a, b) => key b - key a] *)
Let descending_key (a b : A) : Z := key b - key a.

Lemma sort_insert_perm (compare : A -> A -> Z) (x : A) (l : list A) :
  Permutation (sort_insert compare x l) (x :: l).
Proof.
  induction l as [|y l IH]; simpl; [reflexivity|].
  destruct (compare x y <=? 0); [reflexivity|].
  rewrite IH. apply perm_swap.
Qed.

Lemma sort_perm (compare : A -> A -> Z) (l : list A) :
  Permutation (sort compare l) l.
Proof.
  induction l as [|x l IH]; simpl; [reflexivity|].
  rewrite sort_insert_perm. now constructor.
Qed.

Lemma sort_insert_sorted (x : A) (l : list A) :
  StronglySorted (fun a b => key b <= key a) l ->
  StronglySorted (fun a b => key b <= key a) (sort_insert descending_key x l).
Proof.
  induction 1 as [|y l Hs IH Hy]; simpl.
  - constructor; constructor.
  - unfold descending_key at 1. destruct (key y - key x <=? 0) eqn:E.
    + apply Z.leb_le in E. constructor; [now constructor|].
      constructor; [lia|].
      rewrite List.Forall_forall in Hy. apply List.Forall_forall.
      intros z Hz. specialize (Hy z Hz). cbn in Hy. lia.
    + apply Z.leb_gt in E. constructor; [exact IH|].
      apply (Permutation_Forall (Permutation_sym (sort_insert_perm _ x l))).
      constructor; [lia|exact Hy].
Qed.

Lemma sort_sorted (l : list A) :
  StronglySorted (fun a b => key b <= key a) (sort descending_key l).
Proof.
  induction l as [|x l IH]; simpl; [constructor|]. now apply sort_insert_sorted.
Qed.

Lemma sort_insert_stable (k : Z) (x : A) (l : list A) :
  List.filter (fun a => key a =? k) (sort_insert descending_key x l)
  = List.filter (fun a => key a =? k) (x :: l).
Proof.
  induction l as [|y l IH]; simpl; [reflexivity|].
  unfold descending_key at 1. destruct (key y - key x <=? 0) eqn:E; [reflexivity|].
  apply Z.leb_gt in E. simpl. rewrite IH. simpl.
  destruct (key x =? k) eqn:Ex; destruct (key y =? k) eqn:Ey; try reflexivity.
  apply Z.eqb_eq in Ex, Ey. lia.
Qed.

Lemma sort_stable (k : Z) (l : list A) :
  List.filter (fun a => key a =? k) (sort descending_key l)
  = List.filter (fun a => key a =? k) l.
Proof.
  induction l as [|x l IH]; simpl; [reflexivity|].
  rewrite sort_insert_stable. simpl. now rewrite IH.
Qed.

End SortFacts.

(** X22: the comparison tool lists the results of [compareDownloads] in
    descending order of downloads: every result has its row once,
    results with equal downloads keep the order of the input, and the
    period shown is that of the first package of the input, whatever
    its rank. *)
Theorem compare_downloads_tool_rows enc loc fetch packages period schedule results :
  run (compareDownloads enc fetch packages period schedule) = Fulfilled results ->
  exists sorted,
    Permutation sorted results
    /\ descending sorted
    /\ (forall k,
           List.filter (fun r => DownloadStats.downloads r =? k) sorted
           = List.filter (fun r => DownloadStats.downloads r =? k) results)
    /\ run (compare_downloads_tool enc loc fetch packages period schedule)
       = Fulfilled
           (text_result
              (join [10%N]
                 [ lit "## Download comparison (" ++ period ++ lit ")";
                   [];
                   lit "Period: " ++ (DownloadStats.start <$> head results) ?? [8212%N]
                     ++ lit " to " ++ (DownloadStats.end_ <$> head results) ?? [8212%N];
                   [];
                   lit "| Package | Downloads |";
                   lit "|---------|-----------|";
                   join [10%N] (List.map (compare_row loc) sorted) ])).
Proof.
  intros Hrun. exists (sort by_downloads_descending results).
  split; [apply sort_perm|]. split; [apply (sort_sorted DownloadStats.downloads)|].
  split; [intros k; apply (sort_stable DownloadStats.downloads)|].
  unfold compare_downloads_tool.
  rewrite (run_try_catch_ret (compareDownloads enc fetch packages period schedule)), Hrun.
  reflexivity.
Qed.

Lemma compare_downloads_tool_rows_witness :
  sort by_downloads_descending Case.three_stats
  = [ DownloadStats.mk (lit "zustand") 5000000 (lit "2025-01-01") (lit "2025-01-31");
      DownloadStats.mk (lit "jotai") 2000000 (lit "2025-01-01") (lit "2025-01-31");
      DownloadStats.mk (lit "valtio") 2000000 (lit "2025-01-01") (lit "2025-01-31") ]
  /\ exists sorted,
       Permutation sorted [Sample.zustand_result; Sample.jotai_result]
       /\ descending sorted.
Proof.
  split; [reflexivity|].
  destruct (compare_downloads_tool_rows Sample.percent_encode Sample.en_US
              Sample.downloads_api [lit "zustand"; lit "jotai"] (lit "last-month")
              [1; 0]%nat [Sample.zustand_result; Sample.jotai_result])
    as [sorted [Hp [Hd _]]].
  - reflexivity.
  - exists sorted. split; assumption.
Defined.

(** ** Errors *)

Lemma reports_errors_try_catch {A} (m : Async A) (render : A -> str) :
  reports_errors m
    (try_catch (x <- m ;; ret (text_result (render x)))
               (fun message => ret (error_result message))).
Proof.
  unfold reports_errors. rewrite (run_try_catch_ret m).
  destruct (run m) as [|a|e]; (split; [|split]); intros;
    try congruence; eauto;
    match goal with
    | H : Fulfilled _ = Fulfilled _ |- _ => injection H as <-; discriminate
    end.
Qed.

Lemma search_tool_run enc fetch query size :
  run (search_tool enc fetch query size)
  = match run (searchPackages enc fetch query size) with
    | Fulfilled results =>
        Fulfilled
          (text_result
             (if Nat.eqb (length results) 0
              then lit "No packages found."
              else
                join [10; 10]%N
                  (imap
                     (fun i r =>
                        toString (Z.of_nat i + 1) ++ lit ". **" ++ SearchResult.name r
                          ++ lit "** v" ++ SearchResult.version r ++ [10%N]
                          ++ lit "   "
                          ++ or_else (SearchResult.description r) (lit "(no description)")
                          ++ [10%N]
                          ++ lit "   Keywords: "
                          ++ or_else (join (lit ", ") (SearchResult.keywords r)) [8212%N])
                     results)))
    | Rejected e => Fulfilled (error_result e)
    | Pending => Pending
    end.
Proof.
  unfold search_tool, run, try_catch, bind, ret.
  destruct (searchPackages enc fetch query size []) as [[|results|e] log]; try reflexivity.
  cbn [fst]. destruct (Nat.eqb (length results) 0); reflexivity.
Qed.

(** X23: no tool fails: when the operation of [npm-api] that a tool
    calls fails, the tool returns a result flagged as an error whose
    text is [Error: ] and the message; and a tool flags a result only
    then. *)
Theorem tools_report_errors (enc : str -> str) (loc : Z -> str) :
  (forall fetch query size,
      reports_errors (searchPackages enc fetch query size)
                     (search_tool enc fetch query size))
  /\ (forall fetch name,
         reports_errors (getPackageInfo enc fetch name) (package_info_tool enc fetch name))
  /\ (forall fetch name period,
         reports_errors (getDownloads enc fetch name period)
                        (downloads_tool enc loc fetch name period))
  /\ (forall fetch packages period schedule,
         reports_errors (compareDownloads enc fetch packages period schedule)
                        (compare_downloads_tool enc loc fetch packages period schedule))
  /\ (forall fetch name,
         reports_errors (getBundleSize enc fetch name) (bundle_size_tool enc fetch name))
  /\ (forall fetch name,
         reports_errors (getVulnerabilities enc fetch name)
                        (vulnerabilities_tool enc fetch name))
  /\ (forall fetch name,
         reports_errors (getDependencyTree enc fetch name)
                        (dependency_tree_tool enc fetch name))
  /\ (forall fetch name period,
         reports_errors (getDownloadTrends enc loc fetch name period)
                        (download_trends_tool enc loc fetch name period)).
Proof.
  repeat match goal with |- _ /\ _ => split end; intros;
    try (apply (reports_errors_try_catch _ _)).
  unfold reports_errors. rewrite search_tool_run.
  destruct (run (searchPackages enc fetch query size)) as [|results|e];
    (split; [|split]); intros;
    try congruence; eauto;
    match goal with
    | H : Fulfilled _ = Fulfilled _ |- _ => injection H as <-; discriminate
    end.
Qed.

Lemma tools_report_errors_witness :
  run (search_tool Sample.percent_encode
         (Sample.always (Sample.not_found (SearchBody.mk []))) (lit "nonexistent") 10)
  = Fulfilled (mkToolResult (lit "Error: API error (404): Not found") true).
Proof.
  apply (proj1 (proj1 (tools_report_errors Sample.percent_encode Sample.en_US)
                  (Sample.always (Sample.not_found (SearchBody.mk [])))
                  (lit "nonexistent") 10)).
  reflexivity.
Defined.

(** ** The search tool *)

(** X24: on a successful answer the search tool says
    [No packages found.] exactly when the answer holds no object; it
    says so as a plain result, not as an error.  The answer is given
    to the request for a query that [encodeURIComponent] accepts. *)
Theorem search_tool_empty enc fetch query size r :
  well_formed query = true ->
  fetch (REGISTRY ++ lit "/-/v1/search?text=" ++ enc query ++ lit "&size=" ++ toString size)
  = Fulfilled r ->
  ok r = true ->
  exists text,
    run (search_tool enc fetch query size) = Fulfilled (text_result text)
    /\ (text = lit "No packages found." <-> SearchBody.objects (json r) = []).
Proof.
  intros Hwf Hr Hok. rewrite search_tool_run.
  assert (Hs : run (searchPackages enc fetch query size)
               = Fulfilled
                   (List.map
                      (fun obj =>
                         SearchResult.mk
                           (SearchBody.name (SearchBody.package obj))
                           (SearchBody.version (SearchBody.package obj))
                           (SearchBody.description (SearchBody.package obj) ?? [])
                           (SearchBody.keywords (SearchBody.package obj) ?? [])
                           0)
                      (SearchBody.objects (json r)))).
  { unfold searchPackages. unfold_async. rewrite Hwf. cbn beta iota zeta.
    rewrite Hr. cbn beta iota zeta. now rewrite Hok. }
  rewrite Hs. eexists. split; [reflexivity|].
  destruct (SearchBody.objects (json r)) as [|obj objs]; [tauto|].
  split; [|discriminate].
  cbn [List.map length Nat.eqb imap]. change (toString (Z.of_nat 0 + 1)) with [49%N].
  destruct (List.map _ objs); cbn [imap join app]; eval_literals; discriminate.
Qed.

Lemma search_tool_empty_witness :
  run (search_tool Sample.percent_encode
         (Sample.always (Sample.found (SearchBody.mk []))) (lit "zzzz") 10)
  = Fulfilled (text_result (lit "No packages found.")).
Proof.
  destruct (search_tool_empty Sample.percent_encode
              (Sample.always (Sample.found (SearchBody.mk []))) (lit "zzzz") 10
              (Sample.found (SearchBody.mk [])) eq_refl eq_refl eq_refl)
    as [text [Hrun [_ Htext]]].
  rewrite Hrun, (Htext eq_refl). reflexivity.
Defined.

(** ** Sizes *)

Section SizeFacts.

(** Up to 2^53 a number is printed with every digit. *)
Lemma toString_decimal (n : Z) : Z.abs n <= 2 ^ 53 -> toString n = decimal n.
Proof.
  intros H. unfold toString.
  now replace (Z.abs n <=? 2 ^ 53) with true by (symmetry; apply Z.leb_le; exact H).
Qed.

Lemma toFixed_comp (x y : Q) (f : nat) : (x == y)%Q -> toFixed x f = toFixed y f.
Proof.
  intros E. unfold toFixed.
  rewrite (Qleb_comp 0%Q 0%Q (Qeq_refl _) x y E).
  assert (Ea : (Qabs x == Qabs y)%Q) by now rewrite E.
  rewrite (Qleb_comp _ _ (Qeq_refl (inject_Z (10 ^ 21))) _ _ Ea).
  rewrite (Qfloor_comp _ _ Ea).
  assert (En : (Qabs x * inject_Z (10 ^ Z.of_nat f) + (1 # 2)
                == Qabs y * inject_Z (10 ^ Z.of_nat f) + (1 # 2))%Q) by now rewrite Ea.
  now rewrite (Qfloor_comp _ _ En).
Qed.

(** A quotient below 2^53 is shown as its nearest number of
    hundredths. *)
Lemma toFixed_ratio (a : Z) (p : positive) :
  0 <= a < 2 ^ 53 * Zpos p ->
  toFixed (inject_Z a / inject_Z (Zpos p))%Q 2
  = toString (hundredths a (Zpos p) / 100) ++ lit "."
      ++ pad_zero 2 (toString (hundredths a (Zpos p) mod 100)).
Proof.
  intros [Ha Hb]. unfold toFixed.
  replace (Qle_bool 0 (inject_Z a / inject_Z (Z.pos p))) with true.
  2:{ symmetry. apply Qle_bool_iff. unfold Qle, Qdiv, Qmult, Qinv, inject_Z. simpl. lia. }
  replace (Qle_bool (inject_Z (10 ^ 21)) (Qabs (inject_Z a / inject_Z (Z.pos p))))
    with false.
  2:{ symmetry. apply not_true_is_false. intros H. apply Qle_bool_iff in H.
      unfold Qle, Qabs, Qdiv, Qmult, Qinv, inject_Z in H. simpl in H.
      rewrite Z.abs_eq in H by lia. lia. }
  assert (En : Qfloor (Qabs (inject_Z a / inject_Z (Z.pos p))
                       * inject_Z (10 ^ Z.of_nat 2) + (1 # 2))%Q
               = hundredths a (Zpos p)).
  { unfold hundredths, Qfloor, Qabs, Qdiv, Qmult, Qinv, Qplus, inject_Z. simpl.
    rewrite Z.abs_eq by lia. f_equal; lia. }
  rewrite En. cbn [Nat.eqb]. change (10 ^ Z.of_nat 2) with 100.
  assert (Hh : 0 <= hundredths a (Zpos p)).
  { unfold hundredths. apply Z.div_pos; lia. }
  assert (Hq : 0 <= hundredths a (Zpos p) / 100 <= 2 ^ 53).
  { split; [apply Z.div_pos; lia|].
    unfold hundredths. rewrite Z.div_div by lia.
    assert ((200 * a + Z.pos p) / (2 * Z.pos p * 100) < 2 ^ 53 + 1)
      by (apply Z.div_lt_upper_bound; lia).
    lia. }
  pose proof (Z.mod_pos_bound (hundredths a (Zpos p)) 100 ltac:(lia)) as Hm.
  rewrite !toString_decimal by lia. reflexivity.
Qed.

(** The quotient of a size of up to 2^53 bytes by a unit is a double. *)
Lemma round_quotient (bytes k : Z) :
  Z.abs bytes <= 2 ^ 53 -> 0 <= k ->
  (Double.round (inject_Z bytes / inject_Z (2 ^ k)) == inject_Z bytes / inject_Z (2 ^ k))%Q.
Proof.
  intros Hb Hk.
  assert (E : (inject_Z bytes / inject_Z (2 ^ k) == inject_Z bytes * Double.pow2 (- k))%Q).
  { unfold Qdiv. rewrite <- (pow2_Z k Hk). unfold Double.pow2.
    now rewrite Qpower_opp. }
  rewrite (round_comp _ _ E), round_representable by exact Hb. now rewrite E.
Qed.

End SizeFacts.

(** X25: a size of 1024 bytes or more is shown in KB below 1024 * 1024
    bytes and, from there on and up to 2^53 bytes, in MB, as the number
    of hundredths of the unit that is nearest to the size, with two
    digits after the point; the figure shown is at least 1.00, and in
    KB at most 1024.00. *)
Theorem formatSize_units (bytes : Z) :
  (1024 <= bytes < 1024 * 1024 ->
   formatSize bytes
   = toString (hundredths bytes 1024 / 100) ++ lit "."
       ++ pad_zero 2 (toString (hundredths bytes 1024 mod 100)) ++ lit " KB"
   /\ 2 * Z.abs (1024 * hundredths bytes 1024 - 100 * bytes) <= 1024
   /\ 100 <= hundredths bytes 1024 <= 102400)
  /\ (1024 * 1024 <= bytes <= 2 ^ 53 ->
      formatSize bytes
      = toString (hundredths bytes (1024 * 1024) / 100) ++ lit "."
          ++ pad_zero 2 (toString (hundredths bytes (1024 * 1024) mod 100)) ++ lit " MB"
      /\ 2 * Z.abs (1024 * 1024 * hundredths bytes (1024 * 1024) - 100 * bytes)
         <= 1024 * 1024
      /\ 100 <= hundredths bytes (1024 * 1024)).
Proof.
  split; intros H.
  - split; [|split].
    + unfold formatSize.
      replace (bytes <? 1024) with false by (symmetry; apply Z.ltb_ge; lia).
      replace (bytes <? 1024 * 1024) with true by (symmetry; apply Z.ltb_lt; lia).
      change (inject_Z 1024) with (inject_Z (2 ^ 10)).
      rewrite (toFixed_comp _ _ 2 (round_quotient bytes 10 ltac:(lia) ltac:(lia))).
      change (inject_Z (2 ^ 10)) with (inject_Z (Zpos 1024)).
      rewrite toFixed_ratio by lia. now rewrite <- !app_assoc.
    + unfold hundredths.
      pose proof (Z.div_mod (200 * bytes + 1024) (2 * 1024) ltac:(lia)) as Hd.
      pose proof (Z.mod_pos_bound (200 * bytes + 1024) (2 * 1024) ltac:(lia)) as Hm.
      lia.
    + unfold hundredths. split.
      * apply Z.div_le_lower_bound; lia.
      * assert ((200 * bytes + 1024) / (2 * 1024) < 102401)
          by (apply Z.div_lt_upper_bound; lia).
        lia.
  - split; [|split].
    + unfold formatSize.
      replace (bytes <? 1024) with false by (symmetry; apply Z.ltb_ge; lia).
      replace (bytes <? 1024 * 1024) with false by (symmetry; apply Z.ltb_ge; lia).
      change (inject_Z (1024 * 1024)) with (inject_Z (2 ^ 20)).
      rewrite (toFixed_comp _ _ 2 (round_quotient bytes 20 ltac:(lia) ltac:(lia))).
      change (inject_Z (2 ^ 20)) with (inject_Z (Zpos 1048576)).
      rewrite toFixed_ratio by lia. now rewrite <- !app_assoc.
    + unfold hundredths.
      pose proof (Z.div_mod (200 * bytes + 1024 * 1024) (2 * (1024 * 1024)) ltac:(lia))
        as Hd.
      pose proof (Z.mod_pos_bound (200 * bytes + 1024 * 1024) (2 * (1024 * 1024))
                    ltac:(lia)) as Hm.
      lia.
    + unfold hundredths. apply Z.div_le_lower_bound; lia.
Qed.

Lemma formatSize_units_witness :
  formatSize 71124 = lit "69.46 KB"
  /\ formatSize 71124
     = toString (hundredths 71124 1024 / 100) ++ lit "."
         ++ pad_zero 2 (toString (hundredths 71124 1024 mod 100)) ++ lit " KB".
Proof.
  split; [reflexivity|].
  apply (proj1 (formatSize_units 71124)). lia.
Defined.

(** Beyond, the quotient is shown as [String] shows a number: from
    10^21 on in the form with an exponent. *)
Example formatSize_exponent :
  formatSize (2 ^ 90) = lit "1.1805916207174113e+21 MB"
  /\ toString (- 2 ^ 60) = lit "-1152921504606847000"
  /\ toString (- 10 ^ 21) = lit "-1e+21".
Proof. repeat split; vm_compute; reflexivity. Qed.



(** The bundle size tool on the answer of the test of the repository. *)
Example bundle_size_tool_lodash :
  run (bundle_size_tool Sample.percent_encode
         (Sample.always (Sample.found Case.lodash_bundle)) (lit "lodash"))
  = Fulfilled
      (text_result
         (lit "# lodash@4.17.21 bundle size" ++ [10; 10]%N
            ++ lit "| Metric | Size |" ++ [10%N]
            ++ lit "|--------|------|" ++ [10%N]
            ++ lit "| Minified | 69.46 KB |" ++ [10%N]
            ++ lit "| Gzipped | 23.97 KB |" ++ [10%N]
            ++ lit "| Dependencies | 0 |")).
Proof. reflexivity. Qed.

(** ** The comparison tool under its schema *)

(** X27: for a list of packages that the schema of the comparison tool
    lets through, a comparison that succeeds has from 2 to 10 results,
    and the tool shows as the period the dates of the statistics of the
    first package of the list, never the dash that stands for a missing
    date. *)
Theorem compare_downloads_tool_period enc loc fetch packages period schedule results :
  packages_schema packages = true ->
  run (compareDownloads enc fetch packages period schedule) = Fulfilled results ->
  (2 <= length results <= 10)%nat
  /\ exists pkg first text,
       packages !! 0%nat = Some pkg
       /\ head results = Some first
       /\ run (getDownloads enc fetch pkg period) = Fulfilled first
       /\ run (compare_downloads_tool enc loc fetch packages period schedule)
          = Fulfilled (text_result text)
       /\ contains (lit "Period: " ++ DownloadStats.start first ++ lit " to "
                      ++ DownloadStats.end_ first) text.
Proof.
  intros Hschema Hrun.
  pose proof (compareDownloads_fulfilled_inv _ _ _ _ _ _ Hrun) as H2.
  pose proof (Forall2_length _ _ _ H2) as Hlen.
  unfold packages_schema in Hschema. apply andb_prop in Hschema as [Hlo Hhi].
  apply Nat.leb_le in Hlo, Hhi.
  split; [lia|].
  destruct H2 as [|pkg first packages results Hfirst _]; [simpl in Hlo; lia|].
  exists pkg, first. eexists. split; [reflexivity|]. split; [reflexivity|].
  split; [exact Hfirst|]. split.
  - unfold compare_downloads_tool.
    rewrite (run_try_catch_ret (compareDownloads enc fetch (pkg :: packages) period schedule)),
      Hrun.
    reflexivity.
  - cbn [head fmap option_fmap option_map default join].
    exists ((lit "## Download comparison (" ++ period ++ lit ")") ++ [10%N] ++ [] ++ [10%N]),
           ([10%N] ++ [] ++ [10%N] ++ lit "| Package | Downloads |" ++ [10%N]
              ++ lit "|---------|-----------|" ++ [10%N]
              ++ join [10%N]
                   (List.map (compare_row loc)
                      (sort by_downloads_descending (first :: results)))).
    rewrite <- !app_assoc. reflexivity.
Qed.

Lemma compare_downloads_tool_period_witness :
  (2 <= length [Sample.zustand_result; Sample.jotai_result] <= 10)%nat.
Proof.
  apply (compare_downloads_tool_period Sample.percent_encode Sample.en_US
           Sample.downloads_api [lit "zustand"; lit "jotai"] (lit "last-month")
           [1; 0]%nat [Sample.zustand_result; Sample.jotai_result]);
    reflexivity.
Defined.
